(** * Reflow oven controller: a shallow embedding and its verified properties

    The firmware is a PID-driven reflow oven controller built from four
    pieces: an active-object core ([active.c]), its time events, a PID
    block ([pid.c]) and the table-driven reflow state machine
    ([reflow.c]) that reads an MAX31855K thermocouple ([MAX31855K.c]).

    Part I embeds the C code, function by function.  Part II states and
    proves properties of the embedded functions. *)

From Stdlib Require Import ZArith List Bool Lia.
From Stdlib Require Import Strings.Byte.
From Stdlib Require Import Floats.SpecFloat.
From stdpp Require Import base option list.

Local Open Scope Z_scope.

(* ===================================================================== *)
(** * Part I: the embedding                                               *)
(* ===================================================================== *)

(** ** C scalar types *)

Module CInt.

(** [uint32_t] and [uint16_t] wrap-around, [int16_t] two's complement. *)
Definition UINT32_MAX : Z := 4294967295.
Definition u32 (z : Z) : Z := z mod 2 ^ 32.
Definition u16 (z : Z) : Z := z mod 2 ^ 16.
Definition i16 (z : Z) : Z := (z + 2 ^ 15) mod 2 ^ 16 - 2 ^ 15.

Definition u32_sub (a b : Z) : Z := u32 (a - b).
Definition u32_add (a b : Z) : Z := u32 (a + b).

End CInt.

(** ** [float]: IEEE-754 binary32

    The target (STM32L4, Cortex-M4F) evaluates [float] expressions in
    binary32 with round-to-nearest-even.  [spec_float] with precision 24
    and maximal exponent 128 is exactly that format. *)

Module F32.

Definition prec : Z := 24.
Definition emax : Z := 128.

Definition float : Type := spec_float.

Definition add : float -> float -> float := SFadd prec emax.
Definition sub : float -> float -> float := SFsub prec emax.
Definition mul : float -> float -> float := SFmul prec emax.
Definition div : float -> float -> float := SFdiv prec emax.
Definition neg : float -> float := SFopp.

Definition eqb : float -> float -> bool := SFeqb.
Definition ltb : float -> float -> bool := SFltb.
Definition leb : float -> float -> bool := SFleb.
Definition gtb (x y : float) : bool := SFltb y x.

(** Integer to [float] conversion, as in [(float)n]. *)
Definition of_Z (n : Z) : float := binary_normalize prec emax n 0 false.

(** The literals used by the sources. *)
Definition zero : float := S754_zero false.   (* 0.0f, and the int 0 *)
Definition half : float := binary_normalize prec emax 1 (-1) false. (* 0.5f *)
Definition two : float := of_Z 2.             (* 2.0f *)
Definition one : float := of_Z 1.

(** [double] to [float] conversion (rounding at the narrower format). *)
Definition of_double (d : spec_float) : float :=
  match d with
  | S754_finite s m e => binary_normalize prec emax (cond_Zopp s (Zpos m)) e s
  | _ => d
  end.

(** Integral part, rounding toward zero; [None] for infinities and NaN. *)
Definition trunc (x : float) : option Z :=
  match x with
  | S754_zero _ => Some 0
  | S754_finite s m e =>
      Some (cond_Zopp s (if 0 <=? e then Z.shiftl (Zpos m) e
                         else Z.shiftr (Zpos m) (- e)))
  | S754_infinity _ | S754_nan => None
  end.

(** [(uint32_t)x].  C defines the conversion as truncation toward zero
    when the result fits; outside that range the Cortex-M4 conversion
    ([VCVT.U32.F32], and [__aeabi_f2uiz] alike) saturates, and NaN
    converts to 0. *)
Definition to_u32 (x : float) : Z :=
  match x with
  | S754_nan => 0
  | S754_infinity s => if s then 0 else CInt.UINT32_MAX
  | _ => match trunc x with
         | Some n => Z.max 0 (Z.min CInt.UINT32_MAX n)
         | None => 0
         end
  end.

(** [(uint16_t)x]: converted as above, the low half-word kept. *)
Definition to_u16 (x : float) : Z := CInt.u16 (to_u32 x).

End F32.

Import F32(float).

(** ** [common.h] *)

Inductive mod_err_t : Set :=
| MOD_OK | MOD_ERR | MOD_ERR_ARG | MOD_ERR_RESOURCE | MOD_ERR_BAD_CMD
| MOD_ERR_BUF_OVERRUN | MOD_ERR_NOT_INIT | MOD_ERR_BAD_INSTANCE
| MOD_ERR_PERIPH | MOD_ERR_TIMEOUT | MOD_DID_NOTHING.

(** ** Outcomes of code that can stop

    [ASSERT(check)] prints and then spins forever when [check] fails.  An
    access outside an array is undefined behaviour.  Both end the run of
    the embedded function; neither yields a result. *)

Inductive Outcome (A : Type) : Type :=
| Done (a : A)
| AssertFailed
| Fault.
Arguments Done {A} a.
Arguments AssertFailed {A}.
Arguments Fault {A}.

#[global] Instance Outcome_ret : MRet Outcome := fun A a => Done a.

#[global] Instance Outcome_bind : MBind Outcome := fun A B k m =>
  match m with
  | Done a => k a
  | AssertFailed => AssertFailed
  | Fault => Fault
  end.

Definition ASSERT (check : bool) : Outcome unit :=
  if check then Done tt else AssertFailed.

(** An array access: the element when the index is in bounds. *)
Definition access {A} (o : option A) : Outcome A :=
  match o with
  | Some a => Done a
  | None => Fault
  end.

(** ** [pid.h], [pid.c] *)

Module Pid.

Record PID_t : Type := mkPID {
  Kp : float;
  Ki : float;
  Kd : float;
  tau : float;
  Ts : float;
  out_lim_max : float;
  out_lim_min : float;
  (* controller memory *)
  integral : float;
  derivative : float;
  prev_error : float;
  prev_measurement : float;
  (* solely for data logging *)
  proportional : float;
  out : float
}.

Record PID_cfg_t : Type := mkPIDcfg {
  cfg_Kp : float;
  cfg_Ki : float;
  cfg_Kd : float;
  cfg_tau : float;
  cfg_Ts : float;
  cfg_out_max : float;
  cfg_out_min : float
}.

(** [#define SAMESIGN(X, Y) ((X) <= 0) == ((Y) <= 0)] *)
Definition SAMESIGN (x y : float) : bool :=
  Bool.eqb (F32.leb x F32.zero) (F32.leb y F32.zero).

Definition PID_Reset (pid : PID_t) : PID_t :=
  {| Kp := Kp pid; Ki := Ki pid; Kd := Kd pid;
     tau := tau pid; Ts := Ts pid;
     out_lim_max := out_lim_max pid; out_lim_min := out_lim_min pid;
     integral := F32.zero;
     derivative := F32.zero;
     prev_error := F32.zero;
     prev_measurement := F32.zero;
     proportional := F32.zero;
     out := F32.zero |}.

Definition PID_Init (pid : PID_t) (pid_cfg : PID_cfg_t) : PID_t :=
  let pid := PID_Reset pid in
  {| Kp := cfg_Kp pid_cfg; Ki := cfg_Ki pid_cfg; Kd := cfg_Kd pid_cfg;
     tau := cfg_tau pid_cfg; Ts := cfg_Ts pid_cfg;
     out_lim_max := cfg_out_max pid_cfg; out_lim_min := cfg_out_min pid_cfg;
     integral := integral pid;
     derivative := derivative pid;
     prev_error := prev_error pid;
     prev_measurement := prev_measurement pid;
     proportional := proportional pid;
     out := out pid |}.

(** The guard of the integrator clamp:
    [(out == out_lim_max || out == out_lim_min) && SAMESIGN(out, error)]. *)
Definition clamp_integral (pid : PID_t) (error : float) : bool :=
  (F32.eqb (out pid) (out_lim_max pid) || F32.eqb (out pid) (out_lim_min pid))
  && SAMESIGN (out pid) error.

(** [0.5f * Ki * Ts * (error + prev_error)], left to right. *)
Definition trapezoid (pid : PID_t) (error : float) : float :=
  F32.mul (F32.mul (F32.mul F32.half (Ki pid)) (Ts pid))
          (F32.add error (prev_error pid)).

(** The output limiter applied to [P + I + D]. *)
Definition limit (pid : PID_t) (o : float) : float :=
  if F32.gtb o (out_lim_max pid) then out_lim_max pid
  else if F32.ltb o (out_lim_min pid) then out_lim_min pid
  else o.

(** [PID_Calculate]: the returned output and the updated controller. *)
Definition PID_Calculate (pid : PID_t) (setpoint measurement : float)
  : float * PID_t :=
  let error := F32.sub setpoint measurement in
  let proportional' := F32.mul (Kp pid) error in
  let integral' :=
    if clamp_integral pid error
    then integral pid
    else F32.add (integral pid) (trapezoid pid error) in
  let derivative' :=
    F32.div
      (F32.neg
         (F32.add
            (F32.mul (F32.mul F32.two (Kd pid))
                     (F32.sub measurement (prev_measurement pid)))
            (F32.mul (F32.sub (F32.mul F32.two (tau pid)) (Ts pid))
                     (derivative pid))))
      (F32.add (F32.mul F32.two (tau pid)) (Ts pid)) in
  let out' :=
    limit pid (F32.add (F32.add proportional' integral') derivative') in
  (out',
   {| Kp := Kp pid; Ki := Ki pid; Kd := Kd pid;
      tau := tau pid; Ts := Ts pid;
      out_lim_max := out_lim_max pid; out_lim_min := out_lim_min pid;
      integral := integral';
      derivative := derivative';
      prev_error := error;
      prev_measurement := measurement;
      proportional := proportional';
      out := out' |}).

End Pid.

(** ** CMSIS-RTOS2 services called by the sources

    The kernel is not part of the firmware sources.  Its objects are
    modelled by the state the firmware can observe through the calls it
    makes, following the CMSIS-RTOS2 API reference. *)

Module Rtos.

Inductive osStatus_t : Set :=
| osOK | osError | osErrorTimeout | osErrorResource | osErrorParameter
| osErrorNoMemory | osErrorISR.

(** A message queue created by [osMessageQueueNew(msg_count, ...)]: at
    most [msg_count] messages, delivered first in, first out. *)
Record MessageQueue (M : Type) : Type := mkQueue {
  msg_count : nat;
  msgs : list M
}.
Arguments mkQueue {M} msg_count msgs.
Arguments msg_count {M} _.
Arguments msgs {M} _.

(** A queue handle; [None] is the NULL handle. *)
Definition osMessageQueueId_t (M : Type) : Type := option (MessageQueue M).

Definition queue_full {M} (q : MessageQueue M) : bool :=
  negb (length (msgs q) <? msg_count q)%nat.

(** [osMessageQueuePut(mq_id, msg_ptr, msg_prio, timeout)].  With room
    the message is appended.  Without room the call fails:
    [osErrorResource] for [timeout = 0], [osErrorTimeout] once a
    nonzero timeout has elapsed.  A NULL handle is a parameter error. *)
Definition osMessageQueuePut {M} (mq_id : osMessageQueueId_t M) (msg : M)
    (msg_prio : Z) (timeout : Z) : osStatus_t * osMessageQueueId_t M :=
  match mq_id with
  | None => (osErrorParameter, None)
  | Some q =>
      if queue_full q
      then (if timeout =? 0 then osErrorResource else osErrorTimeout, Some q)
      else (osOK, Some (mkQueue (msg_count q) (msgs q ++ [msg])))
  end.

(** Whether the calling thread is suspended inside the put: only a full
    queue together with a nonzero timeout makes the caller wait. *)
Definition osMessageQueuePut_waits {M} (mq_id : osMessageQueueId_t M)
    (timeout : Z) : bool :=
  match mq_id with
  | None => false
  | Some q => queue_full q && negb (timeout =? 0)
  end.

(** A software timer, as far as the firmware drives it. *)
Inductive osTimer : Set :=
| TimerStopped
| TimerRunning (ticks : Z).

Definition osTimerId_t : Set := option osTimer.

Definition osTimerStart (id : osTimerId_t) (ticks : Z)
  : osStatus_t * osTimerId_t :=
  match id with
  | None => (osErrorParameter, None)
  | Some _ => (osOK, Some (TimerRunning ticks))
  end.

Definition osTimerStop (id : osTimerId_t) : osStatus_t * osTimerId_t :=
  match id with
  | None => (osErrorParameter, None)
  | Some TimerStopped => (osErrorResource, Some TimerStopped)
  | Some (TimerRunning _) => (osOK, Some TimerStopped)
  end.

Definition timer_running (id : osTimerId_t) : bool :=
  match id with
  | Some (TimerRunning _) => true
  | _ => false
  end.

End Rtos.

(** ** [active.h], [active.c] *)

Module ActiveObj.
Import Rtos.

(** [typedef int32_t Signal] and the reserved signals. *)
Definition Signal : Set := Z.
Definition INIT_SIG : Signal := 0.
Definition ENTRY_SIG : Signal := 1.
Definition USER_SIG : Signal := 2.

Record Event : Set := mkEvent { sig : Signal }.

(** Queues carry pointers to event objects.  These are the event objects
    of the firmware: the statics [initEvt] (active.c), [stop_evt],
    [reachtemp_evt], [start_evt] (reflow.c), [cmd_evt] (console.c), and
    the [base] member of the [i]-th registered time event. *)
Inductive EventRef : Set :=
| Ref_initEvt
| Ref_stop_evt
| Ref_reachtemp_evt
| Ref_start_evt
| Ref_cmd_evt
| Ref_time_evt_base (i : nat).

#[global] Instance EventRef_eq_dec : EqDecision EventRef.
Proof. solve_decision. Defined.

(** [struct Active].  Of its members only [queue_id] is read by the
    functions embedded here. *)
Record Active : Type := mkActive {
  queue_id : osMessageQueueId_t EventRef
}.

(** A pointer to an active object: its index in the store of active
    objects. *)
Abbreviation AoRef := nat (only parsing).

Record TimeEvent : Set := mkTimeEvent {
  base : Event;
  ao : AoRef;
  timeout : Z;   (* uint32_t; 0 means not armed *)
  reload : Z     (* uint32_t; 0 means one-shot *)
}.

(** The timeout passed to [osMessageQueuePut] by [Active_post]. *)
Definition Active_post_timeout : Z := 0.

Definition Active_post (ao : Active) (evt : EventRef) : mod_err_t * Active :=
  let '(err, q) :=
    osMessageQueuePut (queue_id ao) evt 0 Active_post_timeout in
  match err with
  | osOK => (MOD_OK, mkActive q)
  | _ => (MOD_ERR_TIMEOUT, mkActive q)
  end.

(** The file-scope statics [first_arm] and [ms_timer_inst]. *)
Record Statics : Set := mkStatics {
  first_arm : bool;
  ms_timer_inst : osTimerId_t
}.

(** [static TimeEvent *time_events[10]] with [num_time_events]: the
    registered time events, in registration order.  The list holds the
    objects the array points to. *)
Definition MAX_TIME_EVENTS : nat := 10.

Definition TimeEvent_ctor (time_events : list TimeEvent) (sig : Signal)
    (ao : AoRef) : Outcome (list TimeEvent) :=
  _ ← ASSERT (length time_events <? MAX_TIME_EVENTS)%nat;
  Done (time_events ++ [mkTimeEvent (mkEvent sig) ao 0 0]).

(** [TimeEvent_arm].  On the first arming the 1 s periodic timer is
    created and started; [osTimerNew] and [osTimerStart] are taken to
    succeed, which is what the two [ASSERT]s after them demand. *)
Definition TimeEvent_arm (time_evt : TimeEvent) (timeout reload : Z)
    (st : Statics) : TimeEvent * Statics :=
  let time_evt' :=
    mkTimeEvent (base time_evt) (ao time_evt) timeout reload in
  if first_arm st
  then (time_evt', st)
  else (time_evt',
        mkStatics true (snd (osTimerStart (Some TimerStopped) 1000))).

Definition TimeEvent_disarm (time_evt : TimeEvent) : TimeEvent :=
  mkTimeEvent (base time_evt) (ao time_evt) 0 (reload time_evt).

(** One posting made by the tick: the owner and the event posted. *)
Definition Posting : Set := AoRef * EventRef.

(** The body of the loop of [TimeEvent_tick] for [time_events[i]]. *)
Definition TimeEvent_tick_body (i : nat) (t : TimeEvent) (aos : list Active)
  : Outcome (TimeEvent * list Active * list Posting) :=
  if 0 <? timeout t then
    let timeout' := CInt.u32 (timeout t - 1) in
    if timeout' =? 0 then
      owner ← access (aos !! ao t);
      let '(_, owner') := Active_post owner (Ref_time_evt_base i) in
      Done (mkTimeEvent (base t) (ao t) (reload t) (reload t),
            <[ao t := owner']> aos,
            [(ao t, Ref_time_evt_base i)])
    else Done (mkTimeEvent (base t) (ao t) timeout' (reload t), aos, [])
  else Done (t, aos, []).

(** The loop of [TimeEvent_tick] from index [i] on. *)
Fixpoint TimeEvent_tick_from (i : nat) (time_events : list TimeEvent)
    (aos : list Active)
  : Outcome (list TimeEvent * list Active * list Posting) :=
  match time_events with
  | [] => Done ([], aos, [])
  | t :: rest =>
      '(t', aos1, posted1) ← TimeEvent_tick_body i t aos;
      '(rest', aos2, posted2) ← TimeEvent_tick_from (S i) rest aos1;
      Done (t' :: rest', aos2, posted1 ++ posted2)
  end.

Definition TimeEvent_tick (time_events : list TimeEvent) (aos : list Active)
  : Outcome (list TimeEvent * list Active * list Posting) :=
  TimeEvent_tick_from 0 time_events aos.

(** [n] consecutive ticks; the postings of each tick, oldest first. *)
Fixpoint ticks (n : nat) (time_events : list TimeEvent) (aos : list Active)
  : Outcome (list TimeEvent * list Active * list (list Posting)) :=
  match n with
  | O => Done (time_events, aos, [])
  | S n' =>
      '(tes1, aos1, posted) ← TimeEvent_tick time_events aos;
      '(tes2, aos2, later) ← ticks n' tes1 aos1;
      Done (tes2, aos2, posted :: later)
  end.

End ActiveObj.

(** ** [MAX31855K.h], [MAX31855K.c] *)

Module Max31855k.

Inductive MAX31855K_err_t : Set :=
| MAX_OK | MAX_SHORT_VCC | MAX_SHORT_GND | MAX_OPEN | MAX_ZEROS
| MAX_SPI_DMA_FAIL.

#[global] Instance MAX31855K_err_t_eq_dec : EqDecision MAX31855K_err_t.
Proof. solve_decision. Defined.

(** The four bytes sampled off the MISO line by [HAL_SPI_Receive]. *)
Record rx_buf_t : Set := mkRx { rx0 : byte; rx1 : byte; rx2 : byte; rx3 : byte }.

(** The members of [MAX31855K_t] that outlive a transaction. *)
Record MAX31855K_t : Set := mkMax {
  data32 : Z;             (* uint32_t *)
  err : MAX31855K_err_t
}.

Definition byte_val (b : byte) : Z := Z.of_N (Byte.to_N b).

(** [rx_buf[0] << 24 | (rx_buf[1] << 16) | (rx_buf[2] << 8) | rx_buf[3]] *)
Definition assemble (rx : rx_buf_t) : Z :=
  CInt.u32
    (Z.lor (Z.lor (Z.lor (Z.shiftl (byte_val (rx0 rx)) 24)
                         (Z.shiftl (byte_val (rx1 rx)) 16))
                  (Z.shiftl (byte_val (rx2 rx)) 8))
           (byte_val (rx3 rx))).

Definition MAX31855K_error_check (max : MAX31855K_t) : Outcome MAX31855K_t :=
  if data32 max =? 0 then Done (mkMax (data32 max) MAX_ZEROS)
  else if negb (Z.land (data32 max) (Z.shiftl 1 16) =? 0) then
    let fault := Z.land (data32 max) 7 in
    if fault =? 4 then Done (mkMax (data32 max) MAX_SHORT_VCC)
    else if fault =? 2 then Done (mkMax (data32 max) MAX_SHORT_GND)
    else if fault =? 1 then Done (mkMax (data32 max) MAX_OPEN)
    else _ ← ASSERT false; Done max
  else Done (mkMax (data32 max) MAX_OK).

Definition MAX31855K_RxBlocking (rx : rx_buf_t) (max : MAX31855K_t)
  : Outcome (MAX31855K_err_t * MAX31855K_t) :=
  max' ← MAX31855K_error_check (mkMax (assemble rx) (err max));
  Done (err max', max').

(** [#define HJ_RES 0.25], a [double] constant. *)
Definition HJ_RES : spec_float := binary_normalize 53 1024 1 (-2) false.

(** The signed 14-bit hot-junction count held in D[31:18]. *)
Definition HJ_count (data : Z) : Z :=
  if negb (Z.land data (Z.shiftl 1 31) =? 0)
  then CInt.i16 (Z.lor 49152 (Z.land (Z.shiftr data 18) 16383))
  else CInt.i16 (Z.shiftr data 18).

(** [val * HJ_RES] is a [double] product, returned as [float]. *)
Definition HJ_of_count (val : Z) : float :=
  F32.of_double (SFmul 53 1024 (binary_normalize 53 1024 val 0 false) HJ_RES).

Definition MAX31855K_Get_HJ (max : MAX31855K_t) : float :=
  HJ_of_count (HJ_count (data32 max)).

(** [#define CJ_RES 0.0625], a [double] constant. *)
Definition CJ_RES : spec_float := binary_normalize 53 1024 1 (-4) false.

(** The signed 12-bit cold-junction count held in D[15:4]. *)
Definition CJ_count (data : Z) : Z :=
  if negb (Z.land data (Z.shiftl 1 15) =? 0)
  then CInt.i16 (Z.lor 61440 (Z.land (Z.shiftr data 4) 4095))
  else CInt.i16 (Z.land (Z.shiftr data 4) 4095).

Definition CJ_of_count (val : Z) : float :=
  F32.of_double (SFmul 53 1024 (binary_normalize 53 1024 val 0 false) CJ_RES).

Definition MAX31855K_Get_CJ (max : MAX31855K_t) : float :=
  CJ_of_count (CJ_count (data32 max)).

End Max31855k.

(** ** [reflow.h], [reflow.c] *)

Module Reflow.
Import Rtos ActiveObj Pid Max31855k.

(** [enum ReflowSignal] *)
Definition START_REFLOW_SIG : Signal := USER_SIG.
Definition REACH_TIME_SIG : Signal := 3.
Definition REACH_TEMP_SIG : Signal := 4.
Definition STOP_REFLOW_SIG : Signal := 5.
Definition NUM_REFLOW_SIGS : Z := 6.

Inductive Reflow_State : Set :=
| RESET_STATE
| PREHEAT_STATE
| SOAK_STATE
| RAMPUP_STATE
| PEAK_STATE
| COOLDOWN_STATE.

#[global] Instance Reflow_State_eq_dec : EqDecision Reflow_State.
Proof. solve_decision. Defined.

(** The enumeration constants. *)
Definition state_val (s : Reflow_State) : Z :=
  match s with
  | RESET_STATE => 0
  | PREHEAT_STATE => 1
  | SOAK_STATE => 2
  | RAMPUP_STATE => 3
  | PEAK_STATE => 4
  | COOLDOWN_STATE => 5
  end.

Definition NUM_REFLOW_STATES : Z := 6.
Definition NUM_PROFILE_PHASES : Z := NUM_REFLOW_STATES - 1.

Inductive Reflow_Status : Set :=
| TRAN_STATUS
| HANDLED_STATUS
| IGNORE_STATUS
| INIT_STATUS.

#[global] Instance Reflow_Status_eq_dec : EqDecision Reflow_Status.
Proof. solve_decision. Defined.

Inductive Phase_Type : Set := REACHTEMP | REACHTIME.

Record Reflow_Phase : Set := mkPhase {
  phase_type : Phase_Type;
  reach_temp : Z;   (* uint32_t *)
  reach_time : Z    (* uint32_t *)
}.

(** The profile of [reflow_ao]; members left out of an initializer are 0. *)
Definition reflow_phases : list Reflow_Phase :=
  [ mkPhase REACHTEMP 100 0;     (* Pre-heat *)
    mkPhase REACHTIME 150 120;   (* Soak *)
    mkPhase REACHTEMP 215 0;     (* Ramp-up *)
    mkPhase REACHTIME 215 5;     (* Peak *)
    mkPhase REACHTEMP 35 0 ].    (* Cool-down *)

(** [a[i]] for a C array [a] and a signed index [i]. *)
Definition array_at {A} (a : list A) (i : Z) : option A :=
  if i <? 0 then None else a !! Z.to_nat i.

(** [reflow_phases[s - 1]] *)
Definition phase_index (s : Reflow_State) : Z := state_val s - 1.

Definition phase_of (s : Reflow_State) : Outcome Reflow_Phase :=
  access (array_at reflow_phases (phase_index s)).

(** [Reflow_Active].  [pwm_compare] and [pwm_started] stand for the
    capture/compare register and the output enable of the channel named
    by [pwm_timer_handle] and [pwm_channel]; the profile is the constant
    [reflow_phases]. *)
Record Reflow_Active : Type := mkReflow {
  reflow_base : Active;
  pwm_compare : Z;
  pwm_started : bool;
  reflow_time_evt : TimeEvent;
  pid_timer_id : osTimerId_t;
  state : Reflow_State;
  pid_params : PID_t;
  step_size : float;
  setpoint : float
}.

(** Everything the reflow module reads or writes: its active object, the
    statics of active.c and the thermocouple driver instance. *)
Record Firmware : Type := mkFirmware {
  reflow_ao : Reflow_Active;
  active_c : Statics;
  max : MAX31855K_t
}.

Definition with_ao (fw : Firmware) (a : Reflow_Active) : Firmware :=
  mkFirmware a (active_c fw) (max fw).

Definition set_state (a : Reflow_Active) (s : Reflow_State) : Reflow_Active :=
  mkReflow (reflow_base a) (pwm_compare a) (pwm_started a) (reflow_time_evt a)
           (pid_timer_id a) s (pid_params a) (step_size a) (setpoint a).

Definition set_setpoint (a : Reflow_Active) (x : float) : Reflow_Active :=
  mkReflow (reflow_base a) (pwm_compare a) (pwm_started a) (reflow_time_evt a)
           (pid_timer_id a) (state a) (pid_params a) (step_size a) x.

Definition set_step_size (a : Reflow_Active) (x : float) : Reflow_Active :=
  mkReflow (reflow_base a) (pwm_compare a) (pwm_started a) (reflow_time_evt a)
           (pid_timer_id a) (state a) (pid_params a) x (setpoint a).

Definition set_pid_timer (a : Reflow_Active) (t : osTimerId_t) : Reflow_Active :=
  mkReflow (reflow_base a) (pwm_compare a) (pwm_started a) (reflow_time_evt a)
           t (state a) (pid_params a) (step_size a) (setpoint a).

Definition set_time_evt (a : Reflow_Active) (t : TimeEvent) : Reflow_Active :=
  mkReflow (reflow_base a) (pwm_compare a) (pwm_started a) t
           (pid_timer_id a) (state a) (pid_params a) (step_size a) (setpoint a).

Definition set_pid (a : Reflow_Active) (p : PID_t) : Reflow_Active :=
  mkReflow (reflow_base a) (pwm_compare a) (pwm_started a) (reflow_time_evt a)
           (pid_timer_id a) (state a) p (step_size a) (setpoint a).

Definition set_base (a : Reflow_Active) (b : Active) : Reflow_Active :=
  mkReflow b (pwm_compare a) (pwm_started a) (reflow_time_evt a)
           (pid_timer_id a) (state a) (pid_params a) (step_size a) (setpoint a).

(** [__HAL_TIM_SET_COMPARE], [HAL_TIM_PWM_Start], [HAL_TIM_PWM_Stop] *)
Definition HAL_TIM_SET_COMPARE (a : Reflow_Active) (v : Z) : Reflow_Active :=
  mkReflow (reflow_base a) v (pwm_started a) (reflow_time_evt a)
           (pid_timer_id a) (state a) (pid_params a) (step_size a) (setpoint a).

Definition HAL_TIM_PWM_Start (a : Reflow_Active) : Reflow_Active :=
  mkReflow (reflow_base a) (pwm_compare a) true (reflow_time_evt a)
           (pid_timer_id a) (state a) (pid_params a) (step_size a) (setpoint a).

Definition HAL_TIM_PWM_Stop (a : Reflow_Active) : Reflow_Active :=
  mkReflow (reflow_base a) (pwm_compare a) false (reflow_time_evt a)
           (pid_timer_id a) (state a) (pid_params a) (step_size a) (setpoint a).

(** [readTemperature]: one blocking transaction, answered by [rx].  The
    result is the status and the value left in [*temp]. *)
Definition readTemperature (rx : rx_buf_t) (fw : Firmware) (temp : float)
  : Outcome (bool * float * Firmware) :=
  '(e, max') ← MAX31855K_RxBlocking rx (max fw);
  let fw' := mkFirmware (reflow_ao fw) (active_c fw) max' in
  if decide (e = MAX_OK)
  then Done (true, MAX31855K_Get_HJ max', fw')
  else Done (false, temp, fw').

(** *** State machine facilities

    An action receives the firmware state and the event pointer ([None]
    for the null pointer handed to entry actions).  [rx] answers the
    thermocouple transaction the action may start. *)

Definition ReflowAction : Type :=
  rx_buf_t -> Firmware -> option Event -> Outcome (Reflow_Status * Firmware).

Definition Reflow_reset_INIT : ReflowAction := fun rx fw evt =>
  Done (INIT_STATUS, with_ao fw (set_state (reflow_ao fw) RESET_STATE)).

Definition Reflow_reset_ENTRY : ReflowAction := fun rx fw evt =>
  let a := reflow_ao fw in
  (* Disable PWM output signal *)
  let a := HAL_TIM_SET_COMPARE a 0 in
  let a := HAL_TIM_PWM_Stop a in
  (* Clear PID memory *)
  let a := set_pid a (PID_Reset (pid_params a)) in
  (* Disarm timers *)
  let a := set_pid_timer a (snd (osTimerStop (pid_timer_id a))) in
  let a := set_time_evt a (TimeEvent_disarm (reflow_time_evt a)) in
  Done (HANDLED_STATUS, with_ao fw a).

Definition Reflow_preheat_ENTRY : ReflowAction := fun rx fw evt =>
  let a := reflow_ao fw in
  let a := HAL_TIM_PWM_Start a in
  ph ← phase_of PREHEAT_STATE;
  let a := set_setpoint a (F32.of_Z (reach_temp ph)) in
  let ticks := F32.to_u32 (F32.mul (Ts (pid_params a)) (F32.of_Z 1000)) in
  let a := set_pid_timer a (snd (osTimerStart (pid_timer_id a) ticks)) in
  Done (HANDLED_STATUS, with_ao fw a).

Definition Reflow_soak_ENTRY : ReflowAction := fun rx fw evt =>
  let a := reflow_ao fw in
  soak ← phase_of SOAK_STATE;
  preheat ← phase_of PREHEAT_STATE;
  (* Set step size for slowest temperature rise. *)
  let rise := F32.of_Z (CInt.u32_sub (reach_temp soak) (reach_temp preheat)) in
  let samples :=
    F32.mul (F32.of_Z (reach_time soak))
            (F32.div (F32.of_Z 1) (Ts (pid_params a))) in
  let a := set_step_size a (F32.div rise samples) in
  let '(te, st) :=
    TimeEvent_arm (reflow_time_evt a) (reach_time soak) 0 (active_c fw) in
  Done (HANDLED_STATUS, mkFirmware (set_time_evt a te) st (max fw)).

Definition Reflow_rampup_ENTRY : ReflowAction := fun rx fw evt =>
  ph ← phase_of RAMPUP_STATE;
  Done (HANDLED_STATUS,
        with_ao fw (set_setpoint (reflow_ao fw) (F32.of_Z (reach_temp ph)))).

Definition Reflow_peak_ENTRY : ReflowAction := fun rx fw evt =>
  let a := set_step_size (reflow_ao fw) F32.zero in
  peak ← phase_of PEAK_STATE;
  let '(te, st) :=
    TimeEvent_arm (reflow_time_evt a) (reach_time peak) 0 (active_c fw) in
  Done (HANDLED_STATUS, mkFirmware (set_time_evt a te) st (max fw)).

Definition Reflow_cooldown_ENTRY : ReflowAction := fun rx fw evt =>
  ph ← phase_of COOLDOWN_STATE;
  Done (HANDLED_STATUS,
        with_ao fw (set_setpoint (reflow_ao fw) (F32.of_Z (reach_temp ph)))).

Definition Reflow_reset_START : ReflowAction := fun rx fw evt =>
  (* Check that oven temperature has cooled down. *)
  '(ok, current_temp, fw) ← readTemperature rx fw F32.zero;
  if negb ok then Done (HANDLED_STATUS, fw)
  else
    cooldown ← phase_of COOLDOWN_STATE;
    if F32.to_u32 current_temp >? reach_temp cooldown
    then Done (HANDLED_STATUS, fw)
    else Done (TRAN_STATUS, with_ao fw (set_state (reflow_ao fw) PREHEAT_STATE)).

Definition Reflow_preheat_REACHTEMP : ReflowAction := fun rx fw evt =>
  Done (TRAN_STATUS, with_ao fw (set_state (reflow_ao fw) SOAK_STATE)).

Definition Reflow_soak_REACHTIME : ReflowAction := fun rx fw evt =>
  Done (TRAN_STATUS, with_ao fw (set_state (reflow_ao fw) RAMPUP_STATE)).

Definition Reflow_rampup_REACHTEMP : ReflowAction := fun rx fw evt =>
  Done (TRAN_STATUS, with_ao fw (set_state (reflow_ao fw) PEAK_STATE)).

Definition Reflow_peak_REACHTIME : ReflowAction := fun rx fw evt =>
  Done (TRAN_STATUS, with_ao fw (set_state (reflow_ao fw) COOLDOWN_STATE)).

Definition Reflow_cooldown_REACHTEMP : ReflowAction := fun rx fw evt =>
  Done (TRAN_STATUS, with_ao fw (set_state (reflow_ao fw) RESET_STATE)).

Definition Reflow_STOP : ReflowAction := fun rx fw evt =>
  let a := reflow_ao fw in
  let a := set_pid_timer a (snd (osTimerStop (pid_timer_id a))) in
  Done (TRAN_STATUS, with_ao fw (set_state a RESET_STATE)).

Definition Reflow_ignore : ReflowAction := fun rx fw evt =>
  Done (IGNORE_STATUS, fw).

(** State machine table: a row per state, a column per signal, in the
    order INIT, ENTRY, START_REFLOW, REACH_TIME, REACH_TEMP, STOP_REFLOW. *)
Definition Reflow_state_table : list (list ReflowAction) :=
  [ (* RESET    *) [Reflow_reset_INIT; Reflow_reset_ENTRY; Reflow_reset_START;
                    Reflow_ignore; Reflow_ignore; Reflow_ignore];
    (* PREHEAT  *) [Reflow_ignore; Reflow_preheat_ENTRY; Reflow_ignore;
                    Reflow_ignore; Reflow_preheat_REACHTEMP; Reflow_STOP];
    (* SOAK     *) [Reflow_ignore; Reflow_soak_ENTRY; Reflow_ignore;
                    Reflow_soak_REACHTIME; Reflow_ignore; Reflow_STOP];
    (* RAMPUP   *) [Reflow_ignore; Reflow_rampup_ENTRY; Reflow_ignore;
                    Reflow_ignore; Reflow_rampup_REACHTEMP; Reflow_STOP];
    (* PEAK     *) [Reflow_ignore; Reflow_peak_ENTRY; Reflow_ignore;
                    Reflow_peak_REACHTIME; Reflow_ignore; Reflow_STOP];
    (* COOLDOWN *) [Reflow_ignore; Reflow_cooldown_ENTRY; Reflow_ignore;
                    Reflow_ignore; Reflow_cooldown_REACHTEMP; Reflow_STOP] ].

(** [Reflow_state_table[s][g]] *)
Definition table_at (s : Reflow_State) (g : Signal) : Outcome ReflowAction :=
  row ← access (array_at Reflow_state_table (state_val s));
  access (array_at row g).

(** *** The control tick

    [reflow_pid_iteration], the callback of the periodic PID timer.  The
    result lists the events handed to [Active_post], in order. *)
Definition reflow_pid_iteration (rx : rx_buf_t) (fw : Firmware)
  : Outcome (list EventRef * Firmware) :=
  (* Read temperature *)
  '(status, temp_reading, fw) ← readTemperature rx fw F32.zero;
  let a := reflow_ao fw in
  let '(posted1, a) :=
    if negb status
    then ([Ref_stop_evt],
          set_base a (snd (Active_post (reflow_base a) Ref_stop_evt)))
    else ([], a) in
  (* Check if temperature reached intended temperature of REACHTEMP phases. *)
  ph ← phase_of (state a);
  let '(posted2, a) :=
    match phase_type ph with
    | REACHTEMP =>
        let rt := reach_temp ph in
        (* Give some leeway. *)
        if (rt >? CInt.u32_sub (F32.to_u32 temp_reading) 2)
           && (rt <? CInt.u32_add (F32.to_u32 temp_reading) 2)
        then ([Ref_reachtemp_evt],
              set_base a (snd (Active_post (reflow_base a) Ref_reachtemp_evt)))
        else ([], a)
    | REACHTIME =>
        (* Update setpoint by a step to smooth out temperature change. *)
        ([], set_setpoint a (F32.add (setpoint a) (step_size a)))
    end in
  (* Acquire new PWM output signal through feedback control. *)
  let '(pwm_value, pid') :=
    PID_Calculate (pid_params a) (setpoint a) temp_reading in
  let a := set_pid a pid' in
  (* Set PWM signal *)
  let a := HAL_TIM_SET_COMPARE a (F32.to_u16 pwm_value) in
  Done (posted1 ++ posted2, with_ao fw a).

(** *** The event handler

    [reflow_evt_handler].  The result lists the table cells whose action
    was called, as (row, column), in call order. *)
Definition Call : Set := Reflow_State * Signal.

Definition reflow_evt_handler (rx : rx_buf_t) (fw : Firmware) (evt : Event)
  : Outcome (list Call * Firmware) :=
  let s := state (reflow_ao fw) in
  (* Use state table to handle events *)
  _ ← ASSERT ((state_val s <? NUM_REFLOW_STATES) && (sig evt <? NUM_REFLOW_SIGS));
  action ← table_at s (sig evt);
  '(stat, fw1) ← action rx fw (Some evt);
  let s1 := state (reflow_ao fw1) in
  match stat with
  | TRAN_STATUS =>
      (* Execute entry action of current state. *)
      _ ← ASSERT (state_val s1 <? NUM_REFLOW_STATES);
      entry ← table_at s1 ENTRY_SIG;
      '(_, fw2) ← entry rx fw1 None;
      Done ([(s, sig evt); (s1, ENTRY_SIG)], fw2)
  | INIT_STATUS =>
      (* Execute entry action of initial state. *)
      entry ← table_at s1 ENTRY_SIG;
      '(_, fw2) ← entry rx fw1 None;
      Done ([(s, sig evt); (s1, ENTRY_SIG)], fw2)
  | HANDLED_STATUS | IGNORE_STATUS =>
      Done ([(s, sig evt)], fw1)
  end.

(** *** Start-up

    [reflow_ao] is a zero-initialised static; [reflow_init] and
    [reflow_start] fill it in before the scheduler runs. *)

Definition reflow_pid_cfg : PID_cfg_t :=
  {| cfg_Kp := F32.of_Z 10;      (* KP_INIT *)
     cfg_Ki := F32.zero;         (* KI_INIT *)
     cfg_Kd := F32.zero;         (* KD_INIT *)
     cfg_tau := F32.of_Z 1;      (* TAU_INIT *)
     cfg_Ts := F32.half;         (* TS_INIT *)
     cfg_out_max := F32.of_Z 4095;  (* OUT_MAX_INIT *)
     cfg_out_min := F32.zero |}.    (* OUT_MIN_INIT *)

Definition zeroed_pid : PID_t :=
  mkPID F32.zero F32.zero F32.zero F32.zero F32.zero F32.zero F32.zero
        F32.zero F32.zero F32.zero F32.zero F32.zero F32.zero.

Definition firmware_static : Firmware :=
  {| reflow_ao :=
       {| reflow_base := mkActive None;
          pwm_compare := 0;
          pwm_started := false;
          reflow_time_evt := mkTimeEvent (mkEvent 0) 0%nat 0 0;
          pid_timer_id := None;
          state := RESET_STATE;
          pid_params := zeroed_pid;
          step_size := F32.zero;
          setpoint := F32.zero |};
     active_c := mkStatics false None;
     max := mkMax 0 MAX_OK |}.

(** [reflow_init]: the reflow active object is the first one of the
    store, its time event the first one registered; [osTimerNew] hands
    out a stopped timer. *)
Definition reflow_init (fw : Firmware) : Firmware :=
  let a := reflow_ao fw in
  let a := set_pid a (PID_Init (pid_params a) reflow_pid_cfg) in
  let a := set_time_evt a (mkTimeEvent (mkEvent REACH_TIME_SIG) 0%nat 0 0) in
  let a := set_pid_timer a (Some TimerStopped) in
  mkFirmware a (active_c fw) (mkMax 0 MAX_OK).

(** [reflow_start]: [Active_start] with a queue of five event pointers. *)
Definition reflow_start (fw : Firmware) : Firmware :=
  with_ao fw (set_base (reflow_ao fw) (mkActive (Some (mkQueue 5%nat [])))).

Definition firmware_started : Firmware :=
  reflow_start (reflow_init firmware_static).

End Reflow.

(** ** [console.h], [console.c]

    The console thread hands every character received over the UART to
    [console_process].  The characters echoed back through [LOG] are not
    part of the state embedded here. *)

Module Console.
Import Rtos ActiveObj.

Definition CONSOLE_CMD_BUF_SIZE : Z := 40.

(** A [char] by its code. *)
Definition char_val (c : byte) : Z := Z.of_N (Byte.to_N c).

(** [isprint] in the C locale: the codes from space to tilde. *)
Definition isprint (c : byte) : bool :=
  (32 <=? char_val c) && (char_val c <=? 126).

(** [Console_t]: the members [console_process] reads or writes. *)
Record Console_t : Set := mkConsole {
  cmd_buf : list byte;        (* char cmd_buf[CONSOLE_CMD_BUF_SIZE] *)
  num_cmd_buf_chars : Z       (* uint16_t *)
}.

(** What [console_process] reaches: the console object, [_log_active]
    of log.c and the command active object [cmd_base] points to. *)
Record World : Type := mkWorld {
  console : Console_t;
  _log_active : bool;
  cmd_base : Active
}.

(** [a[i] = v] for a C array [a]. *)
Definition store {A} (a : list A) (i : Z) (v : A) : Outcome (list A) :=
  if (0 <=? i) && (i <? Z.of_nat (length a))
  then Done (<[Z.to_nat i := v]> a)
  else Fault.

(** [console_init]: [memset(&console, 0, sizeof(console))]. *)
Definition console_init : Console_t :=
  mkConsole (replicate (Z.to_nat CONSOLE_CMD_BUF_SIZE) x00) 0.

(** [log_toggle] of log.c. *)
Definition log_toggle (w : World) : bool * World :=
  let b := if _log_active w then false else true in
  (b, mkWorld (console w) b (cmd_base w)).

(** [post_cmd_event]: [Active_post(cmd_base, &cmd_evt)], result unused.
    [cmd_evt.cmd_line] points to [console.cmd_buf]. *)
Definition post_cmd_event (w : World) : World :=
  mkWorld (console w) (_log_active w) (Active_post (cmd_base w) Ref_cmd_evt).2.

Definition console_process (c : byte) (w : World)
  : Outcome (mod_err_t * World) :=
  let con := console w in
  (* Execute command once Enter key is pressed. *)
  if (char_val c =? 10) || (char_val c =? 13) then
    buf ← store (cmd_buf con) (num_cmd_buf_chars con) x00;
    let w := mkWorld (mkConsole buf (num_cmd_buf_chars con))
                     (_log_active w) (cmd_base w) in
    let w := post_cmd_event w in
    Done (MOD_OK,
          mkWorld (mkConsole (cmd_buf (console w)) 0)
                  (_log_active w) (cmd_base w))
  (* Delete a character when Backspace key is pressed. *)
  else if (char_val c =? 8) || (char_val c =? 127) then
    if num_cmd_buf_chars con >? 0
    then Done (MOD_OK,
               mkWorld (mkConsole (cmd_buf con)
                                  (CInt.u16 (num_cmd_buf_chars con - 1)))
                       (_log_active w) (cmd_base w))
    else Done (MOD_OK, w)
  (* Toggle logging on and off when LOG_TOGGLE_CHAR is pressed. *)
  else if char_val c =? 9 then
    Done (MOD_OK, (log_toggle w).2)
  else if isprint c then
    if num_cmd_buf_chars con <? CONSOLE_CMD_BUF_SIZE - 1 then
      buf ← store (cmd_buf con) (num_cmd_buf_chars con) c;
      Done (MOD_OK,
            mkWorld (mkConsole buf (CInt.u16 (num_cmd_buf_chars con + 1)))
                    (_log_active w) (cmd_base w))
    else
      (* No space in buffer, so ring terminal bell. *)
      Done (MOD_OK, w)
  else Done (MOD_OK, w).

(** The characters received one after the other, as [Console_thread]
    processes them. *)
Fixpoint console_process_all (cs : list byte) (w : World) : Outcome World :=
  match cs with
  | [] => Done w
  | c :: rest =>
      '(_, w1) ← console_process c w;
      console_process_all rest w1
  end.

(** The C string at the start of a character array: the characters
    before the first NUL. *)
Fixpoint c_string (buf : list byte) : list byte :=
  match buf with
  | [] => []
  | c :: rest => if char_val c =? 0 then [] else c :: c_string rest
  end.

(** The line a user has typed, key by key: printable characters are
    appended while fewer than 39 are held, backspace and DEL remove the
    last one, every other key leaves the line. *)
Definition type_key (line : list byte) (c : byte) : list byte :=
  if (char_val c =? 8) || (char_val c =? 127) then removelast line
  else if isprint c && (length line <? 39)%nat then line ++ [c]
  else line.

(** The console holds [line]: the buffer has its forty characters and
    starts with the line. *)
Definition holds (w : World) (line : list byte) : Prop :=
  length (cmd_buf (console w)) = 40%nat /\
  num_cmd_buf_chars (console w) = Z.of_nat (length line) /\
  (length line <= 39)%nat /\
  take (length line) (cmd_buf (console w)) = line /\
  Forall (fun c => isprint c = true) line.

End Console.

(** ** [cmd.h], [cmd.c]

    Command lines are C strings; a token is the C string at an offset
    of the command buffer.  What the handlers print is not part of the
    state embedded here. *)

Module Cmd.
Import Rtos ActiveObj Console.

Definition CMD_MAX_CLIENTS : nat := 10.
Definition CMD_MAX_TOKENS : nat := 10.

(** [CMD_RX_SIG = USER_SIG]: command received from user over serial. *)
Definition CMD_RX_SIG : Signal := USER_SIG.

(** [isspace] and [tolower] in the C locale. *)
Definition isspace (c : byte) : bool :=
  (char_val c =? 32) || ((9 <=? char_val c) && (char_val c <=? 13)).

Definition tolower (c : byte) : Z :=
  if (65 <=? char_val c) && (char_val c <=? 90)
  then char_val c + 32 else char_val c.

(** [strcasecmp] on C strings given by their characters: the difference
    of the first characters that differ after [tolower], the terminator
    counting as 0. *)
Fixpoint strcasecmp (a b : list byte) : Z :=
  match a, b with
  | [], [] => 0
  | [], y :: _ => 0 - tolower y
  | x :: _, [] => tolower x
  | x :: a', y :: b' =>
      if tolower x =? tolower y then strcasecmp a' b'
      else tolower x - tolower y
  end.

(** The string literals of cmd.c. *)
Definition str_help : list byte := ["h"; "e"; "l"; "p"]%byte.
Definition str_qmark : list byte := ["?"]%byte.
Definition str_pm : list byte := ["p"; "m"]%byte.
Definition str_clear : list byte := ["c"; "l"; "e"; "a"; "r"]%byte.

(** [cmd_cb_t]: a pointer to a command handler function, by the name
    of the function. *)
Inductive cmd_cb_t : Set :=
| Cb_cmd_log_status
| Cb_cmd_log_set
| Cb_reflow_status_cmd
| Cb_reflow_start_cmd
| Cb_reflow_stop_cmd
| Cb_reflow_set_cmd.

(** [cmd_cmd_info] and [cmd_client_info].  [cmds] holds [num_cmds]
    entries and [u16_pms] holds [num_u16_pms] counters, fewer than 256
    of each (the loops over them count in a [uint8_t]). *)
Record cmd_cmd_info : Set := mkCmdInfo {
  cmd_name : list byte;
  cb : cmd_cb_t
}.

Record cmd_client_info : Set := mkClientInfo {
  client_name : list byte;
  cmds : list cmd_cmd_info;
  u16_pms : list Z
}.

Definition num_cmds (ci : cmd_client_info) : nat := length (cmds ci).
Definition num_u16_pms (ci : cmd_client_info) : nat := length (u16_pms ci).

(** [static const cmd_client_info *client_infos[CMD_MAX_CLIENTS]]: the
    objects the array points to, [None] for a null pointer. *)
Abbreviation client_table := (list (option cmd_client_info)) (only parsing).

Definition no_clients : client_table := replicate CMD_MAX_CLIENTS None.

(** Whether [cmd_register] takes the slot for [name]. *)
Definition slot_taken_for (name : list byte) (slot : option cmd_client_info)
  : bool :=
  match slot with
  | None => true
  | Some ci => strcasecmp (client_name ci) name =? 0
  end.

(** The loop of [cmd_register] from index [i] on, [slots] being
    [client_infos + i]: the index stored to, if any. *)
Fixpoint cmd_register_from (i : nat) (slots : client_table)
    (name : list byte) : Outcome (option nat) :=
  if (i <? CMD_MAX_CLIENTS)%nat then
    match slots with
    | [] => Fault
    | slot :: rest =>
        if slot_taken_for name slot then Done (Some i)
        else cmd_register_from (S i) rest name
    end
  else Done None.

Definition cmd_register (client_infos : client_table)
    (_client_info : cmd_client_info) : Outcome (mod_err_t * client_table) :=
  r ← cmd_register_from 0 client_infos (client_name _client_info);
  match r with
  | Some i => Done (MOD_OK, <[i := Some _client_info]> client_infos)
  | None => Done (MOD_ERR_RESOURCE, client_infos)
  end.

(** *** [tokenize] *)

(** The loop that advances [ptr] while the character it points to is
    not the terminator and satisfies [go]; [s] is the array from [ptr]
    on, the result the number of increments. *)
Fixpoint scan (go : byte -> bool) (s : list byte) : Outcome nat :=
  match s with
  | [] => Fault
  | c :: rest =>
      if negb (char_val c =? 0) && go c
      then k ← scan go rest; Done (S k)
      else Done 0%nat
  end.

(** The outer loop of [tokenize].  [tokens] holds the offsets recorded
    so far and [room] is [CMD_MAX_TOKENS - token_count], so that the
    test [token_count >= CMD_MAX_TOKENS] reads [room = 0]. *)
Fixpoint tokenize_loop (room : nat) (buf : list byte) (ptr : nat)
    (tokens : list nat) : Outcome (mod_err_t * list byte * list nat) :=
  (* Find start of token. *)
  k ← scan isspace (drop ptr buf);
  let ptr := (ptr + k)%nat in
  c ← access (buf !! ptr);
  if char_val c =? 0 then Done (MOD_OK, buf, tokens)
  else
    match room with
    | O => Done (MOD_ERR_BAD_CMD, buf, tokens)
    | S room' =>
        (* Record pointer to start of token, then find end of token. *)
        let tokens := tokens ++ [ptr] in
        let ptr := S ptr in
        k ← scan (fun c => negb (isspace c)) (drop ptr buf);
        let ptr := (ptr + k)%nat in
        c ← access (buf !! ptr);
        if negb (char_val c =? 0)
        then tokenize_loop room' (<[ptr := x00]> buf) (S ptr) tokens
        else Done (MOD_OK, buf, tokens)
    end.

Definition tokenize (str_to_tokenize : list byte)
  : Outcome (mod_err_t * list byte * list nat) :=
  tokenize_loop CMD_MAX_TOKENS str_to_tokenize 0 [].

(** The token at offset [off] of the buffer. *)
Definition token_at (buf : list byte) (off : nat) : list byte :=
  c_string (drop off buf).

(** A C string holds no terminator. *)
Definition no_nul (s : list byte) : Prop :=
  Forall (fun c => char_val c <> 0) s.

(** The words of a line: its maximal runs of characters that are not
    white space. *)
Fixpoint words_from (cur : list byte) (s : list byte) : list (list byte) :=
  match s with
  | [] => match cur with [] => [] | _ => [cur] end
  | c :: rest =>
      if isspace c
      then match cur with
           | [] => words_from [] rest
           | _ => cur :: words_from [] rest
           end
      else words_from (cur ++ [c]) rest
  end.

Definition words (s : list byte) : list (list byte) := words_from [] s.

(** *** The handlers *)

(** The loop of [help_handler] over the clients from index [i] on:
    [client_infos[i]] is read before [i] is compared with
    [CMD_MAX_CLIENTS]. *)
Fixpoint help_clients_from (i : nat) (slots : client_table) : Outcome unit :=
  match slots with
  | [] => Fault
  | None :: _ => Done tt
  | Some ci :: rest =>
      if (i <? CMD_MAX_CLIENTS)%nat then help_clients_from (S i) rest
      else Done tt
  end.

Definition help_handler (client_infos : client_table)
    (tokens : list (list byte)) : Outcome mod_err_t :=
  t0 ← access (tokens !! 0%nat);
  if (strcasecmp str_help t0 =? 0) || (strcasecmp str_qmark t0 =? 0)
  then _ ← help_clients_from 0 client_infos; Done MOD_OK
  else Done MOD_DID_NOTHING.

(** The loop over the commands of a client: the first command whose
    name matches. *)
Fixpoint find_cmd (name : list byte) (cs : list cmd_cmd_info)
  : option cmd_cmd_info :=
  match cs with
  | [] => None
  | c :: rest =>
      if strcasecmp name (cmd_name c) =? 0 then Some c else find_cmd name rest
  end.

Section Handlers.
Context {St : Type}.

(** Calling through a [cmd_cb_t]: [run cb argc argv]. *)
Variable run : cmd_cb_t -> Z -> list (list byte) -> St -> Outcome (Z * St).

(** The body of the loop of [client_command_handler] once the client
    [ci] at index [i] has matched.  [tokens] holds the [num_tokens]
    tokens. *)
Definition client_command (client_infos : client_table) (i : nat)
    (ci : cmd_client_info) (tokens : list (list byte)) (st : St)
  : Outcome (mod_err_t * client_table * St) :=
  let num_tokens := length tokens in
  (* If there is no command with client, assume they want help. *)
  let tokens := if (num_tokens =? 1)%nat then tokens ++ [str_help] else tokens in
  t1 ← access (tokens !! 1%nat);
  (* Handle help command directly. *)
  if (strcasecmp t1 str_help =? 0) || (strcasecmp t1 str_qmark =? 0)
  then Done (MOD_OK, client_infos, st)
  (* Handle pm command directly. *)
  else if strcasecmp t1 str_pm =? 0 then
    if (0 <? num_u16_pms ci)%nat then
      let ci' := mkClientInfo (client_name ci) (cmds ci)
                   (replicate (num_u16_pms ci) 0) in
      let cleared := Done (MOD_OK, <[i := Some ci']> client_infos, st) in
      let shown := Done (MOD_OK, client_infos, st) in
      if (3 <=? num_tokens)%nat then
        t2 ← access (tokens !! 2%nat);
        if strcasecmp t2 str_clear =? 0 then cleared else shown
      else shown
    else Done (MOD_OK, client_infos, st)
  else
    (* Look for command within client. *)
    match find_cmd t1 (cmds ci) with
    | Some c =>
        let shown := Done (MOD_OK, client_infos, st) in
        let called :=
          (* Ignore client and command tokens. *)
          '(_, st') ← run (cb c) (Z.of_nat num_tokens - 2) (drop 2 tokens) st;
          Done (MOD_OK, client_infos, st') in
        if (num_tokens =? 3)%nat then
          t2 ← access (tokens !! 2%nat);
          if (strcasecmp t2 str_help =? 0) || (strcasecmp t2 str_qmark =? 0)
          then shown else called
        else called
    | None => Done (MOD_ERR_BAD_CMD, client_infos, st)
    end.

(** The loop of [client_command_handler] from index [i] on, [slots]
    being [client_infos + i]. *)
Fixpoint client_command_from (client_infos : client_table) (i : nat)
    (slots : client_table) (tokens : list (list byte)) (st : St)
  : Outcome (mod_err_t * client_table * St) :=
  match slots with
  | [] => Fault
  | None :: _ => Done (MOD_ERR_BAD_CMD, client_infos, st)
  | Some ci :: rest =>
      if (i <? CMD_MAX_CLIENTS)%nat then
        t0 ← access (tokens !! 0%nat);
        (* Look for correct client first *)
        if negb (strcasecmp t0 (client_name ci) =? 0)
        then client_command_from client_infos (S i) rest tokens st
        else client_command client_infos i ci tokens st
      else Done (MOD_ERR_BAD_CMD, client_infos, st)
  end.

Definition client_command_handler (client_infos : client_table)
    (tokens : list (list byte)) (st : St)
  : Outcome (mod_err_t * client_table * St) :=
  client_command_from client_infos 0 client_infos tokens st.

(** [cmd_execute]: the result, the command buffer after tokenizing,
    the clients and the state the callbacks work on. *)
Definition cmd_execute (client_infos : client_table) (cmd_line : list byte)
    (st : St) : Outcome (mod_err_t * list byte * client_table * St) :=
  '(err, buf, offsets) ← tokenize cmd_line;
  match err with
  | MOD_OK =>
      let tokens := token_at buf <$> offsets in
      (* If there are no tokens, nothing to do. *)
      if (length tokens =? 0)%nat then Done (MOD_OK, buf, client_infos, st)
      else
        (* Handle help/? command. *)
        err ← help_handler client_infos tokens;
        match err with
        | MOD_DID_NOTHING =>
            '(err, client_infos', st') ←
              client_command_handler client_infos tokens st;
            Done (err, buf, client_infos', st')
        | _ => Done (err, buf, client_infos, st)
        end
  | _ => Done (err, buf, client_infos, st)
  end.

(** [strncpy(dst, src, n)] into an array of [n] characters: the
    characters of [src] up to its terminator, padded with terminators;
    [n] characters when no terminator is among them. *)
Fixpoint strncpy (src : list byte) (n : nat) : Outcome (list byte) :=
  match n with
  | O => Done []
  | S n' =>
      match src with
      | [] => Fault
      | c :: rest =>
          if char_val c =? 0 then Done (replicate (S n') x00)
          else copied ← strncpy rest n'; Done (c :: copied)
      end
  end.

(** [Cmd_Event_Handler]: [cmd_buf] is [cmd_ao.cmd_buf], and [cmd_line]
    is the array [evt->cmd_line] points to, as it is when the event is
    handled.  The result of [cmd_execute] is not used. *)
Definition Cmd_Event_Handler (client_infos : client_table)
    (cmd_buf : list byte) (evt_sig : Signal) (cmd_line : list byte) (st : St)
  : Outcome (list byte * client_table * St) :=
  if evt_sig =? INIT_SIG then Done (cmd_buf, client_infos, st)
  else if evt_sig =? CMD_RX_SIG then
    (* Copy command line to avoid race conditions. *)
    copied ← strncpy cmd_line (Z.to_nat CONSOLE_CMD_BUF_SIZE);
    '(_, buf, client_infos', st') ← cmd_execute client_infos copied st;
    Done (buf, client_infos', st')
  else Done (cmd_buf, client_infos, st).

End Handlers.

End Cmd.

(** ** The commands of reflow.c that post to the reflow active object *)

Module ReflowCmd.
Import Rtos ActiveObj Reflow Cmd.

(** [reflow_start_cmd] and [reflow_stop_cmd]: the event is posted and
    0 returned, whatever [Active_post] returns. *)
Definition reflow_start_cmd (argc : Z) (argv : list (list byte))
    (fw : Firmware) : Outcome (Z * Firmware) :=
  let a := reflow_ao fw in
  Done (0, with_ao fw (set_base a (Active_post (reflow_base a) Ref_start_evt).2)).

Definition reflow_stop_cmd (argc : Z) (argv : list (list byte))
    (fw : Firmware) : Outcome (Z * Firmware) :=
  let a := reflow_ao fw in
  Done (0, with_ao fw (set_base a (Active_post (reflow_base a) Ref_stop_evt).2)).

(** The names in [reflow_cmd_infos] and [reflow_client_info]. *)
Definition str_reflow : list byte := ["r"; "e"; "f"; "l"; "o"; "w"]%byte.
Definition str_status : list byte := ["s"; "t"; "a"; "t"; "u"; "s"]%byte.
Definition str_start : list byte := ["s"; "t"; "a"; "r"; "t"]%byte.
Definition str_stop : list byte := ["s"; "t"; "o"; "p"]%byte.
Definition str_set : list byte := ["s"; "e"; "t"]%byte.

Definition reflow_cmd_infos : list cmd_cmd_info :=
  [ mkCmdInfo str_status Cb_reflow_status_cmd;
    mkCmdInfo str_start Cb_reflow_start_cmd;
    mkCmdInfo str_stop Cb_reflow_stop_cmd;
    mkCmdInfo str_set Cb_reflow_set_cmd ].

Definition reflow_client_info : cmd_client_info :=
  mkClientInfo str_reflow reflow_cmd_infos [].

End ReflowCmd.

(** ** [uart.h], [uart.c]

    The transmit ring buffer and the hand-over of received characters to
    the console.  The registers of the peripheral appear as what the
    code does with them: [txeie] is the TXE interrupt enable bit, [tdr]
    the characters written to the transmit data register, oldest
    first. *)

Module Uart.
Import Rtos Console.

Definition UART_TX_BUF_SIZE : Z := 1024.

(** [UART_pms_t]: the indices into [uart_pms]. *)
Definition CNT_TX_BUF_OVERRUN : nat := 4.
Definition CNT_RX_BUF_OVERRUN : nat := 5.
Definition NUM_U16_PMS : nat := 6.

(** [INC_SAT_U16(a)]: [(a) += ((a) == UINT16_MAX ? 0 : 1)]. *)
Definition INC_SAT_U16 (a : Z) : Z :=
  CInt.u16 (a + (if a =? 65535 then 0 else 1)).

Record UART_t : Set := mkUart {
  uart_reg_base : bool;       (* whether the pointer is not NULL *)
  tx_buf_get_idx : Z;         (* uint16_t *)
  tx_buf_put_idx : Z;         (* uint16_t *)
  tx_buf : list byte          (* char tx_buf[UART_TX_BUF_SIZE] *)
}.

Record World : Type := mkWorld {
  uart : UART_t;
  uart_pms : list Z;          (* uint16_t uart_pms[NUM_U16_PMS] *)
  txeie : bool;
  tdr : list byte;
  console_queue_id : osMessageQueueId_t byte
}.

Definition uart_putc (c : byte) (w : World) : Outcome (mod_err_t * World) :=
  let u := uart w in
  let next_put_idx :=
    CInt.u16 ((tx_buf_put_idx u + 1) mod UART_TX_BUF_SIZE) in
  (* Tx circular buffer is full. *)
  if next_put_idx =? tx_buf_get_idx u then
    n ← access (uart_pms w !! CNT_TX_BUF_OVERRUN);
    Done (MOD_ERR_BUF_OVERRUN,
          mkWorld u (<[CNT_TX_BUF_OVERRUN := INC_SAT_U16 n]> (uart_pms w))
                  (txeie w) (tdr w) (console_queue_id w))
  else
    (* Place char in buffer *)
    buf ← store (tx_buf u) (tx_buf_put_idx u) c;
    let u' := mkUart (uart_reg_base u) (tx_buf_get_idx u) next_put_idx buf in
    (* Ensure TXE interrupt is enabled. *)
    let txeie' :=
      if uart_reg_base u && negb (txeie w) then true else txeie w in
    Done (MOD_OK,
          mkWorld u' (uart_pms w) txeie' (tdr w) (console_queue_id w)).

(** [write_tdr], called by the interrupt service routine when the
    transmit data register is empty. *)
Definition write_tdr (w : World) : Outcome World :=
  let u := uart w in
  if tx_buf_get_idx u =? tx_buf_put_idx u then
    (* Nothing to transmit, disable TXE flag from generating an interrupt. *)
    Done (mkWorld u (uart_pms w) false (tdr w) (console_queue_id w))
  else
    c ← access (Reflow.array_at (tx_buf u) (tx_buf_get_idx u));
    let get' := CInt.u16 ((tx_buf_get_idx u + 1) mod UART_TX_BUF_SIZE) in
    Done (mkWorld (mkUart (uart_reg_base u) get' (tx_buf_put_idx u) (tx_buf u))
                  (uart_pms w) (txeie w) (tdr w ++ [c]) (console_queue_id w)).

(** [console_post] of console.c: a put without waiting. *)
Definition console_post (c : byte) (q : osMessageQueueId_t byte)
  : mod_err_t * osMessageQueueId_t byte :=
  let '(err, q') := osMessageQueuePut q c 0 0 in
  match err with
  | osOK => (MOD_OK, q')
  | _ => (MOD_ERR_TIMEOUT, q')
  end.

(** The character in the low byte of a register value. *)
Definition low_char (reg : Z) : byte :=
  match Byte.of_N (Z.to_N (Z.land reg 255)) with
  | Some b => b
  | None => x00
  end.

(** [read_rdr], called by the interrupt service routine when the
    receive data register holds [rdr]. *)
Definition read_rdr (rdr : Z) (w : World) : Outcome World :=
  let rx_char := low_char rdr in
  let '(err, q) := console_post rx_char (console_queue_id w) in
  match err with
  | MOD_ERR_TIMEOUT =>
      n ← access (uart_pms w !! CNT_RX_BUF_OVERRUN);
      Done (mkWorld (uart w)
                    (<[CNT_RX_BUF_OVERRUN := INC_SAT_U16 n]> (uart_pms w))
                    (txeie w) (tdr w) q)
  | _ => Done (mkWorld (uart w) (uart_pms w) (txeie w) (tdr w) q)
  end.

(** The characters accepted for transmission and not yet written to the
    transmit data register, oldest first. *)
Definition pending (u : UART_t) : list byte :=
  (fun k => default x00
              (tx_buf u !! Z.to_nat ((tx_buf_get_idx u + Z.of_nat k)
                                     mod UART_TX_BUF_SIZE)))
  <$> seq 0 (Z.to_nat ((tx_buf_put_idx u - tx_buf_get_idx u)
                       mod UART_TX_BUF_SIZE)).

(** The indices point into the buffer. *)
Definition ring_ok (u : UART_t) : Prop :=
  length (tx_buf u) = Z.to_nat UART_TX_BUF_SIZE /\
  0 <= tx_buf_get_idx u < UART_TX_BUF_SIZE /\
  0 <= tx_buf_put_idx u < UART_TX_BUF_SIZE.

(** [uart.tx_buf], the indices and the counters after [uart_init]
    ([memset] to 0; [uart_pms] is a zero-initialised static) and
    [uart_start] (TXE interrupt enabled), with the console's queue of
    CONSOLE_MSG_QUEUE_SIZE characters created by [console_start]. *)
Definition uart_started : World :=
  mkWorld (mkUart true 0 0 (replicate (Z.to_nat UART_TX_BUF_SIZE) x00))
          (replicate NUM_U16_PMS 0) true [] (Some (mkQueue 1024%nat [])).

End Uart.

(** ** Exhaustive checks over a range of integers

    [all_from bits lo P] evaluates [P] on the [2 ^ bits] integers from
    [lo] upwards, splitting the range in halves. *)

Fixpoint all_from (bits : nat) (lo : Z) (P : Z -> bool) : bool :=
  match bits with
  | O => P lo
  | S b => all_from b lo P && all_from b (lo + 2 ^ Z.of_nat b) P
  end.

(** The number of postings of [evt] in the log of one tick. *)
Definition postings_of (evt : ActiveObj.EventRef)
    (posted : list ActiveObj.Posting) : nat :=
  length (filter (fun p => p.2 = evt) posted).

(** ** The countdown of a time event, tick by tick *)

Module Countdown.
Import Rtos ActiveObj.

(** What one tick does to a countdown: zero stays, one reloads, anything
    larger is decremented. *)
Definition countdown_step (reload timeout : Z) : Z :=
  if timeout =? 0 then 0
  else if timeout =? 1 then reload
  else timeout - 1.


Definition ticked (t : TimeEvent) : TimeEvent :=
  mkTimeEvent (base t) (ao t) (countdown_step (reload t) (timeout t)) (reload t).

(** Registered time events hold [uint32_t] counters and point to an
    active object of the store. *)
Definition registered_ok (time_events : list TimeEvent) (aos : list Active)
  : Prop :=
  Forall (fun t => 0 <= timeout t < 2 ^ 32 /\ 0 <= reload t < 2 ^ 32 /\
                   (ao t < length aos)%nat) time_events.

(** The store of active objects after [Active_post] of each posting. *)
Definition deliver_one (aos : list Active) (p : Posting) : list Active :=
  match aos !! p.1 with
  | Some owner => <[p.1 := (Active_post owner p.2).2]> aos
  | None => aos
  end.

Definition deliver (aos : list Active) (posted : list Posting) : list Active :=
  foldl deliver_one aos posted.

End Countdown.

(** The part of an outcome selected by [f], when there is one. *)
Definition outcome_of {A B} (f : A -> B) (r : Outcome A) : option B :=
  match r with
  | Done a => Some (f a)
  | _ => None
  end.

(** The leeway test of the control tick: [reach_temp > (uint32_t)temp - 2U
    && reach_temp < (uint32_t)temp + 2U]. *)
Definition in_window (rt : Z) (temp : float) : bool :=
  (rt >? CInt.u32_sub (F32.to_u32 temp) 2)
  && (rt <? CInt.u32_add (F32.to_u32 temp) 2).

(** ** Concrete inputs

    States and sensor replies on which the firmware is evaluated. *)

Module PidInputs.
Import Rtos ActiveObj Pid Max31855k Reflow.

(** A cooling-only configuration: the output ranges over [-10, 0]. *)
Definition cooling_cfg : PID_cfg_t :=
  {| cfg_Kp := F32.of_Z 1; cfg_Ki := F32.of_Z 1; cfg_Kd := F32.zero;
     cfg_tau := F32.of_Z 1; cfg_Ts := F32.of_Z 1;
     cfg_out_max := F32.zero; cfg_out_min := F32.of_Z (-10) |}.

(** After [PID_Init] and one iteration with setpoint 1 and measurement 0
    the output [P + I + D = 1.5] has been limited to [out_lim_max = 0]. *)
Definition cooling_pid : PID_t :=
  (PID_Calculate (PID_Init zeroed_pid cooling_cfg) (F32.of_Z 1) F32.zero).2.

(** A heating configuration with an integral gain. *)
Definition heating_cfg : PID_cfg_t :=
  {| cfg_Kp := F32.of_Z 10; cfg_Ki := F32.of_Z 1; cfg_Kd := F32.zero;
     cfg_tau := F32.of_Z 1; cfg_Ts := F32.half;
     cfg_out_max := F32.of_Z 4095; cfg_out_min := F32.zero |}.

(** Setpoint 1000 against measurement 0 drives the output to 4095. *)
Definition heating_pid : PID_t :=
  (PID_Calculate (PID_Init zeroed_pid heating_cfg) (F32.of_Z 1000) F32.zero).2.

End PidInputs.

Module QueueInputs.
Import Rtos ActiveObj.

(** An active object whose two-slot queue is full, and one with room. *)
Definition full_ao : Active :=
  mkActive (Some (mkQueue 2%nat [Ref_start_evt; Ref_stop_evt])).

Definition roomy_ao : Active :=
  mkActive (Some (mkQueue 2%nat [Ref_start_evt])).

End QueueInputs.

Module ReflowInputs.
Import Rtos ActiveObj Max31855k Reflow.

Definition rx_25_00 : rx_buf_t := mkRx x01 x90 x00 x00.

(** [start_evt] and [stop_evt] of reflow.c. *)
Definition start_evt : Event := mkEvent START_REFLOW_SIG.

(** The firmware after START_REFLOW was handled at 25 degrees: in the
    pre-heat phase, PWM and PID timer started. *)
Definition preheating : Firmware :=
  Eval vm_compute in
  match reflow_evt_handler rx_25_00 firmware_started start_evt with
  | Done (_, fw) => fw
  | _ => firmware_started
  end.

End ReflowInputs.

Module TimerInputs.
Import Rtos ActiveObj.

(** One registered time event, armed for five ticks without reload, and
    a store holding its owner with an empty queue of five slots. *)
Definition one_shot_registry : list TimeEvent :=
  [ (TimeEvent_arm (mkTimeEvent (mkEvent 3) 0%nat 0 0) 5 0
       (mkStatics false None)).1 ].

Definition one_ao_store : list Active :=
  [ mkActive (Some (mkQueue 5%nat [])) ].

End TimerInputs.

(** ** Bit fields and floats, for the statements about the thermocouple *)

(** The value of a [w]-bit two's complement field. *)
Definition signed_field (w : Z) (f : Z) : Z :=
  if f <? 2 ^ (w - 1) then f else f - 2 ^ w.

(** Structural equality of floats. *)
Definition same_float (x y : float) : bool :=
  match x, y with
  | S754_zero s, S754_zero s' => Bool.eqb s s'
  | S754_infinity s, S754_infinity s' => Bool.eqb s s'
  | S754_nan, S754_nan => true
  | S754_finite s m e, S754_finite s' m' e' =>
      Bool.eqb s s' && Pos.eqb m m' && Z.eqb e e'
  | _, _ => false
  end.

(** ** The reflow profile as a transition function *)

Module Profile.
Import Rtos ActiveObj Pid Max31855k Reflow.

(** Whether START_REFLOW is accepted with the sensor reply [rx]: the
    read succeeds and the whole degrees are at most the cool-down
    target. *)
Definition start_allowed (rx : rx_buf_t) (fw : Firmware) : bool :=
  match MAX31855K_RxBlocking rx (max fw) with
  | Done (e, m) =>
      bool_decide (e = MAX_OK) && (F32.to_u32 (MAX31855K_Get_HJ m) <=? 35)
  | _ => false
  end.

(** The state after signal [g] in state [s], read off the rows of
    [Reflow_state_table]. *)
Definition profile_next (s : Reflow_State) (g : Signal) (cold : bool)
  : Reflow_State :=
  match s with
  | RESET_STATE =>
      if (g =? START_REFLOW_SIG) && cold then PREHEAT_STATE else RESET_STATE
  | PREHEAT_STATE =>
      if g =? REACH_TEMP_SIG then SOAK_STATE
      else if g =? STOP_REFLOW_SIG then RESET_STATE else PREHEAT_STATE
  | SOAK_STATE =>
      if g =? REACH_TIME_SIG then RAMPUP_STATE
      else if g =? STOP_REFLOW_SIG then RESET_STATE else SOAK_STATE
  | RAMPUP_STATE =>
      if g =? REACH_TEMP_SIG then PEAK_STATE
      else if g =? STOP_REFLOW_SIG then RESET_STATE else RAMPUP_STATE
  | PEAK_STATE =>
      if g =? REACH_TIME_SIG then COOLDOWN_STATE
      else if g =? STOP_REFLOW_SIG then RESET_STATE else PEAK_STATE
  | COOLDOWN_STATE =>
      if g =? REACH_TEMP_SIG then RESET_STATE
      else if g =? STOP_REFLOW_SIG then RESET_STATE else COOLDOWN_STATE
  end.

(** The heater follows the state: the PWM output is enabled exactly in
    the running states, and in RESET the compare value is 0, the PID
    timer is stopped and the reflow time event is disarmed. *)
Definition heater_follows_state (fw : Firmware) : Prop :=
  let a := reflow_ao fw in
  pwm_started a = negb (bool_decide (state a = RESET_STATE)) /\
  (state a = RESET_STATE ->
   pwm_compare a = 0 /\ timer_running (pid_timer_id a) = false /\
   timeout (reflow_time_evt a) = 0).



End Profile.

(** ** Runs of postings *)

Module PostRuns.
Import Rtos ActiveObj.

(** Events posted one after the other to the same active object: the
    results of the calls and the active object afterwards. *)
Fixpoint post_all (a : Active) (evts : list EventRef)
  : list mod_err_t * Active :=
  match evts with
  | [] => ([], a)
  | evt :: rest =>
      let '(r, a1) := Active_post a evt in
      let '(rs, a2) := post_all a1 rest in
      (r :: rs, a2)
  end.

(** The free slots of a queue. *)
Definition free_slots (q : MessageQueue EventRef) : nat :=
  (msg_count q - length (msgs q))%nat.

(** The events of a tick's postings that went to the owner [i]. *)
Definition posted_to (i : nat) (posted : list Posting) : list EventRef :=
  snd <$> filter (fun p => p.1 = i) posted.

End PostRuns.

(** ** Further concrete inputs *)

Module MoreInputs.
Import Rtos ActiveObj Max31855k Reflow.

(** A time event that expires at the next tick, owned by the active
    object whose queue is full. *)
Definition due_registry : list TimeEvent :=
  [ mkTimeEvent (mkEvent REACH_TIME_SIG) 0%nat 1 0 ].

Definition full_store : list Active := [ QueueInputs.full_ao ].

(** The conversion word for 25 degrees, no fault bits. *)
Definition word_25_00 : Z := 26214400.

End MoreInputs.

(** ** Inputs for the command line *)

Module CmdInputs.
Import Rtos ActiveObj Reflow Console Cmd ReflowCmd.

(** Calls through [cmd_cb_t] in which the two commands that post to the
    reflow active object act, and every other callback returns 0. *)
Definition run_posting (f : cmd_cb_t) (argc : Z) (argv : list (list byte))
    (fw : Firmware) : Outcome (Z * Firmware) :=
  match f with
  | Cb_reflow_start_cmd => reflow_start_cmd argc argv fw
  | Cb_reflow_stop_cmd => reflow_stop_cmd argc argv fw
  | _ => Done (0, fw)
  end.

(** The table after [reflow_init] registered its client first. *)
Definition reflow_table : list (option cmd_client_info) :=
  <[0%nat := Some reflow_client_info]> no_clients.

(** The console buffer after "Reflow START" and Enter. *)
Definition line_reflow_start : list byte :=
  (["R"; "e"; "f"; "l"; "o"; "w"; " "; "S"; "T"; "A"; "R"; "T"]%byte
     ++ replicate 28 x00).

End CmdInputs.

(* ===================================================================== *)
(** * Part II: properties                                                 *)
(* ===================================================================== *)

(** ** Arithmetic of the embedding *)

Lemma all_from_spec (bits : nat) (P : Z -> bool) :
  forall lo, all_from bits lo P = true ->
  forall v, lo <= v < lo + 2 ^ Z.of_nat bits -> P v = true.
Proof.
  induction bits as [|b IH]; intros lo Hall v Hv.
  - simpl in *. assert (v = lo) by lia. now subst.
  - cbn [all_from] in Hall. apply andb_true_iff in Hall as [Hl Hh].
    assert (E : 2 ^ Z.of_nat (S b) = 2 * 2 ^ Z.of_nat b).
    { rewrite Nat2Z.inj_succ, Z.pow_succ_r by lia. reflexivity. }
    destruct (Z_lt_le_dec v (lo + 2 ^ Z.of_nat b)).
    + apply (IH lo Hl). lia.
    + apply (IH _ Hh). lia.
Qed.




(** ** The PID controller *)

Section PidProperties.
Import Pid.

(** C7: [PID_Reset] sets the integral, derivative, previous error,
    previous measurement, proportional and output members to zero and
    leaves [Kp], [Ki], [Kd], [tau], [Ts], [out_lim_max] and [out_lim_min]
    as they were. *)
Theorem PID_Reset_clears_memory (pid : PID_t) :
  let pid' := PID_Reset pid in
  (integral pid' = F32.zero /\ derivative pid' = F32.zero /\
   prev_error pid' = F32.zero /\ prev_measurement pid' = F32.zero /\
   proportional pid' = F32.zero /\ out pid' = F32.zero) /\
  (Kp pid' = Kp pid /\ Ki pid' = Ki pid /\ Kd pid' = Kd pid /\
   tau pid' = tau pid /\ Ts pid' = Ts pid /\
   out_lim_max pid' = out_lim_max pid /\ out_lim_min pid' = out_lim_min pid).
Proof. cbn. repeat split. Qed.

(** An output equal to a positive limit is itself positive. *)
Lemma pinned_positive (x y : float) :
  F32.eqb x y = true -> F32.ltb F32.zero y = true ->
  F32.leb x F32.zero = false.
Proof.
  unfold F32.eqb, F32.ltb, F32.leb, SFeqb, SFltb, SFleb, F32.zero.
  destruct x as [s|s| |s m e], y as [s'|s'| |s' m' e'];
    simpl; try discriminate; auto;
    destruct s, s'; simpl; congruence.
Qed.

Lemma positive_not_le (x : float) :
  F32.ltb F32.zero x = true -> F32.leb x F32.zero = false.
Proof.
  unfold F32.ltb, F32.leb, SFltb, SFleb, F32.zero.
  destruct x as [s|s| |s m e]; simpl; try discriminate; auto;
    destruct s; simpl; congruence.
Qed.

Lemma PID_Calculate_integral (pid : PID_t) (setpoint measurement : float) :
  integral (PID_Calculate pid setpoint measurement).2 =
  if clamp_integral pid (F32.sub setpoint measurement)
  then integral pid
  else F32.add (integral pid) (trapezoid pid (F32.sub setpoint measurement)).
Proof. reflexivity. Qed.

(** C3, as amended: in each [PID_Calculate] iteration, if the previously
    returned output equals [out_lim_max] or [out_lim_min] and the new
    error has the same sign as that output in the sense of [SAMESIGN]
    (both at most 0, or both above 0), the integral term is unchanged;
    in every other case it becomes its previous value plus
    [0.5 * Ki * Ts * (error + prev_error)].  In particular, with the
    output pinned at a positive [out_lim_max] and [error > 0] the
    integral after the iteration equals the integral before it, and an
    iteration whose error is no longer positive accumulates again. *)
Theorem PID_Calculate_anti_windup (pid : PID_t) (setpoint measurement : float) :
  let error := F32.sub setpoint measurement in
  let pid' := (PID_Calculate pid setpoint measurement).2 in
  let accumulated :=
    F32.add (integral pid)
      (F32.mul (F32.mul (F32.mul F32.half (Ki pid)) (Ts pid))
               (F32.add error (prev_error pid))) in
  (F32.eqb (out pid) (out_lim_max pid) || F32.eqb (out pid) (out_lim_min pid)
     = true ->
   SAMESIGN (out pid) error = true ->
   integral pid' = integral pid) /\
  ((F32.eqb (out pid) (out_lim_max pid) || F32.eqb (out pid) (out_lim_min pid))
     && SAMESIGN (out pid) error = false ->
   integral pid' = accumulated) /\
  (F32.eqb (out pid) (out_lim_max pid) = true ->
   F32.ltb F32.zero (out_lim_max pid) = true ->
   F32.ltb F32.zero error = true ->
   integral pid' = integral pid) /\
  (F32.eqb (out pid) (out_lim_max pid) = true ->
   F32.ltb F32.zero (out_lim_max pid) = true ->
   F32.leb error F32.zero = true ->
   integral pid' = accumulated).
Proof.
  intros error pid' accumulated. subst pid'.
  rewrite PID_Calculate_integral. fold error.
  unfold clamp_integral, trapezoid. fold accumulated.
  repeat split.
  - intros -> ->. reflexivity.
  - intros ->. reflexivity.
  - intros Hmax Hpos Herr. rewrite Hmax. cbn [orb andb].
    unfold SAMESIGN.
    rewrite (pinned_positive _ _ Hmax Hpos), (positive_not_le _ Herr).
    reflexivity.
  - intros Hmax Hpos Herr. rewrite Hmax. cbn [orb andb].
    unfold SAMESIGN.
    rewrite (pinned_positive _ _ Hmax Hpos), Herr. reflexivity.
Qed.

(** The amended statement at a saturated heating controller: error 1000
    holds the integral, error -2000 moves it from 250 to 0. *)
Lemma PID_Calculate_anti_windup_witness :
  integral (PID_Calculate PidInputs.heating_pid (F32.of_Z 1000) F32.zero).2
    = integral PidInputs.heating_pid /\
  integral (PID_Calculate PidInputs.heating_pid F32.zero (F32.of_Z 2000)).2
    = F32.zero.
Proof.
  split.
  - apply (PID_Calculate_anti_windup PidInputs.heating_pid (F32.of_Z 1000) F32.zero);
      vm_compute; reflexivity.
  - etransitivity.
    + apply (PID_Calculate_anti_windup PidInputs.heating_pid F32.zero (F32.of_Z 2000));
        vm_compute; reflexivity.
    + vm_compute; reflexivity.
Defined.

(** C3 as stated fails where [out_lim_max] is not positive: the cooling
    controller's output is pinned at [out_lim_max = 0], the error is
    [1 > 0], and the iteration moves the integral from 0.5 to 1.5. *)
Lemma PID_Calculate_winds_up_at_zero_limit :
  F32.eqb (out PidInputs.cooling_pid) (out_lim_max PidInputs.cooling_pid) = true /\
  F32.ltb F32.zero (F32.sub (F32.of_Z 1) F32.zero) = true /\
  integral PidInputs.cooling_pid = F32.half /\
  integral (PID_Calculate PidInputs.cooling_pid (F32.of_Z 1) F32.zero).2
    <> integral PidInputs.cooling_pid.
Proof. vm_compute. repeat split; discriminate. Qed.

End PidProperties.

(** ** The active-object core *)

Section ActiveProperties.
Import Rtos ActiveObj.

Lemma Active_post_eq (a : Active) (evt : EventRef) :
  Active_post a evt =
  match queue_id a with
  | None => (MOD_ERR_TIMEOUT, a)
  | Some q =>
      if queue_full q then (MOD_ERR_TIMEOUT, a)
      else (MOD_OK, mkActive (Some (mkQueue (msg_count q) (msgs q ++ [evt]))))
  end.
Proof.
  destruct a as [[q|]]; unfold Active_post, osMessageQueuePut; cbn;
    [destruct (queue_full q)|]; reflexivity.
Qed.

(** C9: [Active_post] never blocks.  For every active object and event,
    the put is issued with timeout 0 and so never waits; if the enqueue
    fails, as it does for a queue at capacity, [Active_post] returns
    [MOD_ERR_TIMEOUT] and the queue keeps its contents and their order;
    if the enqueue succeeds it returns [MOD_OK], the event having been
    appended behind the queued ones. *)
Theorem Active_post_never_blocks (a : Active) (evt : EventRef) :
  let put := osMessageQueuePut (queue_id a) evt 0 Active_post_timeout in
  osMessageQueuePut_waits (queue_id a) Active_post_timeout = false /\
  (forall q, queue_id a = Some q -> queue_full q = true -> put.1 <> osOK) /\
  (put.1 <> osOK -> Active_post a evt = (MOD_ERR_TIMEOUT, a)) /\
  (put.1 = osOK ->
   (Active_post a evt).1 = MOD_OK /\
   exists q, queue_id a = Some q /\
     queue_id (Active_post a evt).2
       = Some (mkQueue (msg_count q) (msgs q ++ [evt]))).
Proof.
  intros put. subst put. rewrite Active_post_eq.
  unfold osMessageQueuePut_waits, osMessageQueuePut, Active_post_timeout.
  destruct a as [[q|]]; cbn [queue_id].
  - destruct (queue_full q) eqn:Hfull; cbn.
    + repeat split; try congruence; try discriminate.
    + repeat split; try congruence. exists q. split; reflexivity.
  - cbn. repeat split; try congruence.
Qed.

(** Posting to the full queue and to the queue with room. *)
Lemma Active_post_never_blocks_witness :
  Active_post QueueInputs.full_ao Ref_reachtemp_evt
    = (MOD_ERR_TIMEOUT, QueueInputs.full_ao) /\
  (Active_post QueueInputs.roomy_ao Ref_reachtemp_evt).1 = MOD_OK.
Proof.
  split.
  - apply (Active_post_never_blocks QueueInputs.full_ao Ref_reachtemp_evt).
    apply (proj1 (proj2
      (Active_post_never_blocks QueueInputs.full_ao Ref_reachtemp_evt))
      (mkQueue 2%nat [Ref_start_evt; Ref_stop_evt])); reflexivity.
  - apply (Active_post_never_blocks QueueInputs.roomy_ao Ref_reachtemp_evt).
    reflexivity.
Defined.

End ActiveProperties.

(** ** The reflow state machine and its control tick *)

Section ReflowProperties.
Import Rtos ActiveObj Pid Max31855k Reflow ReflowInputs.

(** [readTemperature] in terms of the transaction's result. *)
Lemma readTemperature_eq (rx : rx_buf_t) (fw : Firmware) (temp : float)
    (e : MAX31855K_err_t) (max' : MAX31855K_t) :
  MAX31855K_RxBlocking rx (max fw) = Done (e, max') ->
  readTemperature rx fw temp =
  Done (bool_decide (e = MAX_OK),
        if decide (e = MAX_OK) then MAX31855K_Get_HJ max' else temp,
        mkFirmware (reflow_ao fw) (active_c fw) max').
Proof.
  intros H. unfold readTemperature. rewrite H. cbn.
  destruct (decide (e = MAX_OK)) as [->|Hne].
  - reflexivity.
  - rewrite bool_decide_eq_false_2 by exact Hne. reflexivity.
Qed.




(** The leeway test of the control tick. *)
(** The control tick, written out for a transaction that returned and a
    phase that exists. *)
Lemma reflow_pid_iteration_eq (rx : rx_buf_t) (fw : Firmware)
    (e : MAX31855K_err_t) (max' : MAX31855K_t) (ph : Reflow_Phase) :
  MAX31855K_RxBlocking rx (max fw) = Done (e, max') ->
  phase_of (state (reflow_ao fw)) = Done ph ->
  let ok := bool_decide (e = MAX_OK) in
  let temp := if ok then MAX31855K_Get_HJ max' else F32.zero in
  let a0 := reflow_ao fw in
  let a1 :=
    if ok then a0
    else set_base a0 (Active_post (reflow_base a0) Ref_stop_evt).2 in
  let reached :=
    match phase_type ph with
    | REACHTEMP => in_window (reach_temp ph) temp
    | REACHTIME => false
    end in
  let a2 :=
    match phase_type ph with
    | REACHTEMP =>
        if reached
        then set_base a1 (Active_post (reflow_base a1) Ref_reachtemp_evt).2
        else a1
    | REACHTIME => set_setpoint a1 (F32.add (setpoint a1) (step_size a1))
    end in
  let r := PID_Calculate (pid_params a2) (setpoint a2) temp in
  reflow_pid_iteration rx fw =
  Done ((if ok then [] else [Ref_stop_evt])
          ++ (if reached then [Ref_reachtemp_evt] else []),
        mkFirmware (HAL_TIM_SET_COMPARE (set_pid a2 r.2) (F32.to_u16 r.1))
                   (active_c fw) max').
Proof.
  intros Hrx Hph. cbv zeta.
  unfold reflow_pid_iteration, in_window.
  rewrite (readTemperature_eq _ _ _ _ _ Hrx). cbn [mbind Outcome_bind].
  destruct (decide (e = MAX_OK)) as [->|Hne].
  - rewrite bool_decide_eq_true_2 by reflexivity.
    cbn [negb reflow_ao state set_base]. rewrite Hph. cbn [mbind Outcome_bind].
    destruct (phase_type ph).
    + destruct (_ && _); destruct (PID_Calculate _ _ _); reflexivity.
    + destruct (PID_Calculate _ _ _); reflexivity.
  - rewrite bool_decide_eq_false_2 by exact Hne.
    cbn [negb reflow_ao state set_base]. rewrite Hph. cbn [mbind Outcome_bind].
    destruct (phase_type ph).
    + destruct (_ && _); destruct (PID_Calculate _ _ _); reflexivity.
    + destruct (PID_Calculate _ _ _); reflexivity.
Qed.









(** C8: for every state other than RESET the index [state - 1] used by
    the control tick lies in [0, NUM_PROFILE_PHASES), the length of the
    profile array, so the phase lookup finds a phase and
    [reflow_pid_iteration] never accesses the array out of bounds. *)
Theorem phase_index_in_bounds (s : Reflow_State) :
  s <> RESET_STATE ->
  0 <= phase_index s < NUM_PROFILE_PHASES /\
  Z.of_nat (length reflow_phases) = NUM_PROFILE_PHASES /\
  (exists ph, array_at reflow_phases (phase_index s) = Some ph) /\
  forall rx fw, state (reflow_ao fw) = s -> reflow_pid_iteration rx fw <> Fault.
Proof.
  intros Hs. split; [|split; [|split]].
  - unfold phase_index, NUM_PROFILE_PHASES, NUM_REFLOW_STATES.
    destruct s; try congruence; cbn; lia.
  - reflexivity.
  - destruct s; try congruence; cbn; eauto.
  - intros rx fw Hst.
    assert (exists ph, phase_of (state (reflow_ao fw)) = Done ph) as [ph Hph].
    { rewrite Hst. destruct s; try congruence; cbn; eauto. }
    destruct (MAX31855K_RxBlocking rx (max fw)) as [[e m]| |] eqn:Hrx.
    + rewrite (reflow_pid_iteration_eq _ _ _ _ _ Hrx Hph). discriminate.
    + unfold reflow_pid_iteration, readTemperature. rewrite Hrx. discriminate.
    + exfalso. revert Hrx. unfold MAX31855K_RxBlocking, MAX31855K_error_check.
      cbn. repeat (destruct (_ =? _) ; cbn; try discriminate).
      all: destruct (negb _); cbn; try discriminate.
Qed.


(** The index of the SOAK state. *)
Lemma phase_index_in_bounds_witness :
  0 <= phase_index SOAK_STATE < NUM_PROFILE_PHASES.
Proof. apply (phase_index_in_bounds SOAK_STATE). discriminate. Defined.





Lemma state_val_lt (s : Reflow_State) :
  (state_val s <? NUM_REFLOW_STATES) = true.
Proof. destruct s; reflexivity. Qed.

(** A cell of the table exists only for a signal below NUM_REFLOW_SIGS. *)
Lemma table_at_sig (s : Reflow_State) (g : Signal) (a : ReflowAction) :
  table_at s g = Done a -> (g <? NUM_REFLOW_SIGS) = true.
Proof.
  intros H. apply Z.ltb_lt. unfold table_at in H.
  destruct (array_at Reflow_state_table (state_val s)) as [row|] eqn:Hrow;
    [|discriminate].
  cbn [access mbind Outcome_bind] in H.
  assert (Hlen : length row = 6%nat).
  { destruct s; cbn in Hrow; injection Hrow as <-; reflexivity. }
  unfold array_at in H. destruct (g <? 0) eqn:Hneg; [discriminate|].
  destruct (row !! Z.to_nat g) eqn:Hl; [|discriminate].
  apply lookup_lt_Some in Hl. apply Z.ltb_ge in Hneg.
  unfold NUM_REFLOW_SIGS. lia.
Qed.




End ReflowProperties.

(** ** Time events *)

Section TimeEventProperties.
Import Rtos ActiveObj Countdown TimerInputs.

Lemma deliver_one_length (aos : list Active) (p : Posting) :
  length (deliver_one aos p) = length aos.
Proof.
  unfold deliver_one. destruct (aos !! p.1); [apply length_insert | reflexivity].
Qed.

Lemma registered_ok_length (tes : list TimeEvent) (aos aos' : list Active) :
  length aos' = length aos -> registered_ok tes aos -> registered_ok tes aos'.
Proof.
  intros Hlen. unfold registered_ok. rewrite Hlen. auto.
Qed.

Lemma postings_of_app (evt : EventRef) (p q : list Posting) :
  postings_of evt (p ++ q) = (postings_of evt p + postings_of evt q)%nat.
Proof. unfold postings_of. rewrite filter_app, length_app. reflexivity. Qed.

(** The loop body posts exactly when the countdown is 1. *)
Lemma TimeEvent_tick_body_spec (i : nat) (t : TimeEvent) (aos : list Active) :
  0 <= timeout t < 2 ^ 32 -> (ao t < length aos)%nat ->
  let posted := if timeout t =? 1 then [(ao t, Ref_time_evt_base i)] else [] in
  TimeEvent_tick_body i t aos = Done (ticked t, deliver aos posted, posted).
Proof.
  intros Hto Hao. cbv zeta. unfold TimeEvent_tick_body, ticked, countdown_step.
  destruct (lookup_lt_is_Some_2 aos (ao t) Hao) as [owner Howner].
  destruct (Z.ltb_spec 0 (timeout t)) as [Hpos|Hz].
  - rewrite (proj2 (Z.eqb_neq (timeout t) 0)) by lia.
    unfold CInt.u32. rewrite Z.mod_small by lia.
    destruct (Z.eqb_spec (timeout t) 1) as [H1|Hn1].
    + rewrite (proj2 (Z.eqb_eq (timeout t - 1) 0)) by lia.
      rewrite Howner. cbn [access mbind Outcome_bind].
      unfold deliver, deliver_one. cbn [foldl fst snd]. rewrite Howner.
      destruct (Active_post owner (Ref_time_evt_base i)). reflexivity.
    + rewrite (proj2 (Z.eqb_neq (timeout t - 1) 0)) by lia. reflexivity.
  - assert (timeout t = 0) as E by lia. rewrite E. cbn.
    destruct t; cbn in *; subst; reflexivity.
Qed.

Lemma ref_count_one (a : AoRef) (i k : nat) :
  postings_of (Ref_time_evt_base k) [(a, Ref_time_evt_base i)]
  = if decide (i = k) then 1%nat else 0%nat.
Proof.
  unfold postings_of. destruct (decide (i = k)) as [->|Hne].
  - rewrite filter_cons_True by reflexivity. reflexivity.
  - rewrite filter_cons_False by (cbn; congruence). reflexivity.
Qed.

(** One pass over the registry: every event is ticked, and the event at
    position [j] is posted by the pass exactly when its countdown is 1. *)
Lemma TimeEvent_tick_from_spec (tes : list TimeEvent) :
  forall (i0 : nat) (aos : list Active),
  registered_ok tes aos ->
  exists posted,
    TimeEvent_tick_from i0 tes aos
      = Done ((ticked <$> tes), deliver aos posted, posted) /\
    length (deliver aos posted) = length aos /\
    (forall k, (k < i0)%nat -> postings_of (Ref_time_evt_base k) posted = 0%nat) /\
    (forall j t, tes !! j = Some t ->
       postings_of (Ref_time_evt_base (i0 + j)) posted
         = (if timeout t =? 1 then 1%nat else 0%nat) /\
       (timeout t = 1 -> In (ao t, Ref_time_evt_base (i0 + j)) posted)).
Proof.
  induction tes as [|t rest IH]; intros i0 aos Hok.
  - exists []. cbn. split; [reflexivity|]. split; [reflexivity|].
    split; [reflexivity|]. intros j t Hj. discriminate.
  - apply Forall_cons in Hok as [(Hto & Hre & Hao) Hrest].
    pose proof (TimeEvent_tick_body_spec i0 t aos Hto Hao) as Hbody.
    cbv zeta in Hbody. set (p1 := if timeout t =? 1 then _ else _) in *.
    assert (Hlen1 : length (deliver aos p1) = length aos).
    { subst p1. destruct (timeout t =? 1); [apply deliver_one_length|reflexivity]. }
    destruct (IH (S i0) (deliver aos p1)
                (registered_ok_length _ _ _ Hlen1 Hrest))
      as (p2 & Hrun & Hlen2 & Hlow & Hcount).
    exists (p1 ++ p2). split; [|split; [|split]].
    + cbn [TimeEvent_tick_from]. rewrite Hbody. cbn [mbind Outcome_bind].
      rewrite Hrun. cbn [mbind Outcome_bind].
      unfold deliver. rewrite foldl_app. reflexivity.
    + unfold deliver in *. rewrite foldl_app. lia.
    + intros k Hk. rewrite postings_of_app, (Hlow k) by lia.
      subst p1. destruct (timeout t =? 1); [|reflexivity].
      rewrite ref_count_one. destruct (decide (i0 = k)); [lia|reflexivity].
    + intros [|j] t' Hj.
      * cbn in Hj. injection Hj as <-. rewrite Nat.add_0_r.
        rewrite postings_of_app, (Hlow i0) by lia. subst p1.
        destruct (Z.eqb_spec (timeout t) 1) as [E|E].
        -- rewrite ref_count_one. destruct (decide (i0 = i0)); [|congruence].
           split; [reflexivity|]. intros _. left. reflexivity.
        -- split; [reflexivity|]. intros; contradiction.
      * cbn in Hj. destruct (Hcount j t' Hj) as [Hc Hin].
        replace (i0 + S j)%nat with (S i0 + j)%nat by lia.
        rewrite postings_of_app, Hc. split.
        -- subst p1. destruct (timeout t =? 1); [|reflexivity].
           rewrite ref_count_one. destruct (decide (i0 = (S i0 + j)%nat)); [lia|reflexivity].
        -- intros E. apply in_or_app. right. exact (Hin E).
Qed.












Lemma one_shot_registry_ok : registered_ok one_shot_registry one_ao_store.
Proof.
  repeat constructor; cbn; lia.
Qed.


(** The same run evaluated: the fifth tick posts, no other does. *)
Example one_shot_five_ticks :
  outcome_of (fun r => (timeout <$> r.1.1, r.2))
    (ticks 7 one_shot_registry one_ao_store)
  = Some ([0], [[]; []; []; []; [(0%nat, Ref_time_evt_base 0)]; []; []]).
Proof. vm_compute. reflexivity. Qed.

End TimeEventProperties.

(* ===================================================================== *)
(** * Part III: further properties of the embedded code                   *)
(* ===================================================================== *)

(** ** The PID controller: limits and initialisation *)

Section PidLimits.
Import Pid.

Lemma ltb_irrefl (x : float) : F32.ltb x x = false.
Proof.
  unfold F32.ltb, SFltb. destruct x as [s|s| |s m e]; cbn; try reflexivity.
  - destruct s; reflexivity.
  - rewrite Z.compare_refl.
    assert (PosDef.Pos.compare_cont Eq m m = Eq) as ->
      by apply Pos.compare_cont_refl.
    destruct s; reflexivity.
Qed.

Lemma limit_within (pid : PID_t) (o : float) :
  F32.ltb (out_lim_max pid) (out_lim_min pid) = false ->
  F32.gtb (limit pid o) (out_lim_max pid) = false /\
  F32.ltb (limit pid o) (out_lim_min pid) = false.
Proof.
  intros Hlim. unfold limit.
  destruct (F32.gtb o (out_lim_max pid)) eqn:Hgt.
  - split; [apply ltb_irrefl | exact Hlim].
  - destruct (F32.ltb o (out_lim_min pid)) eqn:Hlt.
    + split; [exact Hlim | apply ltb_irrefl].
    + split; [exact Hgt | exact Hlt].
Qed.

(** X1: when the configured limits are in order (out_lim_max is not
    below out_lim_min), the output returned by [PID_Calculate] never
    compares above out_lim_max nor below out_lim_min, whatever the
    gains, the controller memory, the setpoint and the measurement; the
    returned value is the one stored in [out]; the iteration stores the
    error and the measurement for the next one and leaves the gains, the
    filter constant, the sample time and both limits as they were. *)
Theorem PID_Calculate_within_limits (pid : PID_t)
    (setpoint measurement : float) :
  F32.ltb (out_lim_max pid) (out_lim_min pid) = false ->
  let r := PID_Calculate pid setpoint measurement in
  F32.gtb r.1 (out_lim_max pid) = false /\
  F32.ltb r.1 (out_lim_min pid) = false /\
  out r.2 = r.1 /\
  prev_error r.2 = F32.sub setpoint measurement /\
  prev_measurement r.2 = measurement /\
  (Kp r.2, Ki r.2, Kd r.2, tau r.2, Ts r.2, out_lim_max r.2, out_lim_min r.2)
  = (Kp pid, Ki pid, Kd pid, tau pid, Ts pid, out_lim_max pid, out_lim_min pid).
Proof.
  intros Hlim r. subst r. unfold PID_Calculate.
  cbn [fst snd out out_lim_max out_lim_min prev_error prev_measurement
       Kp Ki Kd tau Ts].
  match goal with |- context [limit pid ?o] =>
    destruct (limit_within pid o Hlim) as [H1 H2] end.
  repeat split; assumption.
Qed.

(** The saturated heating controller, one more iteration: the output
    stays at the upper limit 4095. *)
Lemma PID_Calculate_within_limits_witness :
  F32.gtb (PID_Calculate PidInputs.heating_pid (F32.of_Z 1000) F32.zero).1
          (F32.of_Z 4095) = false.
Proof.
  apply (PID_Calculate_within_limits PidInputs.heating_pid
           (F32.of_Z 1000) F32.zero).
  vm_compute. reflexivity.
Defined.

(** X2: [PID_Init] writes every member of the controller: its result
    depends on the configuration only, not on what the structure held
    before; the memory it leaves is the one [PID_Reset] leaves, so a
    reset right after the initialisation changes nothing. *)
Theorem PID_Init_overwrites (p q : PID_t) (cfg : PID_cfg_t) :
  PID_Init p cfg = PID_Init q cfg /\
  PID_Reset (PID_Init p cfg) = PID_Init p cfg /\
  (integral (PID_Init p cfg), derivative (PID_Init p cfg),
   prev_error (PID_Init p cfg), prev_measurement (PID_Init p cfg),
   proportional (PID_Init p cfg), out (PID_Init p cfg))
  = (F32.zero, F32.zero, F32.zero, F32.zero, F32.zero, F32.zero).
Proof. repeat split. Qed.

End PidLimits.
(** ** The reflow state machine: the profile, the heater, the signals *)

Section ReflowProfile.
Import Rtos ActiveObj Pid Max31855k Reflow ReflowInputs Countdown Profile.

(** The handler's run, split at the action called through the table. *)
Lemma handler_decompose (rx : rx_buf_t) (fw : Firmware) (evt : Event)
    (calls : list Call) (fw' : Firmware) :
  reflow_evt_handler rx fw evt = Done (calls, fw') ->
  0 <= sig evt < NUM_REFLOW_SIGS /\
  exists act stat fw1,
    table_at (state (reflow_ao fw)) (sig evt) = Done act /\
    act rx fw (Some evt) = Done (stat, fw1) /\
    ((stat = HANDLED_STATUS \/ stat = IGNORE_STATUS) /\ fw' = fw1 \/
     (stat = TRAN_STATUS \/ stat = INIT_STATUS) /\
     exists entry r,
       table_at (state (reflow_ao fw1)) ENTRY_SIG = Done entry /\
       entry rx fw1 None = Done (r, fw')).
Proof.
  unfold reflow_evt_handler. rewrite state_val_lt. cbn [andb].
  destruct (sig evt <? NUM_REFLOW_SIGS) eqn:Hlt; [|discriminate].
  cbn [ASSERT mbind Outcome_bind].
  destruct (table_at (state (reflow_ao fw)) (sig evt)) as [act| |] eqn:Htab;
    try discriminate.
  cbn [mbind Outcome_bind].
  destruct (act rx fw (Some evt)) as [[stat fw1]| |] eqn:Hact; try discriminate.
  cbn [mbind Outcome_bind]. intros H. split.
  { apply Z.ltb_lt in Hlt. split; [|exact Hlt].
    unfold table_at in Htab.
    destruct (array_at Reflow_state_table _) as [row|]; [|discriminate].
    cbn in Htab. unfold array_at in Htab.
    destruct (sig evt <? 0) eqn:Hneg; [discriminate|]. apply Z.ltb_ge in Hneg. exact Hneg. }
  exists act, stat, fw1. split; [reflexivity|]. split; [exact Hact|].
  destruct stat.
  - right. split; [now left|]. rewrite state_val_lt in H.
    cbn [ASSERT mbind Outcome_bind] in H.
    destruct (table_at (state (reflow_ao fw1)) ENTRY_SIG) as [entry| |];
      try discriminate. cbn [mbind Outcome_bind] in H.
    destruct (entry rx fw1 None) as [[r fw2]| |] eqn:He; try discriminate.
    cbn [mbind Outcome_bind] in H. injection H as _ <-. eauto.
  - left. split; [now left|]. now injection H.
  - left. split; [now right|]. now injection H.
  - right. split; [now right|].
    destruct (table_at (state (reflow_ao fw1)) ENTRY_SIG) as [entry| |];
      try discriminate. cbn [mbind Outcome_bind] in H.
    destruct (entry rx fw1 None) as [[r fw2]| |] eqn:He; try discriminate.
    cbn [mbind Outcome_bind] in H. injection H as _ <-. eauto.
Qed.


Ltac table_cell H :=
  cbv -[Reflow_reset_INIT Reflow_reset_ENTRY Reflow_reset_START Reflow_ignore
        Reflow_preheat_ENTRY Reflow_preheat_REACHTEMP Reflow_STOP
        Reflow_soak_ENTRY Reflow_soak_REACHTIME Reflow_rampup_ENTRY
        Reflow_rampup_REACHTEMP Reflow_peak_ENTRY Reflow_peak_REACHTIME
        Reflow_cooldown_ENTRY Reflow_cooldown_REACHTEMP] in H.

Lemma sig_cases (g : Z) :
  0 <= g < NUM_REFLOW_SIGS ->
  g = INIT_SIG \/ g = ENTRY_SIG \/ g = START_REFLOW_SIG \/
  g = REACH_TIME_SIG \/ g = REACH_TEMP_SIG \/ g = STOP_REFLOW_SIG.
Proof.
  unfold NUM_REFLOW_SIGS, INIT_SIG, ENTRY_SIG, START_REFLOW_SIG, USER_SIG,
    REACH_TIME_SIG, REACH_TEMP_SIG, STOP_REFLOW_SIG. lia.
Qed.

(** What each entry action does to the members the heater depends on. *)
Lemma entry_effect (s : Reflow_State) (entry : ReflowAction) (rx : rx_buf_t)
    (fw fw' : Firmware) (evt : option Event) (r : Reflow_Status) :
  table_at s ENTRY_SIG = Done entry ->
  entry rx fw evt = Done (r, fw') ->
  r = HANDLED_STATUS /\
  state (reflow_ao fw') = state (reflow_ao fw) /\
  match s with
  | RESET_STATE =>
      pwm_started (reflow_ao fw') = false /\
      pwm_compare (reflow_ao fw') = 0 /\
      timer_running (pid_timer_id (reflow_ao fw')) = false /\
      timeout (reflow_time_evt (reflow_ao fw')) = 0
  | PREHEAT_STATE => pwm_started (reflow_ao fw') = true
  | _ => pwm_started (reflow_ao fw') = pwm_started (reflow_ao fw)
  end.
Proof.
  intros Htab He.
  destruct s; table_cell Htab; injection Htab as <-.
  - unfold Reflow_reset_ENTRY in He. injection He as <- <-. cbn.
    repeat split. destruct (pid_timer_id (reflow_ao fw)) as [[|?]|]; reflexivity.
  - unfold Reflow_preheat_ENTRY in He.
    change (phase_of PREHEAT_STATE) with (Done (mkPhase REACHTEMP 100 0)) in He.
    cbn [mbind Outcome_bind] in He. injection He as <- <-. repeat split.
  - unfold Reflow_soak_ENTRY in He.
    change (phase_of SOAK_STATE) with (Done (mkPhase REACHTIME 150 120)) in He.
    change (phase_of PREHEAT_STATE) with (Done (mkPhase REACHTEMP 100 0)) in He.
    cbn [mbind Outcome_bind] in He.
    destruct (TimeEvent_arm _ _ _ _) in He. injection He as <- <-.
    repeat split.
  - unfold Reflow_rampup_ENTRY in He.
    change (phase_of RAMPUP_STATE) with (Done (mkPhase REACHTEMP 215 0)) in He.
    cbn [mbind Outcome_bind] in He. injection He as <- <-. repeat split.
  - unfold Reflow_peak_ENTRY in He.
    change (phase_of PEAK_STATE) with (Done (mkPhase REACHTIME 215 5)) in He.
    cbn [mbind Outcome_bind] in He.
    destruct (TimeEvent_arm _ _ _ _) in He. injection He as <- <-.
    repeat split.
  - unfold Reflow_cooldown_ENTRY in He.
    change (phase_of COOLDOWN_STATE) with (Done (mkPhase REACHTEMP 35 0)) in He.
    cbn [mbind Outcome_bind] in He. injection He as <- <-. repeat split.
Qed.


Ltac effect_done :=
  repeat split; try congruence;
  try match goal with
      | H : _ = _ \/ _ = _ |- _ => destruct H; discriminate
      end.

Lemma Reflow_reset_START_eq (rx : rx_buf_t) (fw : Firmware) (evt : option Event)
    (e : MAX31855K_err_t) (m : MAX31855K_t) :
  MAX31855K_RxBlocking rx (max fw) = Done (e, m) ->
  let fw0 := mkFirmware (reflow_ao fw) (active_c fw) m in
  Reflow_reset_START rx fw evt =
  Done (if bool_decide (e = MAX_OK) && (F32.to_u32 (MAX31855K_Get_HJ m) <=? 35)
        then (TRAN_STATUS, with_ao fw0 (set_state (reflow_ao fw) PREHEAT_STATE))
        else (HANDLED_STATUS, fw0)).
Proof.
  intros Hrx fw0. unfold Reflow_reset_START.
  rewrite (readTemperature_eq _ _ _ _ _ Hrx). cbn [mbind Outcome_bind].
  change (phase_of COOLDOWN_STATE) with (Done (mkPhase REACHTEMP 35 0)).
  cbn [mbind Outcome_bind reach_temp].
  destruct (decide (e = MAX_OK)) as [->|Hne].
  - rewrite bool_decide_eq_true_2 by reflexivity. cbn [negb andb].
    rewrite Z.gtb_ltb, Z.ltb_antisym. destruct (_ <=? 35); reflexivity.
  - rewrite bool_decide_eq_false_2 by exact Hne. reflexivity.
Qed.

Lemma set_state_same (a : Reflow_Active) : set_state a (state a) = a.
Proof. destruct a; reflexivity. Qed.

(** What the action of a cell outside the ENTRY column does. *)
Lemma action_effect (g : Signal) (act : ReflowAction) (rx : rx_buf_t)
    (fw fw1 : Firmware) (evt : option Event) (stat : Reflow_Status) :
  g <> ENTRY_SIG ->
  table_at (state (reflow_ao fw)) g = Done act ->
  act rx fw evt = Done (stat, fw1) ->
  state (reflow_ao fw1)
    = profile_next (state (reflow_ao fw)) g (start_allowed rx fw) /\
  pwm_started (reflow_ao fw1) = pwm_started (reflow_ao fw) /\
  (stat = TRAN_STATUS -> state (reflow_ao fw1) <> state (reflow_ao fw)) /\
  (stat = INIT_STATUS -> g = INIT_SIG) /\
  (stat = HANDLED_STATUS \/ stat = IGNORE_STATUS ->
   reflow_ao fw1 = reflow_ao fw /\ active_c fw1 = active_c fw).
Proof.
  intros Hg Htab Hact.
  assert (Hrange : 0 <= g < NUM_REFLOW_SIGS).
  { split.
    - unfold table_at in Htab.
      destruct (array_at Reflow_state_table _) as [row|]; [|discriminate].
      cbn in Htab. unfold array_at in Htab.
      destruct (g <? 0) eqn:Hneg; [discriminate|]. now apply Z.ltb_ge in Hneg.
    - apply Z.ltb_lt. exact (table_at_sig _ _ _ Htab). }
  destruct (state (reflow_ao fw)) eqn:Hs;
    destruct (sig_cases g Hrange) as [-> | [-> | [-> | [-> | [-> | ->]]]]];
    try congruence;
    table_cell Htab; injection Htab as <-;
    try (unfold Reflow_ignore in Hact; injection Hact as <- <-;
         rewrite Hs; effect_done);
    try (unfold Reflow_preheat_REACHTEMP, Reflow_soak_REACHTIME,
           Reflow_rampup_REACHTEMP, Reflow_peak_REACHTIME,
           Reflow_cooldown_REACHTEMP, Reflow_STOP in Hact;
         injection Hact as <- <-; cbn; rewrite ?Hs;
         effect_done).
  (* RESET, START remains *)
  unfold start_allowed.
  destruct (MAX31855K_RxBlocking rx (max fw)) as [[e m]| |] eqn:Hrx.
  - rewrite (Reflow_reset_START_eq _ _ _ _ _ Hrx) in Hact. cbv zeta in Hact.
    destruct (bool_decide (e = MAX_OK) && (_ <=? 35));
      injection Hact as <- <-; cbn; rewrite ?Hs; effect_done.
  - unfold Reflow_reset_START, readTemperature in Hact. rewrite Hrx in Hact.
    discriminate.
  - unfold Reflow_reset_START, readTemperature in Hact. rewrite Hrx in Hact.
    discriminate.
Qed.





Lemma profile_next_from_running (s : Reflow_State) (g : Signal) (cold : bool) :
  profile_next s g cold <> RESET_STATE ->
  profile_next s g cold <> PREHEAT_STATE ->
  s <> RESET_STATE.
Proof.
  destruct s; try discriminate. cbn. destruct (_ && _); congruence.
Qed.


(** The handler keeps [heater_follows_state], and the INIT signal in the
    RESET state establishes it. *)
Lemma handler_keeps_heater (rx : rx_buf_t) (fw : Firmware)
    (evt : Event) (calls : list Call) (fw' : Firmware) :
  reflow_evt_handler rx fw evt = Done (calls, fw') ->
  (heater_follows_state fw \/
   (sig evt = INIT_SIG /\ state (reflow_ao fw) = RESET_STATE)) ->
  heater_follows_state fw'.
Proof.
  intros H Hinv.
  destruct (handler_decompose _ _ _ _ _ H)
    as (Hrange & act & stat & fw1 & Htab & Hact & Hrest).
  assert (Hestablish : forall s entry fwa fwb r e,
            table_at s ENTRY_SIG = Done entry ->
            entry rx fwa e = Done (r, fwb) ->
            state (reflow_ao fwa) = s ->
            (s <> RESET_STATE -> s <> PREHEAT_STATE ->
             pwm_started (reflow_ao fwa) = true) ->
            heater_follows_state fwb).
  { intros s entry fwa fwb r e Ht Hr Hs Hpwm.
    destruct (entry_effect _ _ _ _ _ _ _ Ht Hr) as (_ & Hst & Heff).
    unfold heater_follows_state. cbv zeta. rewrite Hst, Hs.
    destruct s; cbn [bool_decide negb];
      try (rewrite bool_decide_eq_true_2 by reflexivity);
      try (rewrite bool_decide_eq_false_2 by discriminate); cbn [negb].
    - destruct Heff as (? & ? & ? & ?). auto.
    - split; [exact Heff | discriminate].
    - split; [rewrite Heff; apply Hpwm; discriminate | discriminate].
    - split; [rewrite Heff; apply Hpwm; discriminate | discriminate].
    - split; [rewrite Heff; apply Hpwm; discriminate | discriminate].
    - split; [rewrite Heff; apply Hpwm; discriminate | discriminate]. }
  assert (Hrun : forall fwa, heater_follows_state fwa ->
            state (reflow_ao fwa) <> RESET_STATE ->
            pwm_started (reflow_ao fwa) = true).
  { intros fwa [Hp _] Hs. rewrite Hp.
    rewrite bool_decide_eq_false_2 by exact Hs. reflexivity. }
  destruct (Z.eq_dec (sig evt) ENTRY_SIG) as [He|Hne].
  - rewrite He in *.
    destruct Hinv as [Hinv|[Hi _]]; [|discriminate].
    destruct (entry_effect _ _ _ _ _ _ _ Htab Hact) as (-> & _).
    destruct Hrest as [[_ ->]|[[?|?] _]]; try discriminate.
    apply (Hestablish _ _ _ _ _ _ Htab Hact eq_refl).
    intros Hs _. apply (Hrun _ Hinv Hs).
  - destruct (action_effect _ _ _ _ _ _ _ Hne Htab Hact)
      as (Hnext & Hpwm & Htran & Hinit & Hsame).
    destruct Hrest as [[Hstat ->]|[Hstat (entry & r & Htab1 & Hrun1)]].
    + destruct Hinv as [Hinv|[Hi Hs]].
      * destruct (Hsame Hstat) as [Hao _].
        unfold heater_follows_state in *. rewrite Hao. exact Hinv.
      * exfalso. rewrite Hi, Hs in Htab. table_cell Htab.
        injection Htab as <-. unfold Reflow_reset_INIT in Hact.
        injection Hact as <- _. destruct Hstat; discriminate.
    + apply (Hestablish _ _ _ _ _ _ Htab1 Hrun1 eq_refl).
      intros Hs1 Hs2. rewrite Hpwm. rewrite Hnext in Hs1, Hs2.
      pose proof (profile_next_from_running _ _ _ Hs1 Hs2) as Hs.
      destruct Hinv as [Hinv|[_ Hr]]; [|contradiction].
      apply (Hrun _ Hinv Hs).
Qed.









(** In the RESET state the control tick has no phase to look up. *)
Lemma reflow_pid_iteration_needs_phase (rx : rx_buf_t) (fw : Firmware)
    (posted : list EventRef) (fw' : Firmware) :
  reflow_pid_iteration rx fw = Done (posted, fw') ->
  exists e m ph,
    MAX31855K_RxBlocking rx (max fw) = Done (e, m) /\
    phase_of (state (reflow_ao fw)) = Done ph.
Proof.
  intros H.
  destruct (MAX31855K_RxBlocking rx (max fw)) as [[e m]| |] eqn:Hrx.
  - destruct (phase_of (state (reflow_ao fw))) as [ph| |] eqn:Hph; eauto.
    + exfalso. destruct (state (reflow_ao fw)); discriminate.
    + exfalso. unfold reflow_pid_iteration in H.
      rewrite (readTemperature_eq _ _ _ _ _ Hrx) in H.
      cbn [mbind Outcome_bind] in H.
      destruct (bool_decide (e = MAX_OK));
        cbn [negb reflow_ao state set_base] in H;
        rewrite Hph in H; discriminate.
  - unfold reflow_pid_iteration, readTemperature in H. rewrite Hrx in H.
    discriminate.
  - unfold reflow_pid_iteration, readTemperature in H. rewrite Hrx in H.
    discriminate.
Qed.


(** A control tick that returns ran in a running state, and leaves the
    state and the PWM output enable as they were. *)
Lemma tick_keeps_state (rx : rx_buf_t) (fw : Firmware)
    (posted : list EventRef) (fw' : Firmware) :
  reflow_pid_iteration rx fw = Done (posted, fw') ->
  state (reflow_ao fw) <> RESET_STATE /\
  state (reflow_ao fw') = state (reflow_ao fw) /\
  pwm_started (reflow_ao fw') = pwm_started (reflow_ao fw).
Proof.
  intros H.
  destruct (reflow_pid_iteration_needs_phase _ _ _ _ H)
    as (e & m & ph & Hrx & Hph).
  pose proof (reflow_pid_iteration_eq _ _ _ _ _ Hrx Hph) as Heq.
  cbv zeta in Heq. rewrite H in Heq. injection Heq as _ ->.
  split; [intros E; rewrite E in Hph; discriminate|].
  destruct (bool_decide (e = MAX_OK)); destruct (phase_type ph);
    try destruct (in_window _ _); split; reflexivity.
Qed.

(** X4: the heater follows the state.  [heater_follows_state] holds of
    the firmware as [reflow_init] and [reflow_start] leave it; every run
    of the event handler that returns keeps it (and the INIT signal in
    the RESET state establishes it from any contents); every control
    tick that returns keeps it.  So the PWM output is enabled exactly
    outside RESET, and in RESET the compare value is 0, the PID timer is
    stopped and the time event is disarmed. *)
Theorem heater_follows_state_invariant :
  heater_follows_state firmware_started /\
  (forall rx fw evt calls fw',
     reflow_evt_handler rx fw evt = Done (calls, fw') ->
     heater_follows_state fw \/
       (sig evt = INIT_SIG /\ state (reflow_ao fw) = RESET_STATE) ->
     heater_follows_state fw') /\
  (forall rx fw posted fw',
     reflow_pid_iteration rx fw = Done (posted, fw') ->
     heater_follows_state fw -> heater_follows_state fw').
Proof.
  split; [|split].
  - unfold heater_follows_state. cbn. repeat split.
  - intros rx fw evt calls fw' H Hinv.
    exact (handler_keeps_heater rx fw evt calls fw' H Hinv).
  - intros rx fw posted fw' H [Hp _].
    destruct (tick_keeps_state _ _ _ _ H) as (Hs & Hst & Hpwm).
    unfold heater_follows_state. cbv zeta. rewrite Hst, Hpwm.
    split; [exact Hp|]. intros E. contradiction.
Qed.

(** The invariant carried from start-up into the pre-heat phase. *)
Lemma heater_follows_state_invariant_witness :
  heater_follows_state preheating.
Proof.
  apply (proj1 (proj2 heater_follows_state_invariant) rx_25_00
           firmware_started start_evt
           [(RESET_STATE, START_REFLOW_SIG); (PREHEAT_STATE, ENTRY_SIG)]
           preheating).
  - vm_compute. reflexivity.
  - left. exact (proj1 heater_follows_state_invariant).
Defined.














End ReflowProfile.
(** ** Posting: bounded queues, ticks that post, registration *)

Section ActivePosting.
Import Rtos ActiveObj Countdown PostRuns MoreInputs.

Lemma queue_full_iff (q : MessageQueue EventRef) :
  queue_full q = true <-> free_slots q = 0%nat.
Proof.
  unfold queue_full, free_slots.
  destruct (Nat.ltb_spec (length (msgs q)) (msg_count q)); cbn; split; intros; lia || discriminate.
Qed.

Lemma post_all_spec (evts : list EventRef) :
  forall q : MessageQueue EventRef,
  post_all (mkActive (Some q)) evts =
  (replicate (Nat.min (free_slots q) (length evts)) MOD_OK
     ++ replicate (length evts - free_slots q) MOD_ERR_TIMEOUT,
   mkActive (Some (mkQueue (msg_count q)
                     (msgs q ++ take (free_slots q) evts)))).
Proof.
  induction evts as [|evt rest IH]; intros q.
  - cbn. rewrite Nat.min_0_r, take_nil, !app_nil_r. destruct q; reflexivity.
  - cbn [post_all]. rewrite Active_post_eq. cbn [queue_id].
    destruct (queue_full q) eqn:Hfull.
    + apply queue_full_iff in Hfull. rewrite IH, Hfull. cbn.
      rewrite !take_0, Nat.sub_0_r. reflexivity.
    + assert (Hfree : (0 < free_slots q)%nat).
      { destruct (Nat.eq_dec (free_slots q) 0%nat) as [E|E]; [|lia].
        apply queue_full_iff in E. congruence. }
      rewrite IH. unfold free_slots in *. cbn [msg_count msgs length].
      rewrite length_app. cbn [length].
      destruct (msg_count q - length (msgs q))%nat as [|n] eqn:En; [lia|].
      replace (msg_count q - (length (msgs q) + 1))%nat with n by lia.
      cbn [take Nat.min replicate Nat.sub app]. rewrite <- app_assoc.
      reflexivity.
Qed.

Lemma post_all_null (evts : list EventRef) :
  post_all (mkActive None) evts
  = (replicate (length evts) MOD_ERR_TIMEOUT, mkActive None).
Proof.
  induction evts as [|evt rest IH]; [reflexivity|].
  cbn [post_all]. rewrite Active_post_eq. cbn [queue_id]. rewrite IH.
  reflexivity.
Qed.

(** X9: posting is a bounded FIFO.  Of a run of events posted one after
    the other to an active object, the first [free_slots] ones return
    MOD_OK and are appended to its queue in posting order, one slot
    each; every later one returns MOD_ERR_TIMEOUT and leaves no trace;
    the capacity and the messages already queued are untouched.  Posted
    to an active object whose queue was never created, every event
    returns MOD_ERR_TIMEOUT. *)
Theorem Active_post_bounded_fifo (a : Active) (evts : list EventRef) :
  match queue_id a with
  | Some q =>
      post_all a evts =
      (replicate (Nat.min (free_slots q) (length evts)) MOD_OK
         ++ replicate (length evts - free_slots q) MOD_ERR_TIMEOUT,
       mkActive (Some (mkQueue (msg_count q)
                         (msgs q ++ take (free_slots q) evts))))
  | None =>
      post_all a evts = (replicate (length evts) MOD_ERR_TIMEOUT, a)
  end.
Proof.
  destruct a as [[q|]]; cbn [queue_id].
  - apply post_all_spec.
  - apply post_all_null.
Qed.

Lemma posted_to_cons (i : nat) (p : Posting) (rest : list Posting) :
  posted_to i (p :: rest)
  = if decide (p.1 = i) then p.2 :: posted_to i rest else posted_to i rest.
Proof.
  unfold posted_to. destruct (decide (p.1 = i)) as [E|E].
  - rewrite filter_cons_True by exact E. reflexivity.
  - rewrite filter_cons_False by exact E. reflexivity.
Qed.

Lemma deliver_lookup (posted : list Posting) :
  forall (aos : list Active) (i : nat) (a : Active),
  aos !! i = Some a ->
  deliver aos posted !! i = Some (post_all a (posted_to i posted)).2.
Proof.
  induction posted as [|p rest IH]; intros aos i a Hi.
  - exact Hi.
  - unfold deliver. cbn [foldl]. fold (deliver (deliver_one aos p) rest).
    rewrite posted_to_cons. unfold deliver_one.
    destruct (decide (p.1 = i)) as [E|E].
    + rewrite E, Hi. cbn [post_all].
      destruct (Active_post a p.2) as [r a1] eqn:Hpost. cbn [snd].
      rewrite (IH _ i a1).
      * destruct (post_all a1 (posted_to i rest)). reflexivity.
      * apply list_lookup_insert_eq. exact (lookup_lt_Some _ _ _ Hi).
    + destruct (aos !! p.1) as [owner|] eqn:Ho.
      * apply IH. rewrite list_lookup_insert_ne by exact E. exact Hi.
      * apply IH. exact Hi.
Qed.

(** X10: what a tick of [TimeEvent_tick] does to the queues.  The tick
    returns; the store keeps its size; the queue of every active object
    afterwards is its queue before followed by the events the tick
    posted to that owner, in registry order, as far as free slots were
    left: the tick never removes or reorders messages and never blocks
    on a full queue. *)
Theorem TimeEvent_tick_queues (time_events : list TimeEvent)
    (aos : list Active) :
  registered_ok time_events aos ->
  exists tes' aos' posted,
    TimeEvent_tick time_events aos = Done (tes', aos', posted) /\
    length aos' = length aos /\
    forall i a, aos !! i = Some a ->
      aos' !! i = Some (post_all a (posted_to i posted)).2 /\
      forall q, queue_id a = Some q ->
        aos' !! i
        = Some (mkActive (Some (mkQueue (msg_count q)
                   (msgs q ++ take (free_slots q) (posted_to i posted))))).
Proof.
  intros Hok.
  destruct (TimeEvent_tick_from_spec time_events 0%nat aos Hok)
    as (posted & Hrun & Hlen & _).
  eexists _, _, posted. split; [exact Hrun|]. split; [exact Hlen|].
  intros i a Hi. pose proof (deliver_lookup posted aos i a Hi) as Hl.
  split; [exact Hl|]. intros q Hq. rewrite Hl.
  destruct a as [qa]. cbn in Hq. subst qa. rewrite post_all_spec. reflexivity.
Qed.

(** A tick over the one-shot registry: the owner's queue is still empty
    after the first of its five ticks. *)
Lemma TimeEvent_tick_queues_witness :
  exists tes' aos' posted,
    TimeEvent_tick TimerInputs.one_shot_registry TimerInputs.one_ao_store
      = Done (tes', aos', posted) /\
    aos' !! 0%nat = Some (post_all (mkActive (Some (mkQueue 5%nat [])))
                            (posted_to 0 posted)).2.
Proof.
  destruct (TimeEvent_tick_queues TimerInputs.one_shot_registry
              TimerInputs.one_ao_store one_shot_registry_ok)
    as (tes' & aos' & posted & Hrun & _ & Hq).
  exists tes', aos', posted. split; [exact Hrun|].
  exact (proj1 (Hq 0%nat (mkActive (Some (mkQueue 5%nat []))) eq_refl)).
Defined.

(** X11: an expiry is lost when the owner's queue is full.  If a time
    event expires in a tick (its countdown is 1) while its owner's queue
    is full, the tick still calls [Active_post] for it, the owner's
    queue is unchanged, and the countdown is set to the reload value all
    the same: the return value of [Active_post] is ignored, so a
    one-shot event is disarmed without having been delivered. *)
Theorem TimeEvent_expiry_lost_when_queue_full (time_events : list TimeEvent)
    (aos : list Active) (i : nat) (t : TimeEvent) (q : MessageQueue EventRef) :
  registered_ok time_events aos ->
  time_events !! i = Some t ->
  timeout t = 1 ->
  aos !! ao t = Some (mkActive (Some q)) ->
  queue_full q = true ->
  exists tes' aos' posted,
    TimeEvent_tick time_events aos = Done (tes', aos', posted) /\
    In (ao t, Ref_time_evt_base i) posted /\
    aos' !! ao t = Some (mkActive (Some q)) /\
    tes' !! i = Some (mkTimeEvent (base t) (ao t) (reload t) (reload t)).
Proof.
  intros Hok Hi Ht Ho Hfull.
  destruct (TimeEvent_tick_from_spec time_events 0%nat aos Hok)
    as (posted & Hrun & Hlen & _ & Hcount).
  eexists _, _, posted. split; [exact Hrun|]. split; [|split].
  - exact (proj2 (Hcount i t Hi) Ht).
  - rewrite (deliver_lookup posted aos _ _ Ho), post_all_spec.
    apply queue_full_iff in Hfull. rewrite Hfull, take_0, app_nil_r.
    destruct q; reflexivity.
  - rewrite list_lookup_fmap, Hi. cbn. unfold ticked, countdown_step.
    rewrite Ht. reflexivity.
Qed.

Lemma due_registry_ok : registered_ok due_registry full_store.
Proof. repeat constructor; cbn; lia. Qed.

(** REACH_TIME expiring against a full queue of two. *)
Lemma TimeEvent_expiry_lost_when_queue_full_witness :
  exists tes' aos' posted,
    TimeEvent_tick due_registry full_store = Done (tes', aos', posted) /\
    In (0%nat, Ref_time_evt_base 0) posted /\
    aos' !! 0%nat = Some QueueInputs.full_ao /\
    tes' !! 0%nat = Some (mkTimeEvent (mkEvent 3) 0%nat 0 0).
Proof.
  exact (TimeEvent_expiry_lost_when_queue_full due_registry full_store 0%nat
           (mkTimeEvent (mkEvent 3) 0%nat 1 0)
           (mkQueue 2%nat [Ref_start_evt; Ref_stop_evt])
           due_registry_ok eq_refl eq_refl eq_refl eq_refl).
Defined.

(** X12: [TimeEvent_ctor] registers at most ten time events.  With
    fewer than ten registered, the new event is appended disarmed
    (timeout and reload 0) with the given signal and owner, the earlier
    registrations keep their index, and a registry that was well formed
    stays so; with ten registered, the constructor stops at its
    assertion and registers nothing. *)
Theorem TimeEvent_ctor_registers (time_events : list TimeEvent)
    (g : Signal) (owner : nat) :
  ((length time_events < MAX_TIME_EVENTS)%nat ->
   TimeEvent_ctor time_events g owner
     = Done (time_events ++ [mkTimeEvent (mkEvent g) owner 0 0]) /\
   (forall i t, time_events !! i = Some t ->
      (time_events ++ [mkTimeEvent (mkEvent g) owner 0 0]) !! i = Some t) /\
   (time_events ++ [mkTimeEvent (mkEvent g) owner 0 0]) !! length time_events
     = Some (mkTimeEvent (mkEvent g) owner 0 0) /\
   forall aos, registered_ok time_events aos -> (owner < length aos)%nat ->
     registered_ok (time_events ++ [mkTimeEvent (mkEvent g) owner 0 0]) aos) /\
  ((MAX_TIME_EVENTS <= length time_events)%nat ->
   TimeEvent_ctor time_events g owner = AssertFailed).
Proof.
  split.
  - intros Hlt. split; [|split; [|split]].
    + unfold TimeEvent_ctor.
      rewrite (proj2 (Nat.ltb_lt _ _) Hlt). reflexivity.
    + intros i t Hi. apply lookup_app_l_Some. exact Hi.
    + rewrite lookup_app_r by lia. rewrite Nat.sub_diag. reflexivity.
    + intros aos Hok Ho. unfold registered_ok in *. apply Forall_app.
      split; [exact Hok|]. repeat constructor; cbn; lia.
  - intros Hge. unfold TimeEvent_ctor.
    rewrite (proj2 (Nat.ltb_ge _ _) Hge). reflexivity.
Qed.


End ActivePosting.
(** ** The thermocouple driver: fault classification and decoding *)

Section MaxDecoding.
Import Max31855k MoreInputs.

Lemma land_bit (x n : Z) :
  0 <= n -> (Z.land x (Z.shiftl 1 n) =? 0) = negb (Z.testbit x n).
Proof.
  intros Hn. rewrite Z.shiftl_1_l.
  assert (E : Z.land x (2 ^ n) = if Z.testbit x n then 2 ^ n else 0).
  { apply Z.bits_inj'. intros k Hk. rewrite Z.land_spec, Z.pow2_bits_eqb by lia.
    destruct (Z.eqb_spec n k) as [->|Hne].
    - destruct (Z.testbit x k); [rewrite Z.pow2_bits_true by lia; reflexivity|].
      rewrite Z.bits_0. reflexivity.
    - rewrite andb_false_r. destruct (Z.testbit x n).
      + rewrite Z.pow2_bits_false by lia. reflexivity.
      + rewrite Z.bits_0. reflexivity. }
  rewrite E. destruct (Z.testbit x n); [|reflexivity].
  apply Z.eqb_neq. pose proof (Z.pow_pos_nonneg 2 n ltac:(lia) Hn). lia.
Qed.

Lemma HJ_count_field (data : Z) :
  HJ_count data =
  let f := Z.shiftr data 18 in
  if Z.testbit f 13 then CInt.i16 (Z.lor 49152 (Z.land f 16383)) else CInt.i16 f.
Proof.
  unfold HJ_count. rewrite land_bit by lia. rewrite negb_involutive.
  cbv zeta. rewrite Z.shiftr_spec by lia. reflexivity.
Qed.

Lemma HJ_field_values (f : Z) :
  0 <= f < 2 ^ 14 ->
  (if Z.testbit f 13 then CInt.i16 (Z.lor 49152 (Z.land f 16383)) else CInt.i16 f)
  = signed_field 14 f.
Proof.
  intros Hf.
  assert (H : all_from 14 0
    (fun f => (if Z.testbit f 13
               then CInt.i16 (Z.lor 49152 (Z.land f 16383)) else CInt.i16 f)
              =? signed_field 14 f) = true) by (vm_compute; reflexivity).
  apply Z.eqb_eq. apply (all_from_spec _ _ _ H). cbn. lia.
Qed.

(** X14: the hot-junction count is the two's complement reading of
    D[31:18].  For every 32-bit conversion word the count computed by
    [MAX31855K_Get_HJ] is the signed value of the 14-bit field
    [data / 2^18]; it lies in [-8192, 8192); and every count of that
    range is decoded from the word that carries it in D[31:18],
    whatever the 18 bits below hold. *)
Theorem HJ_count_decodes (data : Z) :
  0 <= data < 2 ^ 32 ->
  HJ_count data = signed_field 14 (data / 2 ^ 18) /\
  -8192 <= HJ_count data < 8192 /\
  (forall v low, -8192 <= v < 8192 -> 0 <= low < 2 ^ 18 ->
     HJ_count ((v mod 2 ^ 14) * 2 ^ 18 + low) = v).
Proof.
  assert (Hdec : forall d, 0 <= d < 2 ^ 32 ->
            HJ_count d = signed_field 14 (d / 2 ^ 18)).
  { intros d Hd. rewrite HJ_count_field. cbv zeta.
    rewrite Z.shiftr_div_pow2 by lia. apply HJ_field_values.
    split; [apply Z.div_pos; lia|].
    apply Z.div_lt_upper_bound; lia. }
  intros Hd. split; [exact (Hdec data Hd)|]. split.
  - rewrite (Hdec data Hd). unfold signed_field.
    assert (0 <= data / 2 ^ 18 < 2 ^ 14).
    { split; [apply Z.div_pos; lia|]. apply Z.div_lt_upper_bound; lia. }
    destruct (Z.ltb_spec (data / 2 ^ 18) (2 ^ (14 - 1))); lia.
  - intros v low Hv Hlow.
    pose proof (Z.mod_pos_bound v (2 ^ 14) ltac:(lia)) as Hm.
    rewrite Hdec by nia.
    replace ((v mod 2 ^ 14 * 2 ^ 18 + low) / 2 ^ 18) with (v mod 2 ^ 14).
    2:{ rewrite Z.div_add_l by lia. rewrite (Z.div_small low) by lia. lia. }
    unfold signed_field.
    destruct (Z_lt_le_dec v 0).
    + assert (E : v mod 2 ^ 14 = v + 2 ^ 14).
      { symmetry. apply (Z.mod_unique _ _ (-1)); lia. }
      rewrite E. destruct (Z.ltb_spec (v + 2 ^ 14) (2 ^ (14 - 1))); lia.
    + rewrite Z.mod_small by lia.
      destruct (Z.ltb_spec v (2 ^ (14 - 1))); lia.
Qed.

(** The word for 25 degrees: count 100. *)
Lemma HJ_count_decodes_witness : HJ_count word_25_00 = 100.
Proof.
  etransitivity.
  - apply (HJ_count_decodes word_25_00). unfold word_25_00. lia.
  - reflexivity.
Defined.

Lemma lor_shiftl_add (hi lo n : Z) :
  0 <= n -> 0 <= lo < 2 ^ n -> Z.lor (Z.shiftl hi n) lo = hi * 2 ^ n + lo.
Proof.
  intros Hn Hlo.
  assert (E : Z.land (Z.shiftl hi n) lo = 0).
  { apply Z.bits_inj'. intros k Hk. rewrite Z.land_spec, Z.bits_0.
    destruct (Z_lt_le_dec k n).
    - rewrite Z.shiftl_spec_low by lia. reflexivity.
    - rewrite <- (Z.mod_small lo (2 ^ n)) by lia.
      rewrite Z.mod_pow2_bits_high by lia. apply andb_false_r. }
  pose proof (Z.add_lor_land (Z.shiftl hi n) lo) as H. rewrite E in H.
  rewrite Z.shiftl_mul_pow2 in H by lia. rewrite Z.shiftl_mul_pow2 by lia. lia.
Qed.

Lemma byte_val_range (b : byte) : 0 <= byte_val b < 256.
Proof. unfold byte_val. pose proof (Byte.to_N_bounded b). lia. Qed.

Lemma assemble_big_endian (rx : rx_buf_t) :
  assemble rx = byte_val (rx0 rx) * 2 ^ 24 + byte_val (rx1 rx) * 2 ^ 16
                + byte_val (rx2 rx) * 2 ^ 8 + byte_val (rx3 rx).
Proof.
  unfold assemble.
  pose proof (byte_val_range (rx0 rx)). pose proof (byte_val_range (rx1 rx)).
  pose proof (byte_val_range (rx2 rx)). pose proof (byte_val_range (rx3 rx)).
  rewrite (lor_shiftl_add (byte_val (rx0 rx)) (Z.shiftl (byte_val (rx1 rx)) 16) 24).
  2: lia.
  2:{ rewrite Z.shiftl_mul_pow2 by lia. lia. }
  rewrite (Z.shiftl_mul_pow2 (byte_val (rx1 rx))) by lia.
  rewrite (Z.shiftl_mul_pow2 (byte_val (rx2 rx))) by lia.
  set (a := byte_val (rx0 rx) * 2 ^ 24 + byte_val (rx1 rx) * 2 ^ 16).
  assert (Ha : a = Z.shiftl (byte_val (rx0 rx) * 2 ^ 8 + byte_val (rx1 rx)) 16).
  { subst a. rewrite Z.shiftl_mul_pow2 by lia. lia. }
  rewrite Ha. rewrite lor_shiftl_add by lia.
  set (b := (byte_val (rx0 rx) * 2 ^ 8 + byte_val (rx1 rx)) * 2 ^ 16
            + byte_val (rx2 rx) * 2 ^ 8).
  assert (Hb : b = Z.shiftl (byte_val (rx0 rx) * 2 ^ 16 + byte_val (rx1 rx) * 2 ^ 8
                             + byte_val (rx2 rx)) 8).
  { subst b. rewrite Z.shiftl_mul_pow2 by lia. lia. }
  rewrite Hb. rewrite lor_shiftl_add by lia.
  unfold CInt.u32. rewrite Z.mod_small by lia. lia.
Qed.

Lemma error_check_cases (m : MAX31855K_t) :
  let d := data32 m in
  MAX31855K_error_check m =
  if d =? 0 then Done (mkMax d MAX_ZEROS)
  else if Z.testbit d 16 then
    if d mod 8 =? 4 then Done (mkMax d MAX_SHORT_VCC)
    else if d mod 8 =? 2 then Done (mkMax d MAX_SHORT_GND)
    else if d mod 8 =? 1 then Done (mkMax d MAX_OPEN)
    else AssertFailed
  else Done (mkMax d MAX_OK).
Proof.
  cbv zeta. unfold MAX31855K_error_check.
  rewrite land_bit by lia. rewrite negb_involutive.
  change 7 with (Z.ones 3). rewrite Z.land_ones by lia.
  change (2 ^ 3) with 8.
  destruct (data32 m =? 0); [reflexivity|].
  destruct (Z.testbit (data32 m) 16); [|reflexivity].
  destruct (data32 m mod 8 =? 4); [reflexivity|].
  destruct (data32 m mod 8 =? 2); [reflexivity|].
  destruct (data32 m mod 8 =? 1); reflexivity.
Qed.

(** X17: what a blocking read makes of the four bytes received.  The
    word stored is the big-endian value of the bytes.  The result is
    MAX_ZEROS exactly for the all-zero word; MAX_OK exactly for a
    nonzero word with the fault bit D16 clear; with D16 set,
    MAX_SHORT_VCC, MAX_SHORT_GND or MAX_OPEN exactly when D[2:0] is 4, 2
    or 1, and the driver stops at its assertion for any other D[2:0]
    (no bit or several bits set).  The read never reports
    MAX_SPI_DMA_FAIL, and the error returned is the one stored. *)
Theorem MAX31855K_RxBlocking_classifies (rx : rx_buf_t) (mx : MAX31855K_t) :
  let d := byte_val (rx0 rx) * 2 ^ 24 + byte_val (rx1 rx) * 2 ^ 16
           + byte_val (rx2 rx) * 2 ^ 8 + byte_val (rx3 rx) in
  match MAX31855K_RxBlocking rx mx with
  | Done (e, mx') =>
      mx' = mkMax d e /\
      (e = MAX_ZEROS <-> d = 0) /\
      (e = MAX_OK <-> d <> 0 /\ Z.testbit d 16 = false) /\
      (e = MAX_SHORT_VCC <-> Z.testbit d 16 = true /\ d mod 8 = 4) /\
      (e = MAX_SHORT_GND <-> Z.testbit d 16 = true /\ d mod 8 = 2) /\
      (e = MAX_OPEN <-> Z.testbit d 16 = true /\ d mod 8 = 1) /\
      e <> MAX_SPI_DMA_FAIL
  | AssertFailed =>
      Z.testbit d 16 = true /\ d mod 8 <> 4 /\ d mod 8 <> 2 /\ d mod 8 <> 1
  | Fault => False
  end.
Proof.
  cbv zeta. rewrite <- assemble_big_endian.
  unfold MAX31855K_RxBlocking. rewrite error_check_cases. cbv zeta.
  cbn [data32]. set (d := assemble rx).
  destruct (Z.eqb_spec d 0) as [E0|N0].
  { cbn. rewrite E0. repeat split; try discriminate; try reflexivity;
      try (intros [? ?]; try contradiction; discriminate). }
  destruct (Z.testbit d 16) eqn:Hb.
  2:{ cbn. repeat split; try discriminate; try reflexivity; try assumption;
        try (intros [? ?]; discriminate); try contradiction. }
  destruct (Z.eqb_spec (d mod 8) 4) as [E4|N4].
  { cbn. rewrite E4. repeat split; try discriminate; try reflexivity;
      try contradiction; try (intros [? ?]; discriminate). }
  destruct (Z.eqb_spec (d mod 8) 2) as [E2|N2].
  { cbn. rewrite E2. repeat split; try discriminate; try reflexivity;
      try contradiction; try (intros [? ?]; discriminate). }
  destruct (Z.eqb_spec (d mod 8) 1) as [E1|N1].
  { cbn. rewrite E1. repeat split; try discriminate; try reflexivity;
      try contradiction; try (intros [? ?]; discriminate). }
  cbn. repeat split; assumption.
Qed.

Lemma same_float_eq (x y : float) : same_float x y = true -> x = y.
Proof.
  destruct x, y; cbn; try discriminate; try reflexivity.
  - intros H. apply Bool.eqb_prop in H. congruence.
  - intros H. apply Bool.eqb_prop in H. congruence.
  - rewrite !andb_true_iff. intros [[H1 H2] H3].
    apply Bool.eqb_prop in H1. apply Pos.eqb_eq in H2. apply Z.eqb_eq in H3.
    congruence.
Qed.




Lemma CJ_count_field (data : Z) :
  CJ_count data =
  let g := (data / 2 ^ 4) mod 2 ^ 12 in
  if Z.testbit g 11 then CInt.i16 (Z.lor 61440 g) else CInt.i16 g.
Proof.
  unfold CJ_count. rewrite land_bit by lia. rewrite negb_involutive.
  cbv zeta. change 4095 with (Z.ones 12). rewrite Z.land_ones by lia.
  rewrite Z.shiftr_div_pow2 by lia.
  rewrite Z.mod_pow2_bits_low by lia.
  rewrite <- (Z.shiftr_div_pow2 data 4) by lia.
  rewrite Z.shiftr_spec by lia. reflexivity.
Qed.

Lemma CJ_field_values (g : Z) :
  0 <= g < 2 ^ 12 ->
  (if Z.testbit g 11 then CInt.i16 (Z.lor 61440 g) else CInt.i16 g)
  = signed_field 12 g.
Proof.
  intros Hg.
  assert (H : all_from 12 0
    (fun g => (if Z.testbit g 11 then CInt.i16 (Z.lor 61440 g) else CInt.i16 g)
              =? signed_field 12 g) = true) by (vm_compute; reflexivity).
  apply Z.eqb_eq. apply (all_from_spec _ _ _ H). cbn. lia.
Qed.

Lemma CJ_of_count_exact (v : Z) :
  -2048 <= v < 2048 ->
  CJ_of_count v = binary_normalize F32.prec F32.emax v (-4) false /\
  F32.mul (CJ_of_count v) (F32.of_Z 16) = F32.of_Z v.
Proof.
  intros Hv.
  assert (H : all_from 12 (-2048)
    (fun v => same_float (CJ_of_count v)
                (binary_normalize F32.prec F32.emax v (-4) false)
              && same_float (F32.mul (CJ_of_count v) (F32.of_Z 16)) (F32.of_Z v))
    = true) by (vm_compute; reflexivity).
  pose proof (all_from_spec _ _ _ H v ltac:(cbn; lia)) as Hc. cbv beta in Hc.
  apply andb_true_iff in Hc. destruct Hc as [H1 H2].
  split; apply same_float_eq; assumption.
Qed.

(** X16: [MAX31855K_Get_CJ] decodes D[15:4].  For every word the
    cold-junction count is the signed value of the 12-bit field
    [(data / 2^4) mod 2^12], it lies in [-2048, 2048), and the
    temperature returned is the float that represents count / 16 with
    no rounding (sixteen times the result is the count). *)
Theorem MAX31855K_Get_CJ_exact (m : MAX31855K_t) :
  let v := signed_field 12 ((data32 m / 2 ^ 4) mod 2 ^ 12) in
  CJ_count (data32 m) = v /\ -2048 <= v < 2048 /\
  MAX31855K_Get_CJ m = binary_normalize F32.prec F32.emax v (-4) false /\
  F32.mul (MAX31855K_Get_CJ m) (F32.of_Z 16) = F32.of_Z v.
Proof.
  intros v. unfold MAX31855K_Get_CJ.
  pose proof (Z.mod_pos_bound (data32 m / 2 ^ 4) (2 ^ 12) ltac:(lia)) as Hg.
  assert (E : CJ_count (data32 m) = v).
  { rewrite CJ_count_field. cbv zeta. apply CJ_field_values. exact Hg. }
  rewrite E.
  assert (Hv : -2048 <= v < 2048).
  { subst v. unfold signed_field.
    destruct (Z.ltb_spec ((data32 m / 2 ^ 4) mod 2 ^ 12) (2 ^ (12 - 1))); lia. }
  destruct (CJ_of_count_exact v Hv) as [H1 H2]. auto.
Qed.
End MaxDecoding.
(** ** The console: the line being typed *)

Section ConsoleLine.
Import Rtos ActiveObj Console.

Lemma store_in (A : Type) (a : list A) (i : nat) (v : A) :
  (i < length a)%nat -> store a (Z.of_nat i) v = Done (<[i := v]> a).
Proof.
  intros Hi. unfold store.
  rewrite (proj2 (Z.leb_le 0 (Z.of_nat i))) by lia.
  rewrite (proj2 (Z.ltb_lt (Z.of_nat i) (Z.of_nat (length a)))) by lia.
  cbn [andb]. rewrite Nat2Z.id. reflexivity.
Qed.

Lemma c_string_printable (line rest : list byte) :
  Forall (fun c => isprint c = true) line ->
  c_string (line ++ x00 :: rest) = line.
Proof.
  induction 1 as [|c line Hc _ IH]; [reflexivity|].
  cbn [app c_string]. unfold isprint in Hc.
  apply andb_true_iff in Hc. destruct Hc as [Hlo _]. apply Z.leb_le in Hlo.
  rewrite (proj2 (Z.eqb_neq (char_val c) 0)) by lia. rewrite IH. reflexivity.
Qed.

Lemma take_insert_end (A : Type) (a : list A) (n : nat) (v : A) :
  (n < length a)%nat -> take (S n) (<[n := v]> a) = take n a ++ [v].
Proof.
  revert a. induction n as [|n IH]; intros [|x a] Hn; cbn in *; try lia.
  - reflexivity.
  - rewrite IH by lia. reflexivity.
Qed.

Lemma insert_split (A : Type) (a : list A) (n : nat) (v : A) :
  (n < length a)%nat -> <[n := v]> a = take n a ++ v :: drop (S n) a.
Proof.
  revert a. induction n as [|n IH]; intros [|x a] Hn; cbn in *; try lia.
  - reflexivity.
  - rewrite IH by lia. reflexivity.
Qed.

Lemma removelast_app_one (A : Type) (l : list A) (x : A) :
  removelast (l ++ [x]) = l.
Proof. rewrite removelast_app by discriminate. cbn. apply app_nil_r. Qed.

Lemma removelast_take (A : Type) (l : list A) :
  removelast l = take (length l - 1) l.
Proof.
  induction l as [|x l IH]; [reflexivity|].
  destruct l as [|y l]; [reflexivity|].
  change (removelast (x :: y :: l)) with (x :: removelast (y :: l)).
  rewrite IH. cbn [length Nat.sub]. rewrite ?Nat.sub_0_r. reflexivity.
Qed.

Lemma length_removelast (A : Type) (l : list A) :
  length (removelast l) = (length l - 1)%nat.
Proof.
  induction l as [|x l IH]; [reflexivity|].
  destruct l as [|y l]; [reflexivity|].
  change (removelast (x :: y :: l)) with (x :: removelast (y :: l)).
  cbn [length] in *. lia.
Qed.

Lemma Forall_removelast (A : Type) (P : A -> Prop) (l : list A) :
  Forall P l -> Forall P (removelast l).
Proof.
  induction 1 as [|x l Hx Hl IH]; [constructor|].
  destruct l as [|y l]; [constructor|].
  change (removelast (x :: y :: l)) with (x :: removelast (y :: l)).
  constructor; assumption.
Qed.

(** One key that is not Enter. *)
Lemma console_process_key (c : byte) (w : World) (line : list byte) :
  holds w line ->
  char_val c <> 10 -> char_val c <> 13 ->
  exists w',
    console_process c w = Done (MOD_OK, w') /\
    holds w' (type_key line c) /\
    cmd_base w' = cmd_base w /\
    _log_active w' = (if char_val c =? 9 then negb (_log_active w)
                      else _log_active w).
Proof.
  intros (Hlen & Hnum & Hle & Htake & Hpr) H10 H13.
  unfold console_process, type_key.
  rewrite (proj2 (Z.eqb_neq _ _) H10), (proj2 (Z.eqb_neq _ _) H13).
  cbn [orb].
  destruct ((char_val c =? 8) || (char_val c =? 127)) eqn:Hbs.
  - assert (H9 : (char_val c =? 9) = false).
    { apply orb_true_iff in Hbs. apply Z.eqb_neq.
      destruct Hbs as [E|E]; apply Z.eqb_eq in E; lia. }
    rewrite H9.
    destruct (num_cmd_buf_chars (console w) >? 0) eqn:Hpos.
    + eexists. split; [reflexivity|]. cbn [console cmd_base _log_active
        cmd_buf num_cmd_buf_chars].
      split; [|split; reflexivity].
      apply Z.gtb_lt in Hpos.
      unfold holds. cbn [console cmd_buf num_cmd_buf_chars].
      rewrite length_removelast. split; [exact Hlen|].
      split.
      { unfold CInt.u16. rewrite Z.mod_small by lia. lia. }
      split; [lia|]. split.
      { rewrite removelast_take. rewrite <- Htake at 3.
        rewrite take_take. f_equal. lia. }
      apply Forall_removelast. exact Hpr.
    + exists w. split; [reflexivity|]. split; [|split; reflexivity].
      rewrite Z.gtb_ltb in Hpos. apply Z.ltb_ge in Hpos.
      assert (line = []) as -> by (destruct line; [reflexivity | cbn in Hnum; lia]).
      cbn. unfold holds. cbn [length]. auto.
  - destruct (Z.eqb_spec (char_val c) 9) as [E9|N9].
    + assert (Hnp : isprint c = false).
      { unfold isprint. rewrite E9. reflexivity. }
      rewrite Hnp. cbn [andb].
      eexists. split; [reflexivity|]. cbn [log_toggle snd console cmd_base _log_active].
      split; [|split; [reflexivity|]].
      * unfold holds. cbn [console]. auto.
      * destruct (_log_active w); reflexivity.
    + destruct (isprint c) eqn:Hp; cbn [andb].
      * destruct (num_cmd_buf_chars (console w) <? CONSOLE_CMD_BUF_SIZE - 1) eqn:Hroom.
        -- apply Z.ltb_lt in Hroom. unfold CONSOLE_CMD_BUF_SIZE in Hroom.
           rewrite (proj2 (Nat.ltb_lt (length line) 39)) by lia.
           rewrite Hnum, store_in by lia. cbn [mbind Outcome_bind].
           eexists. split; [reflexivity|].
           cbn [console cmd_base _log_active cmd_buf num_cmd_buf_chars].
           split; [|split; reflexivity].
           unfold holds. cbn [console cmd_buf num_cmd_buf_chars].
           rewrite length_insert, length_app. cbn [length].
           split; [exact Hlen|]. split.
           { unfold CInt.u16. rewrite Z.mod_small by lia. lia. }
           split; [lia|]. split.
           { replace (length line + 1)%nat with (S (length line)) by lia.
             rewrite take_insert_end by lia. rewrite Htake. reflexivity. }
           apply Forall_app. split; [exact Hpr|]. constructor; [exact Hp|constructor].
        -- apply Z.ltb_ge in Hroom. unfold CONSOLE_CMD_BUF_SIZE in Hroom.
           rewrite (proj2 (Nat.ltb_ge (length line) 39)) by lia.
           exists w. split; [reflexivity|]. split; [|split; reflexivity].
           unfold holds. auto.
      * exists w. split; [reflexivity|]. split; [|split; reflexivity].
        unfold holds. auto.
Qed.

(** Enter. *)
Lemma console_process_enter (c : byte) (w : World) (line : list byte) :
  holds w line ->
  char_val c = 10 \/ char_val c = 13 ->
  exists w',
    console_process c w = Done (MOD_OK, w') /\
    c_string (cmd_buf (console w')) = line /\
    holds w' [] /\
    cmd_base w' = (Active_post (cmd_base w) Ref_cmd_evt).2 /\
    _log_active w' = _log_active w.
Proof.
  intros (Hlen & Hnum & Hle & Htake & Hpr) Hc.
  unfold console_process.
  assert (Hent : (char_val c =? 10) || (char_val c =? 13) = true).
  { apply orb_true_iff. destruct Hc as [E|E]; [left|right]; apply Z.eqb_eq; exact E. }
  rewrite Hent. rewrite Hnum, store_in by lia. cbn [mbind Outcome_bind].
  eexists. split; [reflexivity|].
  cbn [post_cmd_event console cmd_base _log_active cmd_buf num_cmd_buf_chars].
  split; [|split; [|split; reflexivity]].
  - rewrite insert_split by lia. rewrite Htake.
    apply c_string_printable. exact Hpr.
  - unfold holds. cbn [console cmd_buf num_cmd_buf_chars length take].
    rewrite length_insert. repeat split; try assumption; try lia. constructor.
Qed.


Lemma holds_init (log : bool) (a : Active) :
  holds (mkWorld console_init log a) [].
Proof.
  unfold holds. cbn. repeat split; try reflexivity; try lia. constructor.
Qed.

(** X18: the console keeps a line.  Starting from [console_init] the
    buffer keeps its forty characters and [num_cmd_buf_chars] stays at
    most 39, so every store of [console_process] is inside [cmd_buf],
    and every call returns MOD_OK.  A key other than Enter edits the
    line held at the start of the buffer as [type_key] says (printable
    characters appended up to 39, backspace and DEL removing the last
    one), posts nothing, and only the tab key changes [_log_active],
    inverting it.  Enter (LF or CR) terminates the line, so that the C
    string [cmd_evt.cmd_line] points to is the line typed, posts
    [cmd_evt] once to the command active object, and starts an empty
    line. *)
Theorem console_process_edits_line (c : byte) (w : World)
    (line : list byte) :
  holds w line ->
  exists w',
    console_process c w = Done (MOD_OK, w') /\
    if (char_val c =? 10) || (char_val c =? 13)
    then c_string (cmd_buf (console w')) = line /\
         holds w' [] /\
         cmd_base w' = (Active_post (cmd_base w) Ref_cmd_evt).2 /\
         _log_active w' = _log_active w
    else holds w' (type_key line c) /\
         cmd_base w' = cmd_base w /\
         _log_active w' = (if char_val c =? 9 then negb (_log_active w)
                           else _log_active w).
Proof.
  intros Hh.
  destruct ((char_val c =? 10) || (char_val c =? 13)) eqn:Hent.
  - apply console_process_enter; [exact Hh|].
    apply orb_true_iff in Hent.
    destruct Hent as [E|E]; [left|right]; apply Z.eqb_eq; exact E.
  - apply orb_false_iff in Hent. destruct Hent as [E1 E2].
    apply console_process_key; [exact Hh | |]; apply Z.eqb_neq; assumption.
Qed.

(** The letter r typed into the initialised console. *)
Lemma console_process_edits_line_witness :
  exists w',
    console_process "r" (mkWorld console_init true QueueInputs.roomy_ao)
      = Done (MOD_OK, w') /\
    holds w' ["r"%byte].
Proof.
  destruct (console_process_edits_line "r"
              (mkWorld console_init true QueueInputs.roomy_ao) []
              (holds_init true QueueInputs.roomy_ao))
    as (w' & Hrun & Hh & _).
  exists w'. split; [exact Hrun | exact Hh].
Defined.

Lemma type_key_printable (line : list byte) (c : byte) :
  isprint c = true -> (length line < 39)%nat -> type_key line c = line ++ [c].
Proof.
  intros Hp Hlen. unfold type_key.
  assert (Hv : 32 <= char_val c <= 126).
  { unfold isprint in Hp. apply andb_true_iff in Hp.
    destruct Hp as [H1 H2]. apply Z.leb_le in H1, H2. lia. }
  rewrite (proj2 (Z.eqb_neq _ 8)), (proj2 (Z.eqb_neq _ 127)) by lia.
  cbn [orb]. rewrite Hp, (proj2 (Nat.ltb_lt _ _) Hlen). reflexivity.
Qed.

Lemma type_keys_printable (cs : list byte) :
  forall line,
  Forall (fun c => isprint c = true) cs ->
  (length line + length cs <= 39)%nat ->
  foldl type_key line cs = line ++ cs.
Proof.
  induction cs as [|c cs IH]; intros line Hp Hlen.
  - cbn. rewrite app_nil_r. reflexivity.
  - cbn [foldl]. inversion Hp as [|? ? Hc Hcs]; subst.
    cbn [length] in Hlen.
    rewrite type_key_printable by (assumption || lia).
    rewrite IH; [|assumption|rewrite length_app; cbn; lia].
    rewrite <- app_assoc. reflexivity.
Qed.

Lemma console_process_all_keys (keys : list byte) :
  forall (w : World) (line : list byte),
  holds w line ->
  Forall (fun c => char_val c <> 10 /\ char_val c <> 13) keys ->
  exists w',
    console_process_all keys w = Done w' /\
    holds w' (foldl type_key line keys) /\
    cmd_base w' = cmd_base w.
Proof.
  induction keys as [|c keys IH]; intros w line Hh Hk.
  - exists w. split; [reflexivity|]. split; [exact Hh | reflexivity].
  - inversion Hk as [|? ? [H10 H13] Hrest]; subst.
    destruct (console_process_key c w line Hh H10 H13)
      as (w1 & Hrun & Hh1 & Hb1 & _).
    destruct (IH w1 (type_key line c) Hh1 Hrest) as (w' & Hall & Hh' & Hb').
    exists w'. split; [|split].
    + cbn [console_process_all]. rewrite Hrun. cbn [mbind Outcome_bind].
      exact Hall.
    + exact Hh'.
    + congruence.
Qed.

Lemma console_process_all_app (xs ys : list byte) :
  forall w w1,
  console_process_all xs w = Done w1 ->
  console_process_all (xs ++ ys) w = console_process_all ys w1.
Proof.
  induction xs as [|x xs IH]; intros w w1 H.
  - cbn in H. injection H as <-. reflexivity.
  - cbn [app console_process_all] in *.
    destruct (console_process x w) as [[r w2]| |]; try discriminate.
    cbn [mbind Outcome_bind] in *. apply IH. exact H.
Qed.

(** X19: a typed line reaches the command active object.  From a
    console that holds an empty line, any keys without Enter followed
    by Enter are all processed; the C string left in [cmd_buf] is the
    line those keys edit by [type_key]; exactly one [cmd_evt] has been
    posted, by the Enter key, and the console is ready for the next
    line.  In particular up to 39 printable characters arrive unchanged,
    and of a longer run of printable characters the first 39 do. *)
Theorem console_line_round_trip (keys : list byte) (enter : byte)
    (w : World) :
  holds w [] ->
  Forall (fun c => char_val c <> 10 /\ char_val c <> 13) keys ->
  char_val enter = 10 \/ char_val enter = 13 ->
  exists w',
    console_process_all (keys ++ [enter]) w = Done w' /\
    c_string (cmd_buf (console w')) = foldl type_key [] keys /\
    cmd_base w' = (Active_post (cmd_base w) Ref_cmd_evt).2 /\
    holds w' [] /\
    (Forall (fun c => isprint c = true) keys ->
     foldl type_key [] keys = take 39 keys).
Proof.
  intros Hh Hk He.
  destruct (console_process_all_keys keys w [] Hh Hk) as (w1 & Hall & Hh1 & Hb1).
  destruct (console_process_enter enter w1 _ Hh1 He)
    as (w' & Hrun & Hstr & Hh' & Hb' & _).
  exists w'. split; [|split; [|split; [|split]]].
  - rewrite (console_process_all_app _ _ _ _ Hall).
    cbn [console_process_all]. rewrite Hrun. reflexivity.
  - exact Hstr.
  - rewrite Hb', Hb1. reflexivity.
  - exact Hh'.
  - intros Hp.
    assert (Hhead : foldl type_key [] (take 39 keys) = take 39 keys).
    { apply (type_keys_printable (take 39 keys) []).
      - apply Forall_take. exact Hp.
      - cbn [length]. rewrite length_take. lia. }
    rewrite <- (take_drop 39 keys) at 1.
    rewrite foldl_app, Hhead.
    assert (Hfull : forall rest line,
              Forall (fun c => isprint c = true) rest ->
              (length line = 39)%nat \/ rest = [] ->
              foldl type_key line rest = line).
    { induction rest as [|c rest IH]; intros line Hr Hl; [reflexivity|].
      destruct Hl as [Hl|Hl]; [|discriminate].
      cbn [foldl]. inversion Hr as [|? ? Hc Hcs]; subst.
      assert (Hv : 32 <= char_val c <= 126).
      { unfold isprint in Hc. apply andb_true_iff in Hc.
        destruct Hc as [H1 H2]. apply Z.leb_le in H1, H2. lia. }
      assert (Hsame : type_key line c = line).
      { unfold type_key.
        rewrite (proj2 (Z.eqb_neq _ 8)), (proj2 (Z.eqb_neq _ 127)) by lia.
        cbn [orb]. rewrite Hc, (proj2 (Nat.ltb_ge _ _)) by lia. reflexivity. }
      rewrite Hsame. apply IH; [exact Hcs | left; exact Hl]. }
    apply Hfull; [apply Forall_drop; exact Hp|].
    destruct (Nat.le_gt_cases 39 (length keys)) as [Hlong|Hshort].
    + left. rewrite length_take. lia.
    + right. apply drop_ge. lia.
Qed.

(** The line "reflow start" typed and entered. *)
Lemma console_line_round_trip_witness :
  exists w',
    console_process_all
      (["r"; "e"; "f"; "l"; "o"; "w"; " "; "s"; "t"; "a"; "r"; "t"] ++ [x0d])%byte
      (mkWorld console_init true QueueInputs.roomy_ao) = Done w' /\
    c_string (cmd_buf (console w'))
      = ["r"; "e"; "f"; "l"; "o"; "w"; " "; "s"; "t"; "a"; "r"; "t"]%byte.
Proof.
  destruct (console_line_round_trip
              (["r"; "e"; "f"; "l"; "o"; "w"; " "; "s"; "t"; "a"; "r"; "t"])%byte
              x0d (mkWorld console_init true QueueInputs.roomy_ao)
              (holds_init true QueueInputs.roomy_ao)
              ltac:(repeat constructor; vm_compute; discriminate)
              ltac:(right; reflexivity))
    as (w' & Hrun & Hstr & _).
  exists w'. split; [exact Hrun | exact Hstr].
Defined.

End ConsoleLine.
(** ** The command module: registration and tokens *)

Section CmdTokens.
Import Rtos ActiveObj Console Cmd.

Lemma strcasecmp_refl (a : list byte) : strcasecmp a a = 0.
Proof.
  induction a as [|x a IH]; [reflexivity|].
  cbn [strcasecmp]. rewrite Z.eqb_refl. exact IH.
Qed.

(** The loop of [cmd_register] stops at the first slot it can take. *)
Lemma cmd_register_from_spec (name : list byte) (slots : client_table) :
  forall i : nat,
  (CMD_MAX_CLIENTS <= i + length slots)%nat ->
  (forall k,
     (i + k < CMD_MAX_CLIENTS)%nat ->
     (forall j slot, (j < k)%nat -> slots !! j = Some slot ->
                     slot_taken_for name slot = false) ->
     (exists slot, slots !! k = Some slot /\ slot_taken_for name slot = true) ->
     cmd_register_from i slots name = Done (Some (i + k)%nat)) /\
  ((forall j slot, (i + j < CMD_MAX_CLIENTS)%nat -> slots !! j = Some slot ->
                   slot_taken_for name slot = false) ->
   cmd_register_from i slots name = Done None).
Proof.
  induction slots as [|s rest IH]; intros i Hlen.
  - cbn [length] in Hlen. split.
    + intros k Hk. lia.
    + intros _. cbn [cmd_register_from].
      rewrite (proj2 (Nat.ltb_ge _ _)) by lia. reflexivity.
  - cbn [length] in Hlen. split.
    + intros k Hk Hbefore (slot & Hslot & Htaken).
      cbn [cmd_register_from]. rewrite (proj2 (Nat.ltb_lt _ _)) by lia.
      destruct k as [|k].
      * cbn in Hslot. injection Hslot as ->. rewrite Htaken.
        rewrite Nat.add_0_r. reflexivity.
      * rewrite (Hbefore 0%nat s) by (lia || reflexivity).
        replace (i + S k)%nat with (S i + k)%nat by lia.
        apply (proj1 (IH (S i) ltac:(lia))); [lia | | eauto].
        intros j slot' Hj Hl. apply (Hbefore (S j)); [lia | exact Hl].
    + intros Hnone. cbn [cmd_register_from].
      destruct (Nat.ltb_spec i CMD_MAX_CLIENTS) as [Hi|Hi]; [|reflexivity].
      rewrite (Hnone 0%nat s) by (rewrite ?Nat.add_0_r; assumption || reflexivity).
      apply (proj2 (IH (S i) ltac:(lia))).
      intros j slot' Hj Hl. apply (Hnone (S j)); [lia | exact Hl].
Qed.

(** X20: [cmd_register] takes the first slot that is free or holds a
    client of the same name, compared without regard to case.  On a
    table of CMD_MAX_CLIENTS slots the call never reads outside the
    table.  If slot [i] is the first that is null or holds a client
    whose name matches, the call returns MOD_OK and stores the client
    there, every other slot keeping its content; a client registered
    again under the same name is stored in the slot it already has.  If
    no slot is null and no name matches, the call returns
    MOD_ERR_RESOURCE and the table is unchanged. *)
Theorem cmd_register_first_fit (client_infos : client_table)
    (c : cmd_client_info) :
  length client_infos = CMD_MAX_CLIENTS ->
  (forall i,
     (forall j slot, (j < i)%nat -> client_infos !! j = Some slot ->
                     slot_taken_for (client_name c) slot = false) ->
     (exists slot, client_infos !! i = Some slot /\
                   slot_taken_for (client_name c) slot = true) ->
     cmd_register client_infos c
       = Done (MOD_OK, <[i := Some c]> client_infos) /\
     (forall j, j <> i ->
        (<[i := Some c]> client_infos) !! j = client_infos !! j) /\
     forall c', client_name c' = client_name c ->
       cmd_register (<[i := Some c]> client_infos) c'
       = Done (MOD_OK, <[i := Some c']> client_infos)) /\
  ((forall slot, In slot client_infos ->
                 slot_taken_for (client_name c) slot = false) ->
   cmd_register client_infos c = Done (MOD_ERR_RESOURCE, client_infos)).
Proof.
  intros Hlen. split.
  - intros i Hbefore (slot & Hslot & Htaken).
    assert (Hi : (i < CMD_MAX_CLIENTS)%nat).
    { rewrite <- Hlen. exact (lookup_lt_Some _ _ _ Hslot). }
    split; [|split].
    + unfold cmd_register.
      rewrite (proj1 (cmd_register_from_spec (client_name c) client_infos 0%nat
                        ltac:(lia)) i); eauto.
    + intros j Hj. apply list_lookup_insert_ne. auto.
    + intros c' Hname. unfold cmd_register.
      assert (Hlen' : (CMD_MAX_CLIENTS
                       <= 0 + length (<[i := Some c]> client_infos))%nat)
        by (rewrite length_insert; lia).
      rewrite (proj1 (cmd_register_from_spec (client_name c')
                        (<[i := Some c]> client_infos) 0%nat Hlen') i).
      * cbn [mbind Outcome_bind Nat.add]. rewrite list_insert_insert_eq.
        reflexivity.
      * exact Hi.
      * intros j slot' Hj Hl. rewrite list_lookup_insert_ne in Hl by lia.
        rewrite Hname. exact (Hbefore j slot' Hj Hl).
      * exists (Some c). split.
        -- apply list_lookup_insert_eq. lia.
        -- cbn [slot_taken_for]. rewrite Hname, strcasecmp_refl. reflexivity.
  - intros Hnone. unfold cmd_register.
    rewrite (proj2 (cmd_register_from_spec (client_name c) client_infos 0%nat
                      ltac:(lia))); [reflexivity|].
    intros j slot _ Hl. apply Hnone.
    apply list_elem_of_In. exact (list_elem_of_lookup_2 _ _ _ Hl).
Qed.

(** The reflow client registered into the empty table goes to slot 0. *)
Lemma cmd_register_first_fit_witness :
  cmd_register no_clients ReflowCmd.reflow_client_info
  = Done (MOD_OK, <[0%nat := Some ReflowCmd.reflow_client_info]> no_clients).
Proof.
  apply (proj1 (cmd_register_first_fit no_clients ReflowCmd.reflow_client_info
                  eq_refl) 0%nat).
  - intros j slot Hj. lia.
  - exists None. split; reflexivity.
Defined.


Lemma isspace_not_nul (c : byte) : isspace c = true -> char_val c <> 0.
Proof.
  unfold isspace. intros H E. rewrite E in H. discriminate.
Qed.

(** A scan over an array that holds a terminator stops inside it. *)
Lemma scan_decomp (go : byte -> bool) (s : list byte) :
  Exists (fun c => char_val c = 0) s ->
  exists run c tail,
    s = run ++ c :: tail /\
    Forall (fun x => char_val x <> 0 /\ go x = true) run /\
    (char_val c = 0 \/ go c = false) /\
    scan go s = Done (length run).
Proof.
  induction s as [|x s IH]; intros Hnul.
  - inversion Hnul.
  - cbn [scan].
    destruct (Z.eqb_spec (char_val x) 0) as [E|N].
    + exists [], x, s. cbn. auto.
    + destruct (go x) eqn:Hgo; cbn [negb andb].
      * destruct IH as (run & c & tail & -> & Hrun & Hc & Hscan).
        { apply Exists_cons in Hnul. destruct Hnul; [contradiction|assumption]. }
        exists (x :: run), c, tail. rewrite Hscan. cbn.
        repeat split; auto.
      * exists [], x, s. cbn. auto.
Qed.

Lemma c_string_run (run rest : list byte) :
  Forall (fun x => char_val x <> 0) run ->
  c_string (run ++ rest) = run ++ c_string rest.
Proof.
  induction 1 as [|x run Hx _ IH]; [reflexivity|].
  cbn [app c_string]. rewrite (proj2 (Z.eqb_neq _ _) Hx), IH. reflexivity.
Qed.

Lemma words_from_spaces (sp rest : list byte) :
  Forall (fun x => isspace x = true) sp ->
  words_from [] (sp ++ rest) = words_from [] rest.
Proof.
  induction 1 as [|x sp Hx _ IH]; [reflexivity|].
  cbn [app words_from]. rewrite Hx. exact IH.
Qed.

Lemma words_from_run (w : list byte) :
  forall cur rest,
  Forall (fun x => isspace x = false) w ->
  words_from cur (w ++ rest) = words_from (cur ++ w) rest.
Proof.
  induction w as [|x w IH]; intros cur rest Hw.
  - rewrite app_nil_r. reflexivity.
  - inversion Hw as [|? ? Hx Hw']; subst. cbn [app words_from]. rewrite Hx.
    rewrite IH by exact Hw'. rewrite <- app_assoc. reflexivity.
Qed.

(** The words of a line that starts with spaces, then a word, then the
    end of the line or a space. *)
Lemma words_step (sp w rest : list byte) (c : byte) :
  Forall (fun x => isspace x = true) sp ->
  isspace c = false -> Forall (fun x => isspace x = false) w ->
  words (sp ++ c :: w) = [c :: w] /\
  forall d, isspace d = true ->
    words (sp ++ c :: w ++ d :: rest) = (c :: w) :: words rest.
Proof.
  intros Hsp Hc Hw. unfold words. split.
  - rewrite words_from_spaces by exact Hsp.
    pose proof (words_from_run (c :: w) [] []
                  ltac:(constructor; assumption)) as E.
    rewrite app_nil_r in E. rewrite E. reflexivity.
  - intros d Hd. rewrite words_from_spaces by exact Hsp.
    change (c :: w ++ d :: rest) with ((c :: w) ++ d :: rest).
    rewrite (words_from_run (c :: w) [] (d :: rest)) by (constructor; assumption).
    cbn [app words_from]. rewrite Hd. reflexivity.
Qed.

Ltac norm_app :=
  repeat (rewrite <- app_assoc || rewrite <- app_comm_cons
          || rewrite app_nil_l).

Lemma lookup_app_length (pre : list byte) (c : byte) (tail : list byte) :
  (pre ++ c :: tail) !! length pre = Some c.
Proof. apply list_lookup_middle. reflexivity. Qed.

(** The loop of [tokenize], started at the end of [pre] with a
    terminator ahead. *)
Lemma tokenize_loop_spec (room : nat) :
  forall (pre sfx : list byte) (tokens : list nat),
  Exists (fun c => char_val c = 0) sfx ->
  exists err sfx' offs,
    tokenize_loop room (pre ++ sfx) (length pre) tokens
      = Done (err, pre ++ sfx', tokens ++ offs) /\
    length sfx' = length sfx /\
    ((length (words (c_string sfx)) <= room)%nat ->
     err = MOD_OK /\
     (fun off => token_at (pre ++ sfx') off) <$> offs = words (c_string sfx)) /\
    ((room < length (words (c_string sfx)))%nat -> err = MOD_ERR_BAD_CMD).
Proof.
  induction room as [|room IH]; intros pre sfx tokens Hnul.
  - (* ten tokens recorded *)
    cbn [tokenize_loop]. rewrite drop_app_length.
    destruct (scan_decomp isspace sfx Hnul)
      as (sp & c & tail & -> & Hsp & Hc & Hscan).
    rewrite Hscan. cbn [mbind Outcome_bind].
    rewrite app_assoc, <- length_app, lookup_app_length, <- app_assoc.
    cbn [access mbind Outcome_bind].
    assert (Hsp0 : Forall (fun x => char_val x <> 0) sp)
      by (eapply Forall_impl; [exact Hsp | cbn; tauto]).
    assert (Hsp1 : Forall (fun x => isspace x = true) sp)
      by (eapply Forall_impl; [exact Hsp | cbn; tauto]).
    destruct (Z.eqb_spec (char_val c) 0) as [E|N].
    + exists MOD_OK, (sp ++ c :: tail), []. rewrite app_nil_r.
      split; [reflexivity|]. split; [reflexivity|].
      assert (Hw : words (c_string (sp ++ c :: tail)) = []).
      { rewrite c_string_run by exact Hsp0. cbn [c_string].
        rewrite (proj2 (Z.eqb_eq _ _) E), app_nil_r.
        unfold words. rewrite <- (app_nil_r sp).
        rewrite words_from_spaces by exact Hsp1. reflexivity. }
      rewrite Hw. split; [intros _; split; reflexivity | cbn; lia].
    + exists MOD_ERR_BAD_CMD, (sp ++ c :: tail), []. rewrite app_nil_r.
      split; [reflexivity|]. split; [reflexivity|].
      destruct Hc as [Hc|Hc]; [contradiction|].
      assert (Hnul2 : Exists (fun c => char_val c = 0) tail).
      { apply Exists_app in Hnul. destruct Hnul as [H|H].
        - exfalso. apply Exists_exists in H. destruct H as (x & Hx & Hz).
          rewrite Forall_forall in Hsp0. exact (Hsp0 x Hx Hz).
        - apply Exists_cons in H. destruct H; [contradiction|assumption]. }
      destruct (scan_decomp (fun c => negb (isspace c)) tail Hnul2)
        as (w & d & tail2 & -> & Hw & Hd & _).
      assert (Hw0 : Forall (fun x => char_val x <> 0) w)
        by (eapply Forall_impl; [exact Hw | cbn; tauto]).
      assert (Hw1 : Forall (fun x => isspace x = false) w).
      { eapply Forall_impl; [exact Hw|]. cbn. intros x [_ H].
        apply negb_true_iff in H. exact H. }
      assert (Hlen : (0 < length (words (c_string (sp ++ c :: w ++ d :: tail2))))%nat).
      { change (sp ++ c :: w ++ d :: tail2) with (sp ++ (c :: w) ++ d :: tail2).
        rewrite c_string_run by exact Hsp0.
        rewrite c_string_run by (constructor; assumption).
        cbn [c_string].
        destruct (Z.eqb_spec (char_val d) 0) as [Ed|Nd].
        - rewrite app_nil_r.
          rewrite (proj1 (words_step sp w [] c Hsp1 Hc Hw1)). cbn. lia.
        - destruct Hd as [Hd|Hd]; [contradiction|].
          apply negb_false_iff in Hd. cbn [app].
          rewrite (proj2 (words_step sp w _ c Hsp1 Hc Hw1) d Hd). cbn. lia. }
      split; [intros H; lia | reflexivity].
  - cbn [tokenize_loop]. rewrite drop_app_length.
    destruct (scan_decomp isspace sfx Hnul)
      as (sp & c & tail & -> & Hsp & Hc & Hscan).
    rewrite Hscan. cbn [mbind Outcome_bind].
    assert (Hsp0 : Forall (fun x => char_val x <> 0) sp)
      by (eapply Forall_impl; [exact Hsp | cbn; tauto]).
    assert (Hsp1 : Forall (fun x => isspace x = true) sp)
      by (eapply Forall_impl; [exact Hsp | cbn; tauto]).
    assert (Hlook : (pre ++ sp ++ c :: tail) !! (length pre + length sp)%nat
                    = Some c).
    { rewrite app_assoc, <- length_app. apply lookup_app_length. }
    rewrite Hlook. cbn [access mbind Outcome_bind].
    destruct (Z.eqb_spec (char_val c) 0) as [E|N].
    + exists MOD_OK, (sp ++ c :: tail), []. rewrite app_nil_r.
      split; [reflexivity|]. split; [reflexivity|].
      assert (Hw : words (c_string (sp ++ c :: tail)) = []).
      { rewrite c_string_run by exact Hsp0. cbn [c_string].
        rewrite (proj2 (Z.eqb_eq _ _) E), app_nil_r.
        unfold words. rewrite <- (app_nil_r sp).
        rewrite words_from_spaces by exact Hsp1. reflexivity. }
      rewrite Hw. split; [intros _; split; reflexivity | cbn; lia].
    + destruct Hc as [Hc|Hc]; [contradiction|].
      assert (Hnul2 : Exists (fun c => char_val c = 0) tail).
      { apply Exists_app in Hnul. destruct Hnul as [H|H].
        - exfalso. apply Exists_exists in H. destruct H as (x & Hx & Hz).
          rewrite Forall_forall in Hsp0. exact (Hsp0 x Hx Hz).
        - apply Exists_cons in H. destruct H; [contradiction|assumption]. }
      destruct (scan_decomp (fun c => negb (isspace c)) tail Hnul2)
        as (w & d & tail2 & -> & Hw & Hd & Hscan2).
      assert (Hw0 : Forall (fun x => char_val x <> 0) w)
        by (eapply Forall_impl; [exact Hw | cbn; tauto]).
      assert (Hw1 : Forall (fun x => isspace x = false) w).
      { eapply Forall_impl; [exact Hw|]. cbn. intros x [_ H].
        apply negb_true_iff in H. exact H. }
      (* the buffer, split at the token *)
      set (pre1 := pre ++ sp).
      assert (Hbuf : pre ++ sp ++ c :: w ++ d :: tail2
                     = (pre1 ++ c :: w) ++ d :: tail2).
      { subst pre1. rewrite <- !app_assoc. reflexivity. }
      assert (Hptr : (length pre + length sp)%nat = length pre1)
        by (subst pre1; rewrite length_app; reflexivity).
      rewrite Hptr.
      assert (Hdrop : drop (S (length pre1)) (pre ++ sp ++ c :: w ++ d :: tail2)
                      = w ++ d :: tail2).
      { replace (pre ++ sp ++ c :: w ++ d :: tail2)
          with ((pre1 ++ [c]) ++ w ++ d :: tail2)
          by (subst pre1; rewrite <- !app_assoc; reflexivity).
        replace (S (length pre1)) with (length (pre1 ++ [c]))
          by (rewrite length_app; cbn; lia).
        apply drop_app_length. }
      rewrite Hdrop, Hscan2. cbn [mbind Outcome_bind].
      assert (Hptr3 : (S (length pre1) + length w)%nat = length (pre1 ++ c :: w))
        by (rewrite length_app; cbn; lia).
      rewrite Hptr3, Hbuf, lookup_app_length. cbn [access mbind Outcome_bind].
      assert (Htok : forall rest,
                token_at ((pre1 ++ c :: w) ++ x00 :: rest) (length pre1) = c :: w).
      { intros rest. unfold token_at. rewrite <- app_assoc, drop_app_length.
        change ((c :: w) ++ x00 :: rest) with ((c :: w) ++ x00 :: rest).
        rewrite (c_string_run (c :: w)) by (constructor; assumption).
        cbn [c_string]. change (char_val x00 =? 0) with true.
        apply app_nil_r. }
      destruct (Z.eqb_spec (char_val d) 0) as [Ed|Nd]; cbn [negb].
      * (* end of line after the token *)
        exists MOD_OK, (sp ++ c :: w ++ d :: tail2), [length pre1].
        split; [rewrite Hbuf; reflexivity|]. split; [reflexivity|].
        assert (Hwords : words (c_string (sp ++ c :: w ++ d :: tail2)) = [c :: w]).
        { change (sp ++ c :: w ++ d :: tail2) with (sp ++ (c :: w) ++ d :: tail2).
          rewrite c_string_run by exact Hsp0.
          rewrite c_string_run by (constructor; assumption).
          cbn [c_string]. rewrite (proj2 (Z.eqb_eq _ _) Ed), app_nil_r.
          exact (proj1 (words_step sp w [] c Hsp1 Hc Hw1)). }
        rewrite Hwords. split; [|cbn; lia].
        intros _. split; [reflexivity|]. cbn [fmap list_fmap]. f_equal.
        rewrite Hbuf. unfold token_at. rewrite <- app_assoc, drop_app_length.
        rewrite (c_string_run (c :: w)) by (constructor; assumption).
        cbn [c_string]. rewrite (proj2 (Z.eqb_eq _ _) Ed). apply app_nil_r.
      * (* a space after the token: terminate it and go on *)
        destruct Hd as [Hd|Hd]; [contradiction|]. apply negb_false_iff in Hd.
        assert (Hins : <[length (pre1 ++ c :: w) := x00]>
                         ((pre1 ++ c :: w) ++ d :: tail2)
                       = (pre1 ++ c :: w ++ [x00]) ++ tail2).
        { rewrite <- (Nat.add_0_r (length (pre1 ++ c :: w))).
          rewrite insert_app_r. cbn [insert list_insert]. norm_app.
          reflexivity. }
        rewrite Hins.
        replace (S (length (pre1 ++ c :: w)))
          with (length (pre1 ++ c :: w ++ [x00]))
          by (rewrite !length_app; cbn; rewrite length_app; cbn; lia).
        assert (Hnul3 : Exists (fun c => char_val c = 0) tail2).
        { apply Exists_app in Hnul2. destruct Hnul2 as [H|H].
          - exfalso. apply Exists_exists in H. destruct H as (x & Hx & Hz).
            rewrite Forall_forall in Hw0. exact (Hw0 x Hx Hz).
          - apply Exists_cons in H. destruct H; [contradiction|assumption]. }
        destruct (IH (pre1 ++ c :: w ++ [x00]) tail2 (tokens ++ [length pre1])
                    Hnul3) as (err & sfx2 & offs2 & Hrun & Hlen2 & Hok & Hbad).
        exists err, (sp ++ c :: w ++ x00 :: sfx2), (length pre1 :: offs2).
        assert (Hfinal : (pre1 ++ c :: w ++ [x00]) ++ sfx2
                         = pre ++ sp ++ c :: w ++ x00 :: sfx2).
        { subst pre1. norm_app. reflexivity. }
        split; [|split].
        -- rewrite Hrun, Hfinal, <- app_assoc. reflexivity.
        -- rewrite !length_app. cbn. rewrite !length_app. cbn. lia.
        -- assert (Hwords : words (c_string (sp ++ c :: w ++ d :: tail2))
                             = (c :: w) :: words (c_string tail2)).
           { change (sp ++ c :: w ++ d :: tail2)
               with (sp ++ (c :: w) ++ d :: tail2).
             rewrite c_string_run by exact Hsp0.
             rewrite c_string_run by (constructor; assumption).
             cbn [c_string]. rewrite (proj2 (Z.eqb_neq _ _) Nd). cbn [app].
             exact (proj2 (words_step sp w _ c Hsp1 Hc Hw1) d Hd). }
           rewrite Hwords. cbn [length]. split.
           ++ intros Hle. destruct (Hok ltac:(lia)) as [-> Hstr].
              split; [reflexivity|]. cbn [fmap list_fmap].
              rewrite <- Hfinal. f_equal.
              ** replace ((pre1 ++ c :: w ++ [x00]) ++ sfx2)
                   with ((pre1 ++ c :: w) ++ x00 :: sfx2)
                   by (norm_app; reflexivity).
                 apply Htok.
              ** exact Hstr.
           ++ intros Hgt. apply Hbad. lia.
Qed.


(** X21: [tokenize] splits the line into its words.  On a buffer that
    holds a terminator the call returns without reading or writing
    outside the buffer, and the buffer keeps its length.  When the C
    string in the buffer has at most CMD_MAX_TOKENS words (maximal runs
    of characters that are not white space), the result is MOD_OK and
    the tokens recorded, read as C strings in the buffer as [tokenize]
    leaves it, are exactly those words in order; with more words the
    result is MOD_ERR_BAD_CMD. *)
Theorem tokenize_words (buf : list byte) :
  Exists (fun c => char_val c = 0) buf ->
  exists err buf' offsets,
    tokenize buf = Done (err, buf', offsets) /\
    length buf' = length buf /\
    ((length (words (c_string buf)) <= CMD_MAX_TOKENS)%nat ->
     err = MOD_OK /\ token_at buf' <$> offsets = words (c_string buf)) /\
    ((CMD_MAX_TOKENS < length (words (c_string buf)))%nat ->
     err = MOD_ERR_BAD_CMD).
Proof.
  intros Hnul.
  destruct (tokenize_loop_spec CMD_MAX_TOKENS [] buf [] Hnul)
    as (err & buf' & offs & Hrun & Hlen & Hok & Hbad).
  exists err, buf', offs. cbn [app length] in *.
  repeat split; try assumption; apply Hok; assumption.
Qed.

(** The line " Reflow  sTart " in a buffer of forty characters. *)
Lemma tokenize_words_witness :
  exists buf' offsets,
    tokenize ([" "; "R"; "e"; "f"; "l"; "o"; "w"; " "; " ";
               "s"; "T"; "a"; "r"; "t"; " "]%byte ++ replicate 25 x00)
      = Done (MOD_OK, buf', offsets) /\
    token_at buf' <$> offsets
      = [ ["R"; "e"; "f"; "l"; "o"; "w"]; ["s"; "T"; "a"; "r"; "t"] ]%byte.
Proof.
  destruct (tokenize_words
              ([" "; "R"; "e"; "f"; "l"; "o"; "w"; " "; " ";
                "s"; "T"; "a"; "r"; "t"; " "]%byte ++ replicate 25 x00))
    as (err & buf' & offsets & Hrun & _ & Hok & _).
  { apply Exists_app. right. left. reflexivity. }
  destruct Hok as [-> Htok]; [vm_compute; lia|].
  exists buf', offsets. split; [exact Hrun | exact Htok].
Defined.

End CmdTokens.
(** ** The command module: looking up clients and commands *)

Section CmdDispatch.
Import Rtos ActiveObj Console Cmd.
Context {St : Type}.
Variable run : cmd_cb_t -> Z -> list (list byte) -> St -> Outcome (Z * St).

Lemma help_clients_from_full (slots : list (option cmd_client_info)) :
  forall i : nat,
  (i + length slots <= CMD_MAX_CLIENTS)%nat ->
  Forall (fun slot => slot <> None) slots ->
  help_clients_from i slots = Fault.
Proof.
  induction slots as [|slot rest IH]; intros i Hlen Hfull; [reflexivity|].
  inversion Hfull as [|? ? Hs Hrest]; subst. cbn [length] in Hlen.
  destruct slot as [ci|]; [|contradiction]. cbn [help_clients_from].
  rewrite (proj2 (Nat.ltb_lt _ _)) by lia. apply IH; [lia | exact Hrest].
Qed.

Lemma help_clients_from_null (slots : list (option cmd_client_info)) :
  forall i : nat, In None slots -> help_clients_from i slots = Done tt.
Proof.
  induction slots as [|slot rest IH]; intros i Hin; [destruct Hin|].
  destruct slot as [ci|]; [|reflexivity]. cbn [help_clients_from].
  destruct (i <? CMD_MAX_CLIENTS)%nat; [|reflexivity].
  apply IH. destruct Hin as [E|Hin]; [discriminate | exact Hin].
Qed.

Lemma client_command_from_full (client_infos : list (option cmd_client_info))
    (t0 : list byte) (rest : list (list byte)) (st : St)
    (slots : list (option cmd_client_info)) :
  forall i : nat,
  (i + length slots <= CMD_MAX_CLIENTS)%nat ->
  Forall (fun slot => exists ci, slot = Some ci /\
                      strcasecmp t0 (client_name ci) <> 0) slots ->
  client_command_from run client_infos i slots (t0 :: rest) st = Fault.
Proof.
  induction slots as [|slot more IH]; intros i Hlen Hno; [reflexivity|].
  inversion Hno as [|? ? (ci & -> & Hci) Hmore]; subst.
  cbn [length] in Hlen. cbn [client_command_from].
  rewrite (proj2 (Nat.ltb_lt _ _)) by lia.
  cbn [lookup list_lookup access mbind Outcome_bind].
  rewrite (proj2 (Z.eqb_neq _ _) Hci). cbn [negb].
  apply IH; [lia | exact Hmore].
Qed.

Lemma client_command_from_null (client_infos : list (option cmd_client_info))
    (t0 : list byte) (rest : list (list byte)) (st : St)
    (slots : list (option cmd_client_info)) :
  forall i : nat,
  In None slots ->
  Forall (fun slot => forall ci, slot = Some ci ->
                      strcasecmp t0 (client_name ci) <> 0) slots ->
  client_command_from run client_infos i slots (t0 :: rest) st
  = Done (MOD_ERR_BAD_CMD, client_infos, st).
Proof.
  induction slots as [|slot more IH]; intros i Hin Hno; [destruct Hin|].
  inversion Hno as [|? ? Hslot Hmore]; subst.
  destruct slot as [ci|]; [|reflexivity]. cbn [client_command_from].
  destruct (i <? CMD_MAX_CLIENTS)%nat; [|reflexivity].
  cbn [lookup list_lookup access mbind Outcome_bind].
  rewrite (proj2 (Z.eqb_neq _ _) (Hslot ci eq_refl)). cbn [negb].
  apply IH; [|exact Hmore].
  destruct Hin as [E|Hin]; [discriminate | exact Hin].
Qed.

(** X22: the loops over the clients read [client_infos[i]] before they
    compare [i] with CMD_MAX_CLIENTS.  With all ten slots in use, the
    help command, and every command line whose first token names no
    registered client, read [client_infos[10]], one element past the
    table.  With a null slot left, the help command stays inside the
    table, and a first token that names no client is answered with
    MOD_ERR_BAD_CMD, the table and the state untouched, no callback
    called. *)
Theorem client_lookup_bounds (client_infos : list (option cmd_client_info))
    (t0 : list byte) (rest : list (list byte)) (st : St) :
  length client_infos = CMD_MAX_CLIENTS ->
  (Forall (fun slot => slot <> None) client_infos ->
   help_handler client_infos (str_help :: rest) = Fault /\
   help_handler client_infos (str_qmark :: rest) = Fault /\
   (Forall (fun slot => forall ci, slot = Some ci ->
                        strcasecmp t0 (client_name ci) <> 0) client_infos ->
    client_command_handler run client_infos (t0 :: rest) st = Fault)) /\
  (In None client_infos ->
   help_handler client_infos (str_help :: rest) = Done MOD_OK /\
   help_handler client_infos (str_qmark :: rest) = Done MOD_OK /\
   (Forall (fun slot => forall ci, slot = Some ci ->
                        strcasecmp t0 (client_name ci) <> 0) client_infos ->
    client_command_handler run client_infos (t0 :: rest) st
    = Done (MOD_ERR_BAD_CMD, client_infos, st))).
Proof.
  intros Hlen. split.
  - intros Hfull. split; [|split].
    + unfold help_handler. cbn [lookup list_lookup access mbind Outcome_bind].
      change (strcasecmp str_help str_help =? 0) with true. cbn [orb].
      rewrite help_clients_from_full by (lia || assumption). reflexivity.
    + unfold help_handler. cbn [lookup list_lookup access mbind Outcome_bind].
      change (strcasecmp str_qmark str_qmark =? 0) with true.
      rewrite orb_true_r.
      rewrite help_clients_from_full by (lia || assumption). reflexivity.
    + intros Hno. unfold client_command_handler.
      apply client_command_from_full; [lia|].
      rewrite Forall_forall in *. intros slot Hin.
      destruct slot as [ci|].
      * exists ci. split; [reflexivity|]. exact (Hno _ Hin ci eq_refl).
      * exfalso. exact (Hfull _ Hin eq_refl).
  - intros Hnull. split; [|split].
    + unfold help_handler. cbn [lookup list_lookup access mbind Outcome_bind].
      change (strcasecmp str_help str_help =? 0) with true. cbn [orb].
      rewrite help_clients_from_null by assumption. reflexivity.
    + unfold help_handler. cbn [lookup list_lookup access mbind Outcome_bind].
      change (strcasecmp str_qmark str_qmark =? 0) with true.
      rewrite orb_true_r.
      rewrite help_clients_from_null by assumption. reflexivity.
    + intros Hno. unfold client_command_handler.
      apply client_command_from_null; assumption.
Qed.

(** The loop of [client_command_handler] reaches the first client
    whose name matches. *)
Lemma client_command_from_match (client_infos : list (option cmd_client_info))
    (t0 : list byte) (rest : list (list byte)) (st : St)
    (ci : cmd_client_info) (slots : list (option cmd_client_info)) :
  forall i k : nat,
  (i + k < CMD_MAX_CLIENTS)%nat ->
  slots !! k = Some (Some ci) ->
  (forall j slot, (j < k)%nat -> slots !! j = Some slot ->
     exists cj, slot = Some cj /\ strcasecmp t0 (client_name cj) <> 0) ->
  strcasecmp t0 (client_name ci) = 0 ->
  client_command_from run client_infos i slots (t0 :: rest) st
  = client_command run client_infos (i + k) ci (t0 :: rest) st.
Proof.
  induction slots as [|slot more IH]; intros i k Hik Hk Hbefore Hci;
    [discriminate|].
  destruct k as [|k].
  - cbn in Hk. injection Hk as ->. cbn [client_command_from].
    rewrite (proj2 (Nat.ltb_lt _ _)) by lia.
    cbn [lookup list_lookup access mbind Outcome_bind].
    rewrite Hci. cbn [Z.eqb negb]. rewrite Nat.add_0_r. reflexivity.
  - destruct (Hbefore 0%nat slot ltac:(lia) eq_refl) as (cj & -> & Hcj).
    cbn [client_command_from].
    rewrite (proj2 (Nat.ltb_lt _ _)) by lia.
    cbn [lookup list_lookup access mbind Outcome_bind].
    rewrite (proj2 (Z.eqb_neq _ _) Hcj). cbn [negb].
    replace (i + S k)%nat with (S i + k)%nat by lia.
    apply IH; [lia | exact Hk | | exact Hci].
    intros j slot' Hj Hl. apply (Hbefore (S j)); [lia | exact Hl].
Qed.

(** A command of the matching client, called without arguments. *)
Lemma client_command_no_args (client_infos : list (option cmd_client_info))
    (i : nat) (ci : cmd_client_info) (c : cmd_cmd_info)
    (t0 t1 : list byte) (st : St) :
  strcasecmp t1 str_help <> 0 ->
  strcasecmp t1 str_qmark <> 0 ->
  strcasecmp t1 str_pm <> 0 ->
  find_cmd t1 (cmds ci) = Some c ->
  client_command run client_infos i ci [t0; t1] st
  = '(_, st') ← run (cb c) 0 [] st; Done (MOD_OK, client_infos, st').
Proof.
  intros Hh Hq Hpm Hfind. unfold client_command.
  cbn [length Nat.eqb lookup list_lookup access mbind Outcome_bind].
  rewrite (proj2 (Z.eqb_neq _ _) Hh), (proj2 (Z.eqb_neq _ _) Hq),
          (proj2 (Z.eqb_neq _ _) Hpm). cbn [orb].
  rewrite Hfind. reflexivity.
Qed.

(** X23: a command line is dispatched to the first client whose name
    matches its first token and, within that client, to the first
    command whose name matches its second token, both compared without
    regard to case.  Unless the second token is help, ? or pm, or the
    line has exactly three tokens of which the third is help or ?, the
    command's callback is called with [argc] the number of tokens after
    the second and [argv] those tokens; the handler returns MOD_OK
    whatever the callback returns, and leaves the table as it was. *)
Theorem client_command_handler_dispatch
    (client_infos : list (option cmd_client_info)) (i : nat)
    (ci : cmd_client_info) (c : cmd_cmd_info)
    (t0 t1 : list byte) (args : list (list byte)) (st : St) :
  (i < CMD_MAX_CLIENTS)%nat ->
  client_infos !! i = Some (Some ci) ->
  (forall j slot, (j < i)%nat -> client_infos !! j = Some slot ->
     exists cj, slot = Some cj /\ strcasecmp t0 (client_name cj) <> 0) ->
  strcasecmp t0 (client_name ci) = 0 ->
  strcasecmp t1 str_help <> 0 ->
  strcasecmp t1 str_qmark <> 0 ->
  strcasecmp t1 str_pm <> 0 ->
  find_cmd t1 (cmds ci) = Some c ->
  (forall a, args = [a] ->
     strcasecmp a str_help <> 0 /\ strcasecmp a str_qmark <> 0) ->
  client_command_handler run client_infos (t0 :: t1 :: args) st
  = '(_, st') ← run (cb c) (Z.of_nat (length args)) args st;
    Done (MOD_OK, client_infos, st').
Proof.
  intros Hi Hslot Hbefore Hci Hh Hq Hpm Hfind Hthird.
  unfold client_command_handler.
  rewrite (client_command_from_match client_infos t0 (t1 :: args) st ci
             client_infos 0%nat i) by assumption.
  unfold client_command. cbn [length Nat.eqb].
  replace (match length args with 0%nat => false | S _ => false end)
    with false by (destruct (length args); reflexivity).
  cbn [lookup list_lookup access mbind Outcome_bind].
  rewrite (proj2 (Z.eqb_neq _ _) Hh), (proj2 (Z.eqb_neq _ _) Hq),
          (proj2 (Z.eqb_neq _ _) Hpm). cbn [orb].
  rewrite Hfind. cbn [drop].
  replace (Z.of_nat (S (S (length args))) - 2) with (Z.of_nat (length args))
    by lia.
  destruct args as [|a [|b more]]; cbn [length Nat.eqb]; try reflexivity.
  cbn [lookup list_lookup access mbind Outcome_bind].
  destruct (Hthird a eq_refl) as [Ha1 Ha2].
  rewrite (proj2 (Z.eqb_neq _ _) Ha1), (proj2 (Z.eqb_neq _ _) Ha2).
  reflexivity.
Qed.

End CmdDispatch.

(** The empty table: help stays inside it. *)
Lemma client_lookup_bounds_witness :
  Cmd.help_handler Cmd.no_clients [Cmd.str_help] = Done MOD_OK.
Proof.
  apply (client_lookup_bounds CmdInputs.run_posting Cmd.no_clients
           Cmd.str_help [] Reflow.firmware_started eq_refl).
  left. reflexivity.
Defined.

(** "reflow stop" against the table that holds the reflow client. *)
Lemma client_command_handler_dispatch_witness :
  Cmd.client_command_handler CmdInputs.run_posting CmdInputs.reflow_table
    [ReflowCmd.str_reflow; ReflowCmd.str_stop] Reflow.firmware_started
  = '(_, st') ← ReflowCmd.reflow_stop_cmd 0 [] Reflow.firmware_started;
    Done (MOD_OK, CmdInputs.reflow_table, st').
Proof.
  apply (client_command_handler_dispatch CmdInputs.run_posting
           CmdInputs.reflow_table 0%nat ReflowCmd.reflow_client_info
           (Cmd.mkCmdInfo ReflowCmd.str_stop Cmd.Cb_reflow_stop_cmd)
           ReflowCmd.str_reflow ReflowCmd.str_stop [] Reflow.firmware_started).
  - unfold Cmd.CMD_MAX_CLIENTS. lia.
  - reflexivity.
  - intros j slot Hj. lia.
  - reflexivity.
  - vm_compute. discriminate.
  - vm_compute. discriminate.
  - vm_compute. discriminate.
  - reflexivity.
  - intros a Ha. discriminate Ha.
Defined.
(** ** From a command line to the reflow active object *)

Section CmdToReflow.
Import Rtos ActiveObj Console Cmd Reflow ReflowCmd CmdInputs.

Lemma c_string_no_nul (buf : list byte) : no_nul (c_string buf).
Proof.
  induction buf as [|c buf IH]; [constructor|]. cbn [c_string].
  destruct (Z.eqb_spec (char_val c) 0); constructor; assumption.
Qed.

Lemma words_from_Forall (P : byte -> Prop) (s : list byte) :
  forall cur, Forall P cur -> Forall P s ->
  Forall (Forall P) (words_from cur s).
Proof.
  induction s as [|c s IH]; intros cur Hcur Hs.
  - destruct cur as [|b cur]; cbn.
    + apply Forall_nil_2.
    + apply Forall_cons_2; [exact Hcur | apply Forall_nil_2].
  - inversion Hs as [|? ? Hc Hs']; subst. cbn [words_from].
    destruct (isspace c).
    + destruct cur.
      * apply IH; [constructor | exact Hs'].
      * constructor; [exact Hcur|]. apply IH; [constructor | exact Hs'].
    + apply IH; [|exact Hs']. apply Forall_app. split; [exact Hcur|].
      repeat constructor. exact Hc.
Qed.

Lemma tolower_pos (c : byte) : char_val c <> 0 -> tolower c <> 0.
Proof.
  intros Hc. unfold tolower.
  assert (0 <= char_val c) by (unfold char_val; lia).
  destruct ((65 <=? char_val c) && (char_val c <=? 90)); lia.
Qed.

(** [strcasecmp] returns 0 exactly on strings that agree after
    [tolower]. *)
Lemma strcasecmp_zero (a : list byte) :
  forall b, no_nul a -> no_nul b ->
  (strcasecmp a b = 0 <-> tolower <$> a = tolower <$> b).
Proof.
  induction a as [|x a IH]; intros [|y b] Ha Hb; cbn [strcasecmp fmap list_fmap].
  - tauto.
  - inversion Hb as [|? ? Hy _]; subst. pose proof (tolower_pos y Hy).
    split; [lia | discriminate].
  - inversion Ha as [|? ? Hx _]; subst. pose proof (tolower_pos x Hx).
    split; [lia | discriminate].
  - inversion Ha as [|? ? Hx Ha']; subst. inversion Hb as [|? ? Hy Hb']; subst.
    destruct (Z.eqb_spec (tolower x) (tolower y)) as [E|N].
    + rewrite (IH b Ha' Hb'). rewrite E. split; [congruence|].
      intros H. injection H as H. exact H.
    + split; [lia|]. intros H. injection H as H _. contradiction.
Qed.

Lemma c_string_pad (s : list byte) (n : nat) :
  no_nul s -> c_string (s ++ replicate (S n) x00) = s.
Proof.
  intros Hs. rewrite c_string_run by exact Hs. cbn. apply app_nil_r.
Qed.

(** [strncpy] from an array that holds a terminator among its first
    [n] characters. *)
Lemma strncpy_spec (n : nat) :
  forall src : list byte,
  Exists (fun c => char_val c = 0) (take n src) ->
  exists pad,
    strncpy src n = Done (c_string src ++ replicate (S pad) x00) /\
    (length (c_string src) + S pad = n)%nat.
Proof.
  induction n as [|n IH]; intros src Hnul.
  - rewrite take_0 in Hnul. inversion Hnul.
  - destruct src as [|c src]; [inversion Hnul|].
    cbn [take] in Hnul. cbn [strncpy c_string].
    destruct (Z.eqb_spec (char_val c) 0) as [E|N].
    + exists n. split; reflexivity.
    + apply Exists_cons in Hnul. destruct Hnul as [H|H]; [contradiction|].
      destruct (IH src H) as (pad & -> & Hlen).
      exists pad. cbn [mbind Outcome_bind app length]. split; [reflexivity | lia].
Qed.

Lemma strcasecmp_eqb (a b : list byte) :
  no_nul a -> no_nul b ->
  (strcasecmp a b =? 0) = bool_decide (tolower <$> a = tolower <$> b).
Proof.
  intros Ha Hb. pose proof (strcasecmp_zero a b Ha Hb) as H.
  destruct (Z.eqb_spec (strcasecmp a b) 0) as [E|N].
  - symmetry. apply bool_decide_eq_true_2. apply H. exact E.
  - symmetry. apply bool_decide_eq_false_2. intros E. apply N, H. exact E.
Qed.

Lemma no_nul_literals :
  no_nul str_help /\ no_nul str_qmark /\ no_nul str_pm /\ no_nul str_reflow /\
  no_nul str_start /\ no_nul str_stop /\
  no_nul str_status /\ no_nul str_set.
Proof. unfold no_nul. repeat split; repeat constructor; discriminate. Qed.

(** A line of two words, the first naming the reflow client: the
    command named by the second word is looked up among the commands of
    reflow.c and, when [second] tells it from help, ? and pm, its
    callback is called without arguments. *)
Lemma reflow_line_calls
    (run : cmd_cb_t -> Z -> list (list byte) -> Firmware -> Outcome (Z * Firmware))
    (client_infos : list (option cmd_client_info)) (i : nat)
    (cmd_buf cmd_line w1 w2 : list byte) (c : cmd_cmd_info) (fw fw' : Firmware)
    (r : Z) :
  (i < CMD_MAX_CLIENTS)%nat ->
  client_infos !! i = Some (Some reflow_client_info) ->
  (forall j slot, (j < i)%nat -> client_infos !! j = Some slot ->
     exists cj, slot = Some cj /\ strcasecmp w1 (client_name cj) <> 0) ->
  Exists (fun c => char_val c = 0) (take 40 cmd_line) ->
  words (c_string cmd_line) = [w1; w2] ->
  strcasecmp w1 str_reflow = 0 ->
  strcasecmp w2 str_help <> 0 -> strcasecmp w2 str_qmark <> 0 ->
  strcasecmp w2 str_pm <> 0 ->
  find_cmd w2 reflow_cmd_infos = Some c ->
  run (cb c) 0 [] fw = Done (r, fw') ->
  exists buf',
    Cmd_Event_Handler run client_infos cmd_buf CMD_RX_SIG cmd_line fw
    = Done (buf', client_infos, fw').
Proof.
  intros Hi Hslot Hbefore Hnul Hwords Hw1 Hh Hq Hpm Hfind Hrun.
  unfold Cmd_Event_Handler.
  change (CMD_RX_SIG =? INIT_SIG) with false.
  change (CMD_RX_SIG =? CMD_RX_SIG) with true. cbv iota.
  change (Z.to_nat CONSOLE_CMD_BUF_SIZE) with 40%nat.
  destruct (strncpy_spec 40 cmd_line Hnul) as (pad & -> & _).
  cbn [mbind Outcome_bind]. unfold cmd_execute.
  set (copied := c_string cmd_line ++ replicate (S pad) x00).
  assert (Hstr : c_string copied = c_string cmd_line)
    by (apply c_string_pad, c_string_no_nul).
  assert (Hnul' : Exists (fun c => char_val c = 0) copied).
  { subst copied. apply Exists_app. right. left. reflexivity. }
  destruct (tokenize_loop_spec CMD_MAX_TOKENS [] copied [] Hnul')
    as (err & buf' & offs & Htok' & _ & Hok & _).
  cbn [app length] in Htok', Hok. unfold tokenize. rewrite Htok'.
  rewrite Hstr, Hwords in Hok.
  destruct Hok as [-> Htok0]; [cbn; unfold CMD_MAX_TOKENS; lia|].
  assert (Htok : token_at buf' <$> offs = [w1; w2]) by exact Htok0.
  cbn [mbind Outcome_bind]. rewrite Htok. cbn [length Nat.eqb].
  (* the first word is not the help command *)
  destruct no_nul_literals as (Nh & Nq & Np & Nr & Ns & Nt & Nu & Ne).
  assert (Hnn : Forall no_nul [w1; w2]).
  { rewrite <- Hwords. apply words_from_Forall; [constructor|].
    apply c_string_no_nul. }
  inversion Hnn as [|? ? Hn1 Hnn']; subst.
  pose proof (proj1 (strcasecmp_zero w1 str_reflow Hn1 Nr) Hw1) as Hl1.
  unfold help_handler. cbn [lookup list_lookup access mbind Outcome_bind].
  rewrite (strcasecmp_eqb str_help w1 Nh Hn1),
          (strcasecmp_eqb str_qmark w1 Nq Hn1), Hl1.
  change (bool_decide (tolower <$> str_help = tolower <$> str_reflow)) with false.
  change (bool_decide (tolower <$> str_qmark = tolower <$> str_reflow)) with false.
  cbn [orb].
  unfold client_command_handler.
  rewrite (client_command_from_match run client_infos w1 [w2] fw
             reflow_client_info client_infos 0%nat i Hi Hslot Hbefore Hw1).
  rewrite (client_command_no_args run client_infos (0 + i) reflow_client_info
             c w1 w2 fw Hh Hq Hpm Hfind).
  cbn [mbind Outcome_bind]. rewrite Hrun. cbn [mbind Outcome_bind]. exists buf'. reflexivity.
Qed.

(** X24: the reflow commands of the console.  A command line of two
    words, of which the first is reflow and the second start (stop), in
    any mix of upper and lower case and with any white space around
    them, copied from a console buffer that holds a terminator, is
    tokenized and dispatched to [reflow_start_cmd] ([reflow_stop_cmd]):
    the handler returns, and START_REFLOW (STOP_REFLOW) has been posted
    once to the reflow active object, nothing else of the firmware
    state and nothing of the table being changed.  Clients registered
    before the reflow client must not carry its name. *)
Theorem Cmd_Event_Handler_reflow_commands
    (run : cmd_cb_t -> Z -> list (list byte) -> Firmware -> Outcome (Z * Firmware))
    (client_infos : list (option cmd_client_info)) (i : nat)
    (cmd_buf cmd_line w1 w2 : list byte) (fw : Firmware) :
  run Cb_reflow_start_cmd = reflow_start_cmd ->
  run Cb_reflow_stop_cmd = reflow_stop_cmd ->
  (i < CMD_MAX_CLIENTS)%nat ->
  client_infos !! i = Some (Some reflow_client_info) ->
  (forall j slot, (j < i)%nat -> client_infos !! j = Some slot ->
     exists cj, slot = Some cj /\ strcasecmp w1 (client_name cj) <> 0) ->
  Exists (fun c => char_val c = 0) (take 40 cmd_line) ->
  words (c_string cmd_line) = [w1; w2] ->
  strcasecmp w1 str_reflow = 0 ->
  let posted evt :=
    with_ao fw (set_base (reflow_ao fw)
                  (Active_post (reflow_base (reflow_ao fw)) evt).2) in
  (strcasecmp w2 str_start = 0 ->
   exists buf',
     Cmd_Event_Handler run client_infos cmd_buf CMD_RX_SIG cmd_line fw
     = Done (buf', client_infos, posted Ref_start_evt)) /\
  (strcasecmp w2 str_stop = 0 ->
   exists buf',
     Cmd_Event_Handler run client_infos cmd_buf CMD_RX_SIG cmd_line fw
     = Done (buf', client_infos, posted Ref_stop_evt)).
Proof.
  intros Hstart Hstop Hi Hslot Hbefore Hnul Hwords Hw1 posted.
  destruct no_nul_literals as (Nh & Nq & Np & Nr & Ns & Nt & Nu & Ne).
  assert (Hnn : Forall no_nul [w1; w2]).
  { rewrite <- Hwords. apply words_from_Forall; [constructor|].
    apply c_string_no_nul. }
  inversion Hnn as [|? ? Hn1 Hnn']; subst.
  inversion Hnn' as [|? ? Hn2 _]; subst.
  assert (Hcmp : forall lit, no_nul lit ->
            (strcasecmp w2 lit =? 0)
            = bool_decide (tolower <$> w2 = tolower <$> lit))
    by (intros lit Hl; apply strcasecmp_eqb; assumption).
  split; intros Hw2.
  - pose proof (proj1 (strcasecmp_zero w2 str_start Hn2 Ns) Hw2) as Hl2.
    apply (reflow_line_calls run client_infos i cmd_buf cmd_line w1 w2
             (mkCmdInfo str_start Cb_reflow_start_cmd) fw _ 0);
      try assumption.
    + apply Z.eqb_neq. rewrite (Hcmp _ Nh), Hl2. reflexivity.
    + apply Z.eqb_neq. rewrite (Hcmp _ Nq), Hl2. reflexivity.
    + apply Z.eqb_neq. rewrite (Hcmp _ Np), Hl2. reflexivity.
    + unfold reflow_cmd_infos. cbn [find_cmd cmd_name].
      rewrite (Hcmp _ Nu), (Hcmp _ Ns), Hl2. reflexivity.
    + cbn [cb]. rewrite Hstart. reflexivity.
  - pose proof (proj1 (strcasecmp_zero w2 str_stop Hn2 Nt) Hw2) as Hl2.
    apply (reflow_line_calls run client_infos i cmd_buf cmd_line w1 w2
             (mkCmdInfo str_stop Cb_reflow_stop_cmd) fw _ 0);
      try assumption.
    + apply Z.eqb_neq. rewrite (Hcmp _ Nh), Hl2. reflexivity.
    + apply Z.eqb_neq. rewrite (Hcmp _ Nq), Hl2. reflexivity.
    + apply Z.eqb_neq. rewrite (Hcmp _ Np), Hl2. reflexivity.
    + unfold reflow_cmd_infos. cbn [find_cmd cmd_name].
      rewrite (Hcmp _ Nu), (Hcmp _ Ns), (Hcmp _ Nt), Hl2. reflexivity.
    + cbn [cb]. rewrite Hstop. reflexivity.
Qed.

(** "Reflow START" entered at the console of the started firmware. *)
Lemma Cmd_Event_Handler_reflow_commands_witness :
  exists buf',
    Cmd_Event_Handler run_posting reflow_table (replicate 40 x00) CMD_RX_SIG
      line_reflow_start firmware_started
    = Done (buf', reflow_table,
            with_ao firmware_started
              (set_base (reflow_ao firmware_started)
                 (mkActive (Some (mkQueue 5%nat [Ref_start_evt]))))).
Proof.
  apply (Cmd_Event_Handler_reflow_commands run_posting reflow_table 0%nat
           (replicate 40 x00) line_reflow_start
           ["R"; "e"; "f"; "l"; "o"; "w"]%byte ["S"; "T"; "A"; "R"; "T"]%byte
           firmware_started eq_refl eq_refl).
  - unfold CMD_MAX_CLIENTS. lia.
  - reflexivity.
  - intros j slot Hj. lia.
  - vm_compute.
    repeat (first [ apply Exists_cons_hd; reflexivity | apply Exists_cons_tl ]).
  - reflexivity.
  - reflexivity.
  - reflexivity.
Defined.

End CmdToReflow.
(** ** The UART: the transmit ring buffer *)

Section UartRing.
Import Rtos Console Uart.

Lemma ring_count (u : UART_t) :
  ring_ok u ->
  let n := (tx_buf_put_idx u - tx_buf_get_idx u) mod UART_TX_BUF_SIZE in
  0 <= n < UART_TX_BUF_SIZE /\
  tx_buf_put_idx u = (tx_buf_get_idx u + n) mod UART_TX_BUF_SIZE.
Proof.
  unfold ring_ok, UART_TX_BUF_SIZE. intros (_ & Hg & Hp). cbv zeta.
  Z.to_euclidean_division_equations. lia.
Qed.

Lemma length_pending (u : UART_t) :
  Z.of_nat (length (pending u))
  = (tx_buf_put_idx u - tx_buf_get_idx u) mod UART_TX_BUF_SIZE.
Proof.
  unfold pending. rewrite length_fmap, length_seq.
  apply Z2Nat.id. apply Z.mod_pos_bound. unfold UART_TX_BUF_SIZE. lia.
Qed.


Lemma INC_SAT_U16_spec (n : Z) :
  0 <= n < 2 ^ 16 -> INC_SAT_U16 n = Z.min 65535 (n + 1).
Proof.
  intros Hn. unfold INC_SAT_U16, CInt.u16.
  destruct (Z.eqb_spec n 65535) as [->|N]; [reflexivity|].
  rewrite Z.mod_small by lia. lia.
Qed.

(** [uart_putc] with room in the ring. *)
Lemma uart_putc_room (c : byte) (w : World) :
  ring_ok (uart w) ->
  Z.of_nat (length (pending (uart w))) < UART_TX_BUF_SIZE - 1 ->
  exists u',
    uart_putc c w
    = Done (MOD_OK,
            mkWorld u' (uart_pms w)
                    (if uart_reg_base (uart w) && negb (txeie w) then true
                     else txeie w)
                    (tdr w) (console_queue_id w)) /\
    ring_ok u' /\ pending u' = pending (uart w) ++ [c].
Proof.
  intros Hok Hroom. rewrite length_pending in Hroom.
  destruct (ring_count _ Hok) as [Hn Hput]. cbv zeta in Hn, Hput.
  destruct Hok as (Hlen & Hg & Hp).
  set (n := (tx_buf_put_idx (uart w) - tx_buf_get_idx (uart w))
            mod UART_TX_BUF_SIZE) in *.
  unfold UART_TX_BUF_SIZE in *.
  assert (Hnext : CInt.u16 ((tx_buf_put_idx (uart w) + 1) mod 1024)
                  = (tx_buf_put_idx (uart w) + 1) mod 1024).
  { unfold CInt.u16. apply Z.mod_small.
    pose proof (Z.mod_pos_bound (tx_buf_put_idx (uart w) + 1) 1024 ltac:(lia)).
    lia. }
  assert (Hne : (tx_buf_put_idx (uart w) + 1) mod 1024
                <> tx_buf_get_idx (uart w)).
  { subst n. revert Hroom. Z.to_euclidean_division_equations. lia. }
  unfold uart_putc. unfold UART_TX_BUF_SIZE. rewrite Hnext.
  rewrite (proj2 (Z.eqb_neq _ _) Hne).
  unfold store.
  rewrite (proj2 (Z.leb_le 0 _)) by lia.
  rewrite (proj2 (Z.ltb_lt _ _)) by (rewrite Hlen; lia).
  cbn [andb mbind Outcome_bind].
  eexists. split; [reflexivity|]. split.
  - unfold ring_ok. cbn [tx_buf tx_buf_get_idx tx_buf_put_idx].
    rewrite length_insert. unfold UART_TX_BUF_SIZE.
    split; [exact Hlen|]. split; [exact Hg|].
    apply Z.mod_pos_bound. lia.
  - unfold pending. cbn [tx_buf tx_buf_get_idx tx_buf_put_idx].
    unfold UART_TX_BUF_SIZE. fold n.
    assert (Hn' : ((tx_buf_put_idx (uart w) + 1) mod 1024
                   - tx_buf_get_idx (uart w)) mod 1024 = n + 1).
    { subst n. revert Hroom. Z.to_euclidean_division_equations. lia. }
    rewrite Hn'. rewrite Z2Nat.inj_add by lia.
    change (Z.to_nat 1) with 1%nat. rewrite Nat.add_1_r, seq_S, fmap_app.
    f_equal.
    + apply list_fmap_ext. intros i k Hk. apply lookup_seq in Hk.
      destruct Hk as [-> Hk]. cbn [Nat.add].
      rewrite list_lookup_insert_ne; [reflexivity|].
      intros E. apply Z2Nat.inj in E; [| lia |
        apply Z.mod_pos_bound; lia].
      assert (Z.of_nat i < n) by lia.
      revert E Hput. Z.to_euclidean_division_equations. lia.
    + cbn [fmap list_fmap Nat.add]. f_equal.
      rewrite Z2Nat.id by lia. rewrite <- Hput.
      rewrite list_lookup_insert_eq by (rewrite Hlen; lia). reflexivity.
Qed.

(** [uart_putc] against a full ring. *)
Lemma uart_putc_full (c : byte) (w : World) (count : Z) :
  ring_ok (uart w) ->
  Z.of_nat (length (pending (uart w))) = UART_TX_BUF_SIZE - 1 ->
  uart_pms w !! CNT_TX_BUF_OVERRUN = Some count ->
  uart_putc c w
  = Done (MOD_ERR_BUF_OVERRUN,
          mkWorld (uart w)
                  (<[CNT_TX_BUF_OVERRUN := INC_SAT_U16 count]> (uart_pms w))
                  (txeie w) (tdr w) (console_queue_id w)).
Proof.
  intros Hok Hfull Hcount. rewrite length_pending in Hfull.
  destruct Hok as (Hlen & Hg & Hp). unfold UART_TX_BUF_SIZE in *.
  assert (Hnext : CInt.u16 ((tx_buf_put_idx (uart w) + 1) mod 1024)
                  = tx_buf_get_idx (uart w)).
  { unfold CInt.u16. rewrite Z.mod_small.
    - revert Hfull. Z.to_euclidean_division_equations. lia.
    - pose proof (Z.mod_pos_bound (tx_buf_put_idx (uart w) + 1) 1024
                    ltac:(lia)). lia. }
  unfold uart_putc. unfold UART_TX_BUF_SIZE. rewrite Hnext, Z.eqb_refl.
  rewrite Hcount. reflexivity.
Qed.

(** [write_tdr] transmits the oldest pending character. *)
Lemma write_tdr_spec (w : World) :
  ring_ok (uart w) ->
  match pending (uart w) with
  | [] =>
      write_tdr w
      = Done (mkWorld (uart w) (uart_pms w) false (tdr w) (console_queue_id w))
  | c :: rest =>
      exists u',
        write_tdr w
        = Done (mkWorld u' (uart_pms w) (txeie w) (tdr w ++ [c])
                        (console_queue_id w)) /\
        ring_ok u' /\ pending u' = rest
  end.
Proof.
  intros Hok.
  destruct (ring_count _ Hok) as [Hn Hput]. cbv zeta in Hn, Hput.
  pose proof (length_pending (uart w)) as Hlenp.
  destruct Hok as (Hlen & Hg & Hp).
  set (n := (tx_buf_put_idx (uart w) - tx_buf_get_idx (uart w))
            mod UART_TX_BUF_SIZE) in *.
  unfold UART_TX_BUF_SIZE in *.
  destruct (pending (uart w)) as [|c rest] eqn:Hpend.
  - cbn [length] in Hlenp.
    assert (E : tx_buf_get_idx (uart w) = tx_buf_put_idx (uart w)).
    { subst n. revert Hlenp. Z.to_euclidean_division_equations. lia. }
    unfold write_tdr. rewrite E, Z.eqb_refl. reflexivity.
  - cbn [length] in Hlenp.
    assert (Hne : tx_buf_get_idx (uart w) <> tx_buf_put_idx (uart w)).
    { intros E. subst n. rewrite E, Z.sub_diag, Z.mod_0_l in Hlenp by lia.
      lia. }
    unfold write_tdr. rewrite (proj2 (Z.eqb_neq _ _) Hne).
    destruct (lookup_lt_is_Some_2 (tx_buf (uart w))
                (Z.to_nat (tx_buf_get_idx (uart w)))) as [c0 Hc0];
      [rewrite Hlen; lia|].
    unfold Reflow.array_at. rewrite (proj2 (Z.ltb_ge _ _)) by lia.
    rewrite Hc0. cbn [access mbind Outcome_bind].
    (* the head of the pending characters *)
    unfold pending, UART_TX_BUF_SIZE in Hpend. fold n in Hpend.
    assert (Hnpos : 0 < n) by lia.
    destruct (Z.to_nat n) as [|m] eqn:Hm; [lia|].
    rewrite <- cons_seq in Hpend. cbn [fmap list_fmap] in Hpend.
    injection Hpend as Hc Hrest.
    rewrite Z.add_0_r, Z.mod_small, Hc0 in Hc by lia. cbn in Hc. subst c0.
    eexists. split; [reflexivity|].
    assert (Hget' : CInt.u16 ((tx_buf_get_idx (uart w) + 1) mod 1024)
                    = (tx_buf_get_idx (uart w) + 1) mod 1024).
    { unfold CInt.u16. apply Z.mod_small.
      pose proof (Z.mod_pos_bound (tx_buf_get_idx (uart w) + 1) 1024
                    ltac:(lia)). lia. }
    unfold UART_TX_BUF_SIZE. rewrite Hget'. split.
    + unfold ring_ok. cbn [tx_buf tx_buf_get_idx tx_buf_put_idx].
      unfold UART_TX_BUF_SIZE. split; [exact Hlen|].
      split; [apply Z.mod_pos_bound; lia | exact Hp].
    + rewrite <- Hrest. unfold pending.
      cbn [tx_buf tx_buf_get_idx tx_buf_put_idx]. unfold UART_TX_BUF_SIZE.
      assert (Hn' : (tx_buf_put_idx (uart w)
                     - (tx_buf_get_idx (uart w) + 1) mod 1024) mod 1024
                    = Z.of_nat m).
      { assert (n = Z.of_nat (S m)) by lia. subst n.
        revert H. Z.to_euclidean_division_equations. lia. }
      rewrite Hn', Nat2Z.id. rewrite <- fmap_S_seq, <- list_fmap_compose.
      apply list_fmap_ext. intros i k _. cbn. f_equal. f_equal. f_equal.
      rewrite Nat2Z.inj_succ.
      Z.to_euclidean_division_equations. lia.
Qed.


(** X25: the transmit ring buffer is a FIFO of at most 1023 characters.
    While the indices point into the buffer, [uart_putc] and
    [write_tdr] return without touching memory outside [tx_buf] and keep
    the indices inside it.  With fewer than UART_TX_BUF_SIZE - 1
    characters pending, [uart_putc] returns MOD_OK, appends the
    character to the pending ones and makes sure the TXE interrupt is
    enabled; with UART_TX_BUF_SIZE - 1 pending it returns
    MOD_ERR_BUF_OVERRUN and leaves the ring as it is.  [write_tdr]
    writes the oldest pending character to the transmit data register
    and removes it from the ring, or disables the TXE interrupt when
    nothing is pending.  So the characters written to the register are
    the characters accepted, in the order of acceptance, none lost and
    none repeated. *)
Theorem uart_tx_ring_is_fifo (c : byte) (w : World) (count : Z) :
  ring_ok (uart w) ->
  uart_pms w !! CNT_TX_BUF_OVERRUN = Some count ->
  (length (pending (uart w)) <= 1023)%nat /\
  (exists r w',
     uart_putc c w = Done (r, w') /\ ring_ok (uart w') /\ tdr w' = tdr w /\
     ((length (pending (uart w)) < 1023)%nat ->
      r = MOD_OK /\ pending (uart w') = pending (uart w) ++ [c] /\
      uart_pms w' = uart_pms w /\
      (uart_reg_base (uart w) = true -> txeie w' = true)) /\
     ((length (pending (uart w)) = 1023)%nat ->
      r = MOD_ERR_BUF_OVERRUN /\ uart w' = uart w)) /\
  (exists w',
     write_tdr w = Done w' /\ ring_ok (uart w') /\
     uart_pms w' = uart_pms w /\
     match pending (uart w) with
     | [] => tdr w' = tdr w /\ pending (uart w') = [] /\ txeie w' = false
     | c0 :: rest => tdr w' = tdr w ++ [c0] /\ pending (uart w') = rest
     end).
Proof.
  intros Hok Hcount.
  assert (Hbound : (length (pending (uart w)) <= 1023)%nat).
  { pose proof (length_pending (uart w)) as H.
    pose proof (Z.mod_pos_bound
                  (tx_buf_put_idx (uart w) - tx_buf_get_idx (uart w))
                  UART_TX_BUF_SIZE ltac:(unfold UART_TX_BUF_SIZE; lia)).
    unfold UART_TX_BUF_SIZE in *. lia. }
  split; [exact Hbound|]. split.
  - destruct (Nat.eq_dec (length (pending (uart w))) 1023%nat) as [Hfull|Hroom].
    + rewrite (uart_putc_full c w count Hok) by
        (assumption || (unfold UART_TX_BUF_SIZE; lia)).
      eexists _, _. split; [reflexivity|]. cbn [uart tdr].
      split; [exact Hok|]. split; [reflexivity|].
      split; [intros H; lia | intros _; split; reflexivity].
    + destruct (uart_putc_room c w Hok) as (u' & Hrun & Hok' & Hpend).
      { unfold UART_TX_BUF_SIZE. lia. }
      rewrite Hrun. eexists _, _. split; [reflexivity|].
      cbn [uart tdr uart_pms txeie].
      split; [exact Hok'|]. split; [reflexivity|].
      split; [|intros H; contradiction].
      intros _. split; [reflexivity|]. split; [exact Hpend|].
      split; [reflexivity|]. intros ->. cbn [andb].
      destruct (txeie w); reflexivity.
  - pose proof (write_tdr_spec w Hok) as Hw.
    destruct (pending (uart w)) as [|c0 rest] eqn:Hpend.
    + rewrite Hw. eexists. split; [reflexivity|]. cbn [uart tdr uart_pms txeie].
      split; [exact Hok|]. split; [reflexivity|].
      split; [reflexivity|]. split; [exact Hpend | reflexivity].
    + destruct Hw as (u' & Hrun & Hok' & Hrest). rewrite Hrun.
      eexists. split; [reflexivity|]. cbn [uart tdr uart_pms].
      split; [exact Hok'|]. split; [reflexivity|].
      split; [reflexivity | exact Hrest].
Qed.

Lemma uart_started_ok : ring_ok (uart uart_started).
Proof.
  unfold ring_ok, uart_started, UART_TX_BUF_SIZE. cbn [uart tx_buf
    tx_buf_get_idx tx_buf_put_idx]. rewrite length_replicate.
  split; [reflexivity | lia].
Qed.

(** The first character put after start-up is the one pending. *)
Lemma uart_tx_ring_is_fifo_witness :
  exists w',
    uart_putc "r" uart_started = Done (MOD_OK, w') /\
    pending (uart w') = pending (uart uart_started) ++ ["r"%byte].
Proof.
  destruct (uart_tx_ring_is_fifo "r" uart_started 0 uart_started_ok eq_refl)
    as (_ & (r & w' & Hrun & _ & _ & Hroom & _) & _).
  destruct Hroom as (-> & Hpend & _).
  { vm_compute. lia. }
  exists w'. split; [exact Hrun | exact Hpend].
Defined.

Lemma low_char_val (reg : Z) : char_val (low_char reg) = reg mod 256.
Proof.
  unfold low_char, char_val. change 255 with (Z.ones 8).
  rewrite Z.land_ones by lia. change (2 ^ 8) with 256.
  pose proof (Z.mod_pos_bound reg 256 ltac:(lia)) as Hb.
  destruct (Byte.of_N (Z.to_N (reg mod 256))) as [b|] eqn:Hof.
  - apply Byte.to_of_N in Hof. rewrite Hof. apply Z2N.id. lia.
  - apply Byte.of_N_None_iff in Hof. lia.
Qed.

(** X26: received characters and the overrun counters.  [read_rdr]
    hands the low byte of the receive data register to the console's
    queue: with room it is appended behind the characters already
    queued; with the queue full, or not created, nothing is queued and
    the RX BUF ORE counter is incremented.  The counters saturate:
    [INC_SAT_U16] of a uint16_t value is the smaller of 65535 and the
    value plus one, so a counter at 65535 stays there.  [read_rdr]
    touches neither the transmit ring nor the other counters, and
    returns when the counter exists. *)
Theorem read_rdr_queues_or_counts (rdr : Z) (w : World) (count : Z) :
  uart_pms w !! CNT_RX_BUF_OVERRUN = Some count ->
  0 <= count < 2 ^ 16 ->
  let dropped :=
    mkWorld (uart w)
            (<[CNT_RX_BUF_OVERRUN := Z.min 65535 (count + 1)]> (uart_pms w))
            (txeie w) (tdr w) (console_queue_id w) in
  char_val (low_char rdr) = rdr mod 256 /\
  read_rdr rdr w =
  Done match console_queue_id w with
       | Some q =>
           if queue_full q then dropped
           else mkWorld (uart w) (uart_pms w) (txeie w) (tdr w)
                        (Some (mkQueue (msg_count q)
                                 (msgs q ++ [low_char rdr])))
       | None => dropped
       end.
Proof.
  intros Hcount Hrange dropped. split; [apply low_char_val|].
  subst dropped. rewrite <- (INC_SAT_U16_spec count Hrange).
  unfold read_rdr, console_post, osMessageQueuePut.
  destruct (console_queue_id w) as [q|] eqn:Hq.
  - destruct (queue_full q).
    + cbn [Z.eqb]. rewrite Hcount. reflexivity.
    + reflexivity.
  - rewrite Hcount. reflexivity.
Qed.

(** The letter r received after start-up is queued for the console. *)
Lemma read_rdr_queues_or_counts_witness :
  read_rdr 114 uart_started
  = Done (mkWorld (uart uart_started) (uart_pms uart_started) true []
                  (Some (mkQueue 1024%nat ["r"%byte]))).
Proof.
  apply (read_rdr_queues_or_counts 114 uart_started 0 eq_refl).
  vm_compute. split; [discriminate | reflexivity].
Defined.

End UartRing.
